(** * Loudness normalisation and delivery scoring of chunks-ec-v1

    A shallow embedding of [src/lib/lufsNormalization.ts] and of the audio
    analysis module that imports it (the scoring pipeline around
    [analyzeAudioAsync]), with the properties of the written specification
    stated and settled against the code.

    Number model.  Sample buffers, sample rates, loudness targets and
    configuration values are finite numbers and are read as mathematical
    reals ([R]); arithmetic on them is exact (no rounding, no overflow, no
    signed zero).  Values the code can drive out of the finite range
    ([-Infinity] returned for silence, a quotient whose divisor may be zero,
    [Math.log10]) are of type [num], which adds the three special values of a
    JavaScript number to the reals and follows their arithmetic.

    Effects.  [localStorage] and [Date.now()] are an explicit world threaded
    through a small state monad; the remote collaborators enter as the
    answers they give.  A loop that may run forever in the source (the frame
    loop of the pause analyser, whose step can be 0) makes the function
    return [None]. *)

From Stdlib Require Import Reals Lra Lia ZArith String List Bool Arith.
Import ListNotations.
Local Open Scope R_scope.

(* ================================================================= *)
(** ** JavaScript numbers *)

Module JsNum.

Inductive num : Type :=
| NaN
| NegInf
| PosInf
| Fin (x : R).

Definition Rltb (x y : R) : bool := if Rlt_dec x y then true else false.
Definition Rleb (x y : R) : bool := if Rle_dec x y then true else false.
Definition Reqb (x y : R) : bool := if Req_dec_T x y then true else false.


Definition signed (positive : bool) : num :=
  if positive then PosInf else NegInf.

Definition neg (a : num) : num :=
  match a with
  | NaN => NaN
  | NegInf => PosInf
  | PosInf => NegInf
  | Fin x => Fin (- x)
  end.

Definition add (a b : num) : num :=
  match a, b with
  | NaN, _ | _, NaN => NaN
  | NegInf, PosInf | PosInf, NegInf => NaN
  | NegInf, _ | _, NegInf => NegInf
  | PosInf, _ | _, PosInf => PosInf
  | Fin x, Fin y => Fin (x + y)
  end.

Definition sub (a b : num) : num := add a (neg b).

(** An infinity of the given sign times the finite [x]. *)
Definition infTimes (positive : bool) (x : R) : num :=
  if Reqb x 0 then NaN else signed (Bool.eqb positive (Rltb 0 x)).

Definition mul (a b : num) : num :=
  match a, b with
  | NaN, _ | _, NaN => NaN
  | Fin x, Fin y => Fin (x * y)
  | PosInf, Fin y | Fin y, PosInf => infTimes true y
  | NegInf, Fin y | Fin y, NegInf => infTimes false y
  | PosInf, PosInf | NegInf, NegInf => PosInf
  | PosInf, NegInf | NegInf, PosInf => NegInf
  end.

(** Division; a zero divisor is read as [+0]. *)
Definition div (a b : num) : num :=
  match a, b with
  | NaN, _ | _, NaN => NaN
  | Fin x, Fin y =>
      if Reqb y 0
      then (if Reqb x 0 then NaN else signed (Rltb 0 x))
      else Fin (x / y)
  | Fin _, (PosInf | NegInf) => Fin 0
  | PosInf, Fin y => signed (Rleb 0 y)
  | NegInf, Fin y => signed (Rltb y 0)
  | (PosInf | NegInf), (PosInf | NegInf) => NaN
  end.

(** [a < b], [a <= b], [a > b], [a >= b], [a === b]: false when either side
    is [NaN]. *)
Definition lt (a b : num) : bool :=
  match a, b with
  | NaN, _ | _, NaN => false
  | _, NegInf => false
  | NegInf, _ => true
  | PosInf, _ => false
  | Fin _, PosInf => true
  | Fin x, Fin y => Rltb x y
  end.

Definition le (a b : num) : bool :=
  match a, b with
  | NaN, _ | _, NaN => false
  | NegInf, _ => true
  | _, PosInf => true
  | Fin x, Fin y => Rleb x y
  | _, _ => false
  end.

Definition gt (a b : num) : bool := lt b a.
Definition ge (a b : num) : bool := le b a.

Definition strictEq (a b : num) : bool :=
  match a, b with
  | NegInf, NegInf | PosInf, PosInf => true
  | Fin x, Fin y => Reqb x y
  | _, _ => false
  end.

(** [Math.max(a, b)] and [Math.min(a, b)]: [NaN] when either side is. *)
Definition max (a b : num) : num :=
  match a, b with
  | NaN, _ | _, NaN => NaN
  | _, _ => if lt a b then b else a
  end.

Definition min (a b : num) : num :=
  match a, b with
  | NaN, _ | _, NaN => NaN
  | _, _ => if lt b a then b else a
  end.

(** [Math.abs], [Math.sqrt], [Math.log10], [Math.pow(10, a)]. *)
Definition abs (a : num) : num :=
  match a with
  | NaN => NaN
  | NegInf | PosInf => PosInf
  | Fin x => Fin (Rabs x)
  end.

Definition sqrt (a : num) : num :=
  match a with
  | NaN | NegInf => NaN
  | PosInf => PosInf
  | Fin x => if Rltb x 0 then NaN else Fin (R_sqrt.sqrt x)
  end.

Definition log10 (a : num) : num :=
  match a with
  | NaN | NegInf => NaN
  | PosInf => PosInf
  | Fin x =>
      if Rltb x 0 then NaN
      else if Reqb x 0 then NegInf
      else Fin (ln x / ln 10)
  end.

Definition pow10 (a : num) : num :=
  match a with
  | NaN => NaN
  | NegInf => Fin 0
  | PosInf => PosInf
  | Fin y => Fin (Rpower 10 y)
  end.

(** [Math.floor] and [Math.round] of a finite number, as integers;
    [Math.round] takes the nearest integer, a tie going up. *)
Definition floor (x : R) : Z := Int_part x.
Definition round (x : R) : Z := floor (x + 1 / 2).

(** [Math.round(a)] on any number. *)
Definition roundNum (a : num) : num :=
  match a with
  | Fin x => Fin (IZR (round x))
  | _ => a
  end.

(** A number used as a condition: [0] and [NaN] are falsy. *)
Definition truthy (a : num) : bool :=
  match a with
  | NaN => false
  | Fin x => negb (Reqb x 0)
  | _ => true
  end.

(** [a.slice(start, end)]: a negative index counts from the end. *)
Definition sliceIndex {A : Type} (a : list A) (k : Z) : nat :=
  let len := Z.of_nat (length a) in
  Z.to_nat (if (k <? 0)%Z then Z.max (len + k) 0 else Z.min k len).

Definition slice {A : Type} (a : list A) (first last : Z) : list A :=
  let s := sliceIndex a first in
  let e := sliceIndex a last in
  firstn (e - s) (skipn s a).

(** [values.reduce((a, b) => a + b, 0)] on finite numbers and on [num]. *)
Definition sumR (values : list R) : R := fold_left Rplus values 0.
Definition sumNum (values : list num) : num := fold_left add values (Fin 0).

End JsNum.

Declare Scope num_scope.
Delimit Scope num_scope with num.
Bind Scope num_scope with JsNum.num.
Infix "+" := JsNum.add : num_scope.
Infix "-" := JsNum.sub : num_scope.
Infix "*" := JsNum.mul : num_scope.
Infix "/" := JsNum.div : num_scope.
Infix "<?" := JsNum.lt : num_scope.
Infix "<=?" := JsNum.le : num_scope.
Infix ">?" := JsNum.gt : num_scope.
Infix ">=?" := JsNum.ge : num_scope.
Infix "=?" := JsNum.strictEq : num_scope.

(* ================================================================= *)
(** ** lufsNormalization.ts: loudness meter and normaliser *)

Module Lufs.
Import JsNum.

Definition TARGET_LUFS : R := -23.
Definition MAX_RECORDING_HISTORY : nat := 10.
Definition VARIANCE_THRESHOLD : R := 5.

(** The inner loop of a block: [sum += s * s] over [blockSize] samples
    starting at index [i]. *)
Definition sumSquares (audioBuffer : list R) (i blockSize : Z) : R :=
  fold_left (fun sum s => sum + s * s)
            (firstn (Z.to_nat blockSize) (skipn (Z.to_nat i) audioBuffer)) 0.

(** The outer loop [for (i = 0; i < length - blockSize; i += hop)], started
    at [i]; each turn pushes one block's mean square. *)
Fixpoint blockLoop (fuel : nat) (audioBuffer : list R) (blockSize hop i : Z)
  : list num :=
  match fuel with
  | O => []
  | S fuel' =>
      if (i <? Z.of_nat (length audioBuffer) - blockSize)%Z
      then (Fin (sumSquares audioBuffer i blockSize) / Fin (IZR blockSize))%num
             :: blockLoop fuel' audioBuffer blockSize hop (i + hop)
      else []
  end.

Definition blockSizeOf (sampleRate : R) : Z := floor (sampleRate * 0.4).
Definition overlapOf (blockSize : Z) : Z := floor (IZR blockSize * 0.75).
Definition hopOf (blockSize : Z) : Z := Z.max 1 (blockSize - overlapOf blockSize).

(** [blocks]: the loop runs at most [length - blockSize] times, the hop being
    at least 1. *)
Definition blocksOf (audioBuffer : list R) (sampleRate : R) : list num :=
  let blockSize := blockSizeOf sampleRate in
  blockLoop (Z.to_nat (Z.of_nat (length audioBuffer) - blockSize))
            audioBuffer blockSize (hopOf blockSize) 0.

Definition absoluteGate : R := Rpower 10 (-70 / 10).

(** [gated], [avg], [relativeGate] and [finalBlocks] of the source. *)
Definition gatedOf (blocks : list num) : list num :=
  filter (fun ms => (ms >=? Fin absoluteGate)%num) blocks.

Definition avgOf (gated : list num) : num :=
  (sumNum gated / Fin (INR (length gated)))%num.

Definition relativeGateOf (gated : list num) : num :=
  (avgOf gated * Fin (Rpower 10 (-10 / 10)))%num.

Definition finalBlocksOf (gated : list num) : list num :=
  filter (fun ms => (ms >=? relativeGateOf gated)%num) gated.

Definition calculateMeanSquareWithGating
           (audioBuffer : list R) (sampleRate : R) : num :=
  let blocks := blocksOf audioBuffer sampleRate in
  match blocks with
  | [] => Fin 0
  | _ =>
    let gated := gatedOf blocks in
    match gated with
    | [] => Fin 0
    | _ =>
      let finalBlocks := finalBlocksOf gated in
      match finalBlocks with
      | [] => avgOf gated
      | _ => (sumNum finalBlocks / Fin (INR (length finalBlocks)))%num
      end
    end
  end.

(** The blocks that are left after both gates. *)
Definition survivingBlocks (audioBuffer : list R) (sampleRate : R) : list num :=
  finalBlocksOf (gatedOf (blocksOf audioBuffer sampleRate)).

Definition calculateLUFS (audioBuffer : list R) (sampleRate : R) : num :=
  match audioBuffer with
  | [] => NegInf
  | _ =>
    let meanSquare := calculateMeanSquareWithGating audioBuffer sampleRate in
    if (meanSquare =? Fin 0)%num then NegInf
    else (Fin (-0.691) + Fin 10 * log10 meanSquare)%num
  end.

Record Normalized : Type := {
  normalized : list R;
  currentLUFS : num;
  gainDB : R;
  gainLinear : R
}.

(** [Math.max(-1, Math.min(1, s * gain))] *)
Definition clip (s gain : R) : R := Rmax (-1) (Rmin 1 (s * gain)).

Definition normalizeToLUFS
           (audioBuffer : list R) (sampleRate targetLUFS : R) : Normalized :=
  match calculateLUFS audioBuffer sampleRate with
  | Fin current =>
      let gainDB := targetLUFS - current in
      let gainLinear := Rpower 10 (gainDB / 20) in
      {| normalized := map (fun s => clip s gainLinear) audioBuffer;
         currentLUFS := Fin current;
         gainDB := gainDB;
         gainLinear := gainLinear |}
  | _ =>
      {| normalized := audioBuffer;
         currentLUFS := NegInf;
         gainDB := 0;
         gainLinear := 1 |}
  end.

(** [calculateNoiseFloor]: level of the first 100 ms, in dB. *)
Definition calculateNoiseFloor (audioBuffer : list R) (sampleRate : R) : num :=
  let frameSamples := floor (sampleRate * 0.1) in
  let noiseSegment :=
    slice audioBuffer 0 (Z.min frameSamples (Z.of_nat (length audioBuffer))) in
  match noiseSegment with
  | [] => NegInf
  | _ =>
    let sum := fold_left (fun sum s => sum + s * s) noiseSegment 0 in
    let rms := sqrt (Fin sum / Fin (INR (length noiseSegment))) in
    (Fin 20 * log10 (max rms (Fin 1e-10)))%num
  end.

(** *** Calibration profiles in [localStorage] *)

(** A history entry as it is read back from storage. *)
Module Stats.
Record RecordingStats : Type := {
  timestamp : Z;
  originalLUFS : R;
  calibratedLUFS : R;
  finalLUFS : R;
  noiseFloor : R
}.
End Stats.
Definition RecordingStats : Type := Stats.RecordingStats.

(** The measurements handed to [trackRecording]
    ([Omit<RecordingStats, 'timestamp'>]), before they are written. *)
Module Measured.
Record t : Type := {
  originalLUFS : num;
  calibratedLUFS : num;
  finalLUFS : num;
  noiseFloor : num
}.
End Measured.

Record CalibrationProfile : Type := {
  deviceId : string;
  deviceLabel : string;
  noiseFloor : R;
  referenceLevel : R;
  gainAdjustment : R;
  createdAt : Z;
  lastUsed : Z;
  recordingHistory : option (list RecordingStats)
}.

(** The world the module acts on: the parsed value kept under
    [CALIBRATION_STORAGE_KEY] ([None] when the key is absent or its text does
    not parse), and the clock, given by its successive readings.  Writes to
    storage succeed. *)
Record World : Type := {
  profilesItem : option (list CalibrationProfile);
  clock : nat -> Z;
  reads : nat
}.

Definition M (A : Type) : Type := World -> A * World.
Definition ret {A : Type} (a : A) : M A := fun w => (a, w).
Definition bind {A B : Type} (m : M A) (k : A -> M B) : M B :=
  fun w => let (a, w') := m w in k a w'.

Notation "x <- m ;; k" := (bind m (fun x => k))
  (at level 61, m at next level, right associativity).
Notation "m ;; k" := (bind m (fun _ => k))
  (at level 61, right associativity).

(** [Date.now()] *)
Definition dateNow : M Z :=
  fun w => (clock w (reads w),
            {| profilesItem := profilesItem w; clock := clock w;
               reads := S (reads w) |}).

Definition getItem : M (option (list CalibrationProfile)) :=
  fun w => (profilesItem w, w).

(** [localStorage.setItem(CALIBRATION_STORAGE_KEY, JSON.stringify(profiles))] *)
Definition setItem (profiles : list CalibrationProfile) : M unit :=
  fun w => (tt, {| profilesItem := Some profiles; clock := clock w;
                   reads := reads w |}).

(** [JSON.stringify] writes a number that is not finite as [null], and the
    sums and differences in which the code later reads a history field take
    [null] for 0. *)
Definition jsonNumber (a : num) : R :=
  match a with Fin x => x | _ => 0 end.

Definition getCalibrationProfiles : M (list CalibrationProfile) :=
  stored <- getItem ;;
  ret (match stored with Some profiles => profiles | None => [] end).

(** [profiles.findIndex((p) => p.deviceId === id)] *)
Fixpoint findIndex (id : string) (profiles : list CalibrationProfile) : option nat :=
  match profiles with
  | [] => None
  | p :: rest =>
      if String.eqb (deviceId p) id then Some O
      else option_map S (findIndex id rest)
  end.

(** [profiles[idx] = profile], for an index within the array. *)
Fixpoint assign {A : Type} (l : list A) (idx : nat) (x : A) : list A :=
  match l, idx with
  | [], _ => []
  | _ :: rest, O => x :: rest
  | y :: rest, S idx' => y :: assign rest idx' x
  end.

Definition saveCalibrationProfile (profile : CalibrationProfile) : M unit :=
  profiles <- getCalibrationProfiles ;;
  match findIndex (deviceId profile) profiles with
  | Some idx => setItem (assign profiles idx profile)
  | None => setItem (profiles ++ [profile])
  end.

Definition withLastUsed (profile : CalibrationProfile) (now : Z) : CalibrationProfile :=
  {| deviceId := deviceId profile; deviceLabel := deviceLabel profile;
     noiseFloor := noiseFloor profile; referenceLevel := referenceLevel profile;
     gainAdjustment := gainAdjustment profile; createdAt := createdAt profile;
     lastUsed := now; recordingHistory := recordingHistory profile |}.

Definition withHistory (profile : CalibrationProfile) (history : list RecordingStats)
  : CalibrationProfile :=
  {| deviceId := deviceId profile; deviceLabel := deviceLabel profile;
     noiseFloor := noiseFloor profile; referenceLevel := referenceLevel profile;
     gainAdjustment := gainAdjustment profile; createdAt := createdAt profile;
     lastUsed := lastUsed profile; recordingHistory := Some history |}.

Definition getCalibrationProfile (id : string) : M (option CalibrationProfile) :=
  profiles <- getCalibrationProfiles ;;
  match find (fun p => String.eqb (deviceId p) id) profiles with
  | None => ret None
  | Some profile =>
      now <- dateNow ;;
      let profile := withLastUsed profile now in
      saveCalibrationProfile profile ;;
      ret (Some profile)
  end.

Definition deleteCalibrationProfile (id : string) : M unit :=
  all <- getCalibrationProfiles ;;
  let profiles := filter (fun p => negb (String.eqb (deviceId p) id)) all in
  setItem profiles.

Definition createCalibrationProfile
           (id label : string) (noise reference targetLevel : R)
  : M CalibrationProfile :=
  let gainDB := targetLevel - reference in
  let gain := Rpower 10 (gainDB / 20) in
  created <- dateNow ;;
  used <- dateNow ;;
  ret {| deviceId := id; deviceLabel := label; noiseFloor := noise;
         referenceLevel := reference;
         gainAdjustment := Rmax 0.1 (Rmin 10 gain);
         createdAt := created; lastUsed := used;
         recordingHistory := Some [] |}.

(** [{ ...stats, timestamp: now }], as storage keeps it. *)
Definition stamped (stats : Measured.t) (now : Z) : RecordingStats :=
  {| Stats.timestamp := now;
     Stats.originalLUFS := jsonNumber (Measured.originalLUFS stats);
     Stats.calibratedLUFS := jsonNumber (Measured.calibratedLUFS stats);
     Stats.finalLUFS := jsonNumber (Measured.finalLUFS stats);
     Stats.noiseFloor := jsonNumber (Measured.noiseFloor stats) |}.

(** [history.slice(-n)] *)
Definition lastN {A : Type} (n : nat) (history : list A) : list A :=
  skipn (sliceIndex history (- Z.of_nat n)) history.

Definition trackRecording (id : string) (stats : Measured.t) : M unit :=
  found <- getCalibrationProfile id ;;
  match found with
  | None => ret tt
  | Some profile =>
      let history :=
        match recordingHistory profile with Some h => h | None => [] end in
      now <- dateNow ;;
      let history := history ++ [stamped stats now] in
      let history :=
        if (MAX_RECORDING_HISTORY <? length history)%nat
        then lastN MAX_RECORDING_HISTORY history
        else history in
      saveCalibrationProfile (withHistory profile history)
  end.

Definition calcStd (values : list R) : R :=
  if (length values <? 3)%nat then 0
  else
    let mean := sumR values / INR (length values) in
    let sq := map (fun v => (v - mean) ^ 2) values in
    R_sqrt.sqrt (sumR sq / INR (length values)).

(** The three messages of [checkRecalibrationNeeded]; the number in each is
    what the source prints into the text ([toFixed(1)] of the deviation, or
    the whole days). *)
Inductive Reason : Type :=
| HighVariance (lufsVar : R)
| NoiseChanged (noiseVar : R)
| CalibrationAge (days : Z).

Record RecalibrationSuggestion : Type := {
  shouldRecalibrate : bool;
  reason : option Reason;
  variance : option R;
  threshold : option R
}.

Definition noSuggestion : RecalibrationSuggestion :=
  {| shouldRecalibrate := false; reason := None;
     variance := None; threshold := None |}.

Definition checkRecalibrationNeeded (id : string) : M RecalibrationSuggestion :=
  found <- getCalibrationProfile id ;;
  match found with
  | None => ret noSuggestion
  | Some profile =>
    match recordingHistory profile with
    | None => ret noSuggestion
    | Some history =>
      if (length history <? 3)%nat then ret noSuggestion
      else
        let lufsVar := calcStd (map Stats.originalLUFS history) in
        if Rltb VARIANCE_THRESHOLD lufsVar then
          ret {| shouldRecalibrate := true;
                 reason := Some (HighVariance lufsVar);
                 variance := Some lufsVar;
                 threshold := Some VARIANCE_THRESHOLD |}
        else
          let noiseVar := calcStd (map Stats.noiseFloor history) in
          if Rltb 10 noiseVar then
            ret {| shouldRecalibrate := true;
                   reason := Some (NoiseChanged noiseVar);
                   variance := Some noiseVar;
                   threshold := Some 10 |}
          else
            now <- dateNow ;;
            let daysSince :=
              (IZR now - IZR (createdAt profile)) / (1000 * 60 * 60 * 24) in
            if Rltb 30 daysSince then
              ret {| shouldRecalibrate := true;
                     reason := Some (CalibrationAge (floor daysSince));
                     variance := None;
                     threshold := None |}
            else ret noSuggestion
    end
  end.

(** A string used as a condition: the empty string is falsy. *)
Definition nonEmpty (s : option string) : option string :=
  match s with
  | Some EmptyString | None => None
  | Some id => Some id
  end.

Module Calibrated.
Record t : Type := {
  normalized : list R;
  originalLUFS : num;
  calibratedLUFS : num;
  finalLUFS : num;
  deviceGain : R;
  normalizationGain : R
}.
End Calibrated.

Definition calibrateAndNormalize
           (audioBuffer : list R) (sampleRate : R) (id : option string)
           (targetLUFS : R) : M Calibrated.t :=
  let originalLUFS := calculateLUFS audioBuffer sampleRate in
  gained <-
    match nonEmpty id with
    | Some id =>
        found <- getCalibrationProfile id ;;
        match found with
        | Some profile =>
            if Reqb (gainAdjustment profile) 1 then ret (audioBuffer, 1)
            else
              let deviceGain := gainAdjustment profile in
              ret (map (fun s => clip s deviceGain) audioBuffer, deviceGain)
        | None => ret (audioBuffer, 1)
        end
    | None => ret (audioBuffer, 1)
    end ;;
  let (processed, deviceGain) := (gained : list R * R) in
  let calibratedLUFS := calculateLUFS processed sampleRate in
  let result := normalizeToLUFS processed sampleRate targetLUFS in
  let finalLUFS := calculateLUFS (normalized result) sampleRate in
  match nonEmpty id with
  | Some id =>
      trackRecording id
        {| Measured.originalLUFS := originalLUFS;
           Measured.calibratedLUFS := calibratedLUFS;
           Measured.finalLUFS := finalLUFS;
           Measured.noiseFloor := calculateNoiseFloor audioBuffer sampleRate |}
  | None => ret tt
  end ;;
  ret {| Calibrated.normalized := normalized result;
         Calibrated.originalLUFS := originalLUFS;
         Calibrated.calibratedLUFS := calibratedLUFS;
         Calibrated.finalLUFS := finalLUFS;
         Calibrated.deviceGain := deviceGain;
         Calibrated.normalizationGain := gainLinear result |}.

(** [message] of [getRecalibrationStatus]: a fixed text, or the reason the
    suggestion carries. *)
Inductive Message : Type :=
| Fixed (text : string)
| Reasoned (why : Reason).

Module Status.
Record t : Type := {
  status : string;
  message : Message;
  variance : option R
}.
End Status.

(** [suggestion.variance && suggestion.threshold ? variance / threshold : 1.5] *)
Definition severityOf (suggestion : RecalibrationSuggestion) : R :=
  match variance suggestion, threshold suggestion with
  | Some v, Some t =>
      if Reqb v 0 then 1.5 else if Reqb t 0 then 1.5 else v / t
  | _, _ => 1.5
  end.

Definition getRecalibrationStatus (id : string) : M Status.t :=
  suggestion <- checkRecalibrationNeeded id ;;
  if negb (shouldRecalibrate suggestion) then
    ret {| Status.status := "good";
           Status.message := Fixed "Calibration is accurate and up to date.";
           Status.variance := None |}
  else
    let severity := severityOf suggestion in
    if Rltb 2 severity then
      ret {| Status.status := "recommend";
             Status.message :=
               match reason suggestion with
               | Some why => Reasoned why
               | None => Fixed "Recalibration strongly recommended."
               end;
             Status.variance := variance suggestion |}
    else
      ret {| Status.status := "warning";
             Status.message :=
               match reason suggestion with
               | Some why => Reasoned why
               | None => Fixed "Consider recalibrating soon."
               end;
             Status.variance := variance suggestion |}.

Definition measureReferenceLevel (audioBuffer : list R) (sampleRate : R) : num :=
  calculateLUFS audioBuffer sampleRate.

End Lufs.

(* ================================================================= *)
(** ** The audio analysis module *)

Module Analysis.
Import JsNum Lufs.

Record SpeechSegment : Type := {
  start : R;
  stop : R;        (* [end] in the source *)
  duration : R
}.

Record VADMetrics : Type := {
  speechSegments : list SpeechSegment;
  totalSpeechTime : R;
  totalSilenceTime : R;
  speechRatio : R;
  isSpeaking : bool;
  speechProbability : R
}.

(** [SpeechRateMethod] is a union of string literals; values read from
    storage are cast to it unchecked, so it is a string here too. *)
Definition SpeechRateMethod : Type := string.

Module Thresholds.
Record t : Type := { min : R; ideal : R; max : R }.
End Thresholds.

Record MetricConfig : Type := {
  id : string;
  weight : R;
  thresholds : Thresholds.t;
  method : option SpeechRateMethod
}.

Definition DEFAULT_CONFIG : list MetricConfig :=
  [ {| id := "volume"; weight := 40;
       thresholds := {| Thresholds.min := -35; Thresholds.ideal := -15; Thresholds.max := 0 |};
       method := None |};
    {| id := "speechRate"; weight := 40;
       thresholds := {| Thresholds.min := 90; Thresholds.ideal := 150; Thresholds.max := 220 |};
       method := Some "spectral-flux"%string |};
    {| id := "acceleration"; weight := 5;
       thresholds := {| Thresholds.min := 0; Thresholds.ideal := 50; Thresholds.max := 100 |};
       method := None |};
    {| id := "responseTime"; weight := 5;
       thresholds := {| Thresholds.min := 2000; Thresholds.ideal := 200; Thresholds.max := 0 |};
       method := None |};
    {| id := "pauseManagement"; weight := 10;
       thresholds := {| Thresholds.min := 0; Thresholds.ideal := 0; Thresholds.max := 2.71 |};
       method := None |} ].

(** [DB_METRIC_MAP[name]]; a name outside the table gives nothing the code
    goes on with. *)
Definition DB_METRIC_MAP (name : string) : option string :=
  if String.eqb name "volume" then Some "volume"%string
  else if String.eqb name "speech_rate" then Some "speechRate"%string
  else if String.eqb name "end_intensity" then Some "acceleration"%string
  else if String.eqb name "latency" then Some "responseTime"%string
  else if String.eqb name "pauses" then Some "pauseManagement"%string
  else None.

Definition CACHE_MS : Z := 60000.

Definition getMetricConfig (config : list MetricConfig) (name : string)
  : option MetricConfig :=
  find (fun m => String.eqb (id m) name) config.

(** *** The local override *)

Module Local.
Record thresholds : Type := {
  min : option R;
  ideal : option R;
  max : option R
}.
Record metric : Type := {
  id : option string;
  weight : option R;
  enabled : option bool;
  thresholds_ : option thresholds;
  method : option string
}.
(** The text under the [metricConfig] key: none, one that does not parse to
    an array, or an array of entries. *)
Inductive item : Type :=
| Absent
| Malformed
| Entries (parsed : list metric).
End Local.

(** [a ?? b] *)
Definition orElse {A : Type} (a : option A) (b : A) : A :=
  match a with Some x => x | None => b end.

(** [m.id && m.enabled && Number(m.weight) > 0] *)
Definition localAccepted (m : Local.metric) : bool :=
  match nonEmpty (Local.id m), Local.enabled m, Local.weight m with
  | Some _, Some true, Some w => Rltb 0 w
  | _, _, _ => false
  end.

Definition localMapped (m : Local.metric) : MetricConfig :=
  let name := orElse (Local.id m) EmptyString in
  let fallback := find (fun d => String.eqb (id d) name) DEFAULT_CONFIG in
  let field (get : Local.thresholds -> option R) (dflt : Thresholds.t -> R) : R :=
    orElse (match Local.thresholds_ m with Some t => get t | None => None end)
           (orElse (option_map (fun d => dflt (thresholds d)) fallback) 0) in
  {| id := name;
     weight := orElse (Local.weight m) 0;
     thresholds :=
       {| Thresholds.min := field Local.min Thresholds.min;
          Thresholds.ideal := field Local.ideal Thresholds.ideal;
          Thresholds.max := field Local.max Thresholds.max |};
     method :=
       match Local.method m with
       | Some s => Some s
       | None => match fallback with Some d => method d | None => None end
       end |}.

Definition getConfigFromLocalStorage (raw : Local.item) : option (list MetricConfig) :=
  match raw with
  | Local.Absent | Local.Malformed => None
  | Local.Entries parsed =>
      let mapped := map localMapped (filter localAccepted parsed) in
      match mapped with
      | [] => None
      | _ => Some mapped
      end
  end.

(** *** The remote scoring configuration *)

(** A row of [scoring_config]: [weight] is declared NOT NULL, the two bounds
    may be null. *)
Record Row : Type := {
  metric_name : string;
  row_weight : R;
  min_value : option R;
  max_value : option R
}.

(** [base.set(id, m)] on a [Map] that already has the key: the entry keeps
    its place. *)
Fixpoint mapSet (base : list MetricConfig) (name : string) (m : MetricConfig)
  : list MetricConfig :=
  match base with
  | [] => [m]
  | b :: rest =>
      if String.eqb (id b) name then m :: rest else b :: mapSet rest name m
  end.

(** One turn of [for (const row of data)]. *)
Definition applyRow (base : list MetricConfig) (row : Row) : list MetricConfig :=
  match DB_METRIC_MAP (metric_name row) with
  | None => base
  | Some name =>
    match getMetricConfig base name with
    | None => base
    | Some prev =>
      mapSet base name
        {| id := id prev;
           weight := IZR (round (row_weight row * 100));
           thresholds :=
             {| Thresholds.min :=
                  orElse (min_value row) (Thresholds.min (thresholds prev));
                Thresholds.ideal :=
                  orElse (max_value row) (Thresholds.ideal (thresholds prev));
                Thresholds.max :=
                  if String.eqb name "pauseManagement"
                  then orElse (max_value row) (Thresholds.max (thresholds prev))
                  else Thresholds.max (thresholds prev) |};
           method := method prev |}
    end
  end.

(** [fetchConfigFromDB], given what the query answers: [None] for an error or
    a rejected request, else the rows. *)
Definition fetchConfigFromDB (answer : option (list Row)) : list MetricConfig :=
  match answer with
  | None | Some [] => DEFAULT_CONFIG
  | Some data => fold_left applyRow data DEFAULT_CONFIG
  end.

(** *** Module state and storage *)

(** Besides the calibration store and the clock: the two storage keys this
    module reads and its configuration cache. *)
Record Env : Type := {
  lufs : Lufs.World;
  metricConfigItem : Local.item;
  speechRateMethodItem : option string;
  cachedConfig : option (list MetricConfig);
  cachedAt : Z
}.

Definition AM (A : Type) : Type := Env -> A * Env.
Definition aret {A : Type} (a : A) : AM A := fun e => (a, e).
Definition abind {A B : Type} (m : AM A) (k : A -> AM B) : AM B :=
  fun e => let (a, e') := m e in k a e'.

Notation "x <<- m ;; k" := (abind m (fun x => k))
  (at level 61, m at next level, right associativity).

(** A step of [lufsNormalization.ts] run from this module. *)
Definition liftLufs {A : Type} (m : Lufs.M A) : AM A :=
  fun e =>
    let (a, w) := m (lufs e) in
    (a, {| lufs := w; metricConfigItem := metricConfigItem e;
           speechRateMethodItem := speechRateMethodItem e;
           cachedConfig := cachedConfig e; cachedAt := cachedAt e |}).

Definition setCache (config : list MetricConfig) (now : Z) : AM unit :=
  fun e =>
    (tt, {| lufs := lufs e; metricConfigItem := metricConfigItem e;
            speechRateMethodItem := speechRateMethodItem e;
            cachedConfig := Some config; cachedAt := now |}).

Definition getMetricConfigItem : AM Local.item :=
  fun e => (metricConfigItem e, e).

Definition getCache : AM (option (list MetricConfig) * Z) :=
  fun e => ((cachedConfig e, cachedAt e), e).

Definition getSpeechRateMethodItem : AM (option string) :=
  fun e => (speechRateMethodItem e, e).

(** [getConfigAsync], given what the scoring-config query would answer. *)
Definition getConfigAsync (answer : option (list Row)) : AM (list MetricConfig) :=
  raw <<- getMetricConfigItem ;;
  match getConfigFromLocalStorage raw with
  | Some local => aret local
  | None =>
      now <<- liftLufs dateNow ;;
      cache <<- getCache ;;
      let refresh :=
        let fetched := fetchConfigFromDB answer in
        _ <<- setCache fetched now ;; aret fetched in
      match fst cache with
      | Some cached =>
          if (CACHE_MS <? now - snd cache)%Z then refresh else aret cached
      | None => refresh
      end
  end.

Definition getSpeechRateMethod (config : list MetricConfig) : AM SpeechRateMethod :=
  localMethod <<- getSpeechRateMethodItem ;;
  match nonEmpty localMethod with
  | Some localMethod => aret localMethod
  | None =>
      aret (orElse (match getMetricConfig config "speechRate" with
                    | Some m => method m
                    | None => None
                    end) "spectral-flux"%string)
  end.

(** *** Score aggregation weights *)

Module Weights.
Record t : Type := {
  volume : R;
  speechRate : R;
  acceleration : R;
  responseTime : R;
  pauseManagement : R
}.
Definition total (w : t) : R :=
  volume w + speechRate w + acceleration w + responseTime w + pauseManagement w.
End Weights.

Definition rawWeights (config : list MetricConfig) : Weights.t :=
  let get (name : string) : R :=
    match getMetricConfig config name with Some m => weight m | None => 0 end in
  {| Weights.volume := get "volume"%string;
     Weights.speechRate := get "speechRate"%string;
     Weights.acceleration := get "acceleration"%string;
     Weights.responseTime := get "responseTime"%string;
     Weights.pauseManagement := get "pauseManagement"%string |}.

Definition normalizedWeights (config : list MetricConfig) : Weights.t :=
  let raw := rawWeights config in
  let total :=
    Rmax 1 (Weights.volume raw + Weights.speechRate raw + Weights.acceleration raw
            + Weights.responseTime raw + Weights.pauseManagement raw) in
  {| Weights.volume := Weights.volume raw / total;
     Weights.speechRate := Weights.speechRate raw / total;
     Weights.acceleration := Weights.acceleration raw / total;
     Weights.responseTime := Weights.responseTime raw / total;
     Weights.pauseManagement := Weights.pauseManagement raw / total |}.

(** *** Results *)

Module Volume.
Record t : Type := { averageDb : num; score : num; tag : string }.
End Volume.

Module SpeechRate.
Record t : Type := {
  wordsPerMinute : num;
  syllablesPerSecond : num;
  score : num;
  tag : string;
  method : SpeechRateMethod;
  transcript : option string
}.
End SpeechRate.

Module Acceleration.
Record t : Type := {
  score : num;
  segment1Volume : num;
  segment2Volume : num;
  segment1Rate : num;
  segment2Rate : num;
  isAccelerating : bool;
  tag : string
}.
End Acceleration.

Module ResponseTime.
Record t : Type := { responseTimeMs : num; score : num; tag : string }.
End ResponseTime.

Module Pauses.
Record t : Type := {
  pauseCount : nat;
  avgPauseDuration : num;
  maxPauseDuration : num;
  pauseRatio : num;
  score : num;
  tag : string
}.
End Pauses.

Module Metrics.
Record t : Type := {
  volume : num;
  speechRate : num;
  pauses : num;
  latency : num;
  endIntensity : num
}.
End Metrics.

Module Normalization.
Record t : Type := {
  originalLUFS : num;
  calibratedLUFS : num;
  finalLUFS : num;
  deviceGain : num;
  normalizationGain : num
}.
End Normalization.

Record AnalysisResult : Type := {
  volume : Volume.t;
  speechRate : SpeechRate.t;
  acceleration : Acceleration.t;
  responseTime : ResponseTime.t;
  pauseManagement : Pauses.t;
  pauses : Pauses.t;
  overallScore : num;
  emotionalFeedback : string;
  metrics : Metrics.t;
  normalization : option Normalization.t;
  feedback : list string
}.

(** [Math.round(x * 10) / 10] and [Math.round(x * 100) / 100] *)
Definition round1 (x : num) : num := (roundNum (x * Fin 10) / Fin 10)%num.
Definition round2 (x : num) : num := (roundNum (x * Fin 100) / Fin 100)%num.

(** [Math.round(Math.max(0, Math.min(100, score)))] *)
Definition clampScore (score : num) : num :=
  roundNum (max (Fin 0) (min (Fin 100) score)).

(** [Math.max(...values)] *)
Definition maxOf (values : list num) : num := fold_left max values NegInf.

(** *** Volume *)

Definition calculateSegmentDb (buffer : list R) : num :=
  match buffer with
  | [] => NegInf
  | _ =>
    let rms :=
      sqrt (Fin (fold_left (fun sum s => sum + s * s) buffer 0)
            / Fin (INR (length buffer))) in
    (Fin 20 * log10 (max rms (Fin 1e-10)))%num
  end.

Definition volumeFallback : Thresholds.t :=
  {| Thresholds.min := -35; Thresholds.ideal := -15; Thresholds.max := 0 |}.

Definition thresholdsOr (config : list MetricConfig) (name : string)
           (fallback : Thresholds.t) : Thresholds.t :=
  match getMetricConfig config name with
  | Some m => thresholds m
  | None => fallback
  end.

Definition analyzeVolume (audioBuffer : list R) (config : list MetricConfig)
           (deviceDbOffset : R) : Volume.t :=
  let t := thresholdsOr config "volume" volumeFallback in
  let tmin := Fin (Thresholds.min t) in
  let ideal := Fin (Thresholds.ideal t) in
  let tmax := Fin (Thresholds.max t) in
  let db := (calculateSegmentDb audioBuffer + Fin deviceDbOffset)%num in
  let score :=
    if (db >=? ideal)%num && (db <=? tmax)%num then
      let midpoint := ((ideal + tmax) / Fin 2)%num in
      if (db <=? midpoint)%num
      then (Fin 90 + ((db - ideal) / (midpoint - ideal)) * Fin 10)%num
      else (Fin 100 - ((db - midpoint) / (tmax - midpoint)) * Fin 10)%num
    else if (db >? tmax)%num then max (Fin 0) (Fin 90 - (db - tmax) * Fin 5)%num
    else if (db >=? tmin)%num then (((db - tmin) / (ideal - tmin)) * Fin 90)%num
    else Fin 0 in
  {| Volume.averageDb := round1 db;
     Volume.score := clampScore score;
     Volume.tag := "ENERGY" |}.

(** *** Syllable detectors *)

(** The indices a loop [for (i = from; continue(i); i += step)] visits in at
    most [fuel] turns. *)
Fixpoint visited (fuel : nat) (continue : Z -> bool) (step i : Z) : list Z :=
  match fuel with
  | O => []
  | S fuel' => if continue i then i :: visited fuel' continue step (i + step) else []
  end.

(** The peak loop of both detectors: [i] from 1 to [length - 2] counts when
    the value is above the threshold and above both neighbours and more than
    [gap] frames after the last peak. *)
Definition countPeaks (values : list num) (threshold : num) (last0 gap : Z) : nat :=
  let at_ (i : nat) : num := nth i values NaN in
  fst (fold_left
         (fun (state : nat * Z) (i : nat) =>
            let (peaks, last) := state in
            if (at_ i >? threshold)%num && (at_ i >? at_ (i - 1)%nat)%num
               && (at_ i >? at_ (S i))%num && (gap <? Z.of_nat i - last)%Z
            then (S peaks, Z.of_nat i)
            else (peaks, last))
         (seq 1 (length values - 2)) (O, last0)).

Definition detectSyllablesEnergy (audioBuffer : list R) (sampleRate : R) : nat :=
  let frame := floor (sampleRate * 0.02) in
  let hop := Z.max 1 (floor (IZR frame / 2)) in
  let len := Z.of_nat (length audioBuffer) in
  let energies :=
    map (fun i => (Fin (sumSquares audioBuffer i frame) / Fin (IZR frame))%num)
        (visited (Z.to_nat (len - frame)) (fun i => (i <? len - frame)%Z) hop 0) in
  match energies with
  | [] => O
  | _ =>
    let threshold := (maxOf energies * Fin 0.15)%num in
    countPeaks energies threshold (-10) 3
  end.

(** [sort((a, b) => a - b)] *)
Fixpoint insertAscending (x : R) (sorted : list R) : list R :=
  match sorted with
  | [] => [x]
  | y :: rest => if Rleb x y then x :: sorted else y :: insertAscending x rest
  end.

Definition sortAscending (values : list R) : list R :=
  fold_right insertAscending [] values.

(** Magnitude of bin [k] of the frame of [frameSize] samples at [i]. *)
Definition binMagnitude (audioBuffer : list R) (i frameSize : Z) (k : nat) : R :=
  let w := 2 * PI * INR k / IZR frameSize in
  let samples := firstn (Z.to_nat frameSize) (skipn (Z.to_nat i) audioBuffer) in
  let indexed := combine (seq 0 (length samples)) samples in
  let real := fold_left (fun acc ns => acc + snd ns * cos (w * INR (fst ns))) indexed 0 in
  let imag := fold_left (fun acc ns => acc - snd ns * sin (w * INR (fst ns))) indexed 0 in
  R_sqrt.sqrt (real * real + imag * imag).

(** [f += d] for every bin whose magnitude rose by [d > 0]. *)
Definition positiveRise (spec prev : list R) : R :=
  fold_left (fun f sp => let d := fst sp - snd sp in if Rltb 0 d then f + d else f)
            (combine spec prev) 0.

Fixpoint fluxLoop (audioBuffer : list R) (frameSize : Z) (bins : nat)
         (starts : list Z) (prev : list R) : list R :=
  match starts with
  | [] => []
  | i :: rest =>
      let spec := map (binMagnitude audioBuffer i frameSize) (seq 0 bins) in
      positiveRise spec prev :: fluxLoop audioBuffer frameSize bins rest spec
  end.

Definition detectSyllablesSpectralFlux (audioBuffer : list R) (sampleRate : R) : nat :=
  let frameSize := floor (sampleRate * 0.02) in
  let hop := Z.max 1 (floor (IZR frameSize / 2)) in
  let bins := 128%nat in
  let len := Z.of_nat (length audioBuffer) in
  let flux :=
    fluxLoop audioBuffer frameSize bins
             (visited (Z.to_nat (len - frameSize + 1))
                      (fun i => (i <=? len - frameSize)%Z) hop 0)
             (repeat 0 bins) in
  match flux with
  | [] => O
  | _ =>
    let sorted := sortAscending flux in
    let median := nth (length sorted / 2) sorted 0 in
    let upper := nth (Z.to_nat (floor (INR (length sorted) * 0.75))) sorted 0 in
    let threshold :=
      Rmax (median * 1.5) ((if Reqb upper 0 then median else upper) * 0.5) in
    Nat.max 1 (countPeaks (map Fin flux) (Fin threshold) (-5) 4)
  end.

(** *** Transcription *)

Module Transcription.
Record reply : Type := {
  words : option nat;          (* the length of [words] when it is an array *)
  transcript : option string;
  wordsPerMinute : option R;
  duration : option R
}.
(** What an [invoke] comes back with: data, an error or no data, or a
    rejected call. *)
Inductive outcome : Type :=
| Replied (data : reply)
| Refused
| Rejected.
End Transcription.

(** The answers of the remote collaborators to the calls of one analysis. *)
Record Collaborators : Type := {
  scoringConfig : option (list Row);
  transcribe : Transcription.outcome;
  deepgramTranscribe : Transcription.outcome
}.

(** [transcribeWordCount]; [None] when it throws. *)
Definition transcribeWordCount (c : Collaborators) : option (R * string) :=
  match transcribe c with
  | Transcription.Replied data =>
      Some (INR (orElse (Transcription.words data) O),
            orElse (Transcription.transcript data) EmptyString)
  | Transcription.Rejected => None
  | Transcription.Refused =>
    match deepgramTranscribe c with
    | Transcription.Replied data =>
        let counted := INR (orElse (Transcription.words data) O) in
        let wc :=
          match Transcription.wordsPerMinute data, Transcription.duration data with
          | Some wpm, Some seconds =>
              if Rltb 0 wpm && Rltb 0 seconds
              then IZR (round (wpm * seconds / 60))
              else counted
          | _, _ => counted
          end in
        Some (wc, orElse (Transcription.transcript data) EmptyString)
    | _ => None
    end
  end.

(** *** Speech rate *)

Definition speechRateFallback : Thresholds.t :=
  {| Thresholds.min := 90; Thresholds.ideal := 150; Thresholds.max := 220 |}.

Definition scoreSpeechRate (wpm : num) (config : list MetricConfig) : num :=
  let t := thresholdsOr config "speechRate" speechRateFallback in
  let tmin := Fin (Thresholds.min t) in
  let ideal := Fin (Thresholds.ideal t) in
  if (wpm <=? Fin 0)%num then Fin 0
  else if (wpm <? tmin)%num then Fin 0
  else if (wpm <? ideal)%num then (((wpm - tmin) / (ideal - tmin)) * Fin 100)%num
  else Fin 100.

Definition analyzeSpeechRate
           (audioBuffer : list R) (sampleRate : R) (config : list MetricConfig)
           (durationSeconds : num) (method : SpeechRateMethod)
           (audioBlob : bool) (sttWordCount : option R) (c : Collaborators)
  : SpeechRate.t :=
  let counted : bool :=
    match sttWordCount with Some n => negb (Reqb n 0) | None => false end in
  let '(fromWords, transcript, usedMethod) :=
    if String.eqb method "deepgram-stt" && (audioBlob || counted) then
      let attempt : option (option (R * string)) :=
        match audioBlob, sttWordCount with
        | true, None => option_map Some (transcribeWordCount c)
        | _, _ => Some None
        end in
      match attempt with
      | None => (Fin 0, None, "spectral-flux"%string)
      | Some dgResult =>
          let wordCount :=
            orElse sttWordCount
                   (match dgResult with Some r => fst r | None => 0 end) in
          (if (durationSeconds >? Fin 0)%num
           then roundNum ((Fin wordCount / durationSeconds) * Fin 60)%num
           else Fin 0,
           option_map snd dgResult, method)
      end
    else (Fin 0, None, method) in
  let wordsPerMinute :=
    if truthy fromWords then fromWords
    else
      let syllables :=
        if String.eqb usedMethod "spectral-flux"
        then detectSyllablesSpectralFlux audioBuffer sampleRate
        else detectSyllablesEnergy audioBuffer sampleRate in
      let syllablesPerSecond :=
        if (durationSeconds >? Fin 0)%num
        then (Fin (INR syllables) / durationSeconds)%num
        else Fin 0 in
      roundNum ((syllablesPerSecond * Fin 60) / Fin 1.5)%num in
  let syllablesPerSecond := ((wordsPerMinute / Fin 60) * Fin 1.5)%num in
  let score := scoreSpeechRate wordsPerMinute config in
  {| SpeechRate.wordsPerMinute := wordsPerMinute;
     SpeechRate.syllablesPerSecond := round1 syllablesPerSecond;
     SpeechRate.score := clampScore score;
     SpeechRate.tag := "FLUENCY";
     SpeechRate.method := usedMethod;
     SpeechRate.transcript := transcript |}.

(** *** Acceleration *)

Definition analyzeAcceleration
           (audioBuffer : list R) (sampleRate : R) (config : list MetricConfig)
  : Acceleration.t :=
  let midpoint := (length audioBuffer / 2)%nat in
  let seg1 := slice audioBuffer 0 (Z.of_nat midpoint) in
  let seg2 := skipn (sliceIndex audioBuffer (Z.of_nat midpoint)) audioBuffer in
  let vol1 := calculateSegmentDb seg1 in
  let vol2 := calculateSegmentDb seg2 in
  let dur1 := (Fin (INR (length seg1)) / Fin sampleRate)%num in
  let dur2 := (Fin (INR (length seg2)) / Fin sampleRate)%num in
  let rateOf (seg : list R) (dur : num) : num :=
    roundNum (((Fin (INR (detectSyllablesSpectralFlux seg sampleRate))
                / max dur (Fin 0.1)) / Fin 1.5) * Fin 60)%num in
  let rate1 := rateOf seg1 dur1 in
  let rate2 := rateOf seg2 dur2 in
  let volumeIncrease := (vol2 - vol1)%num in
  let rateIncrease := (rate2 - rate1)%num in
  let isAccelerating :=
    (volumeIncrease >? Fin 0)%num || (rateIncrease >? Fin 5)%num in
  let score :=
    roundNum
      (max (Fin 0)
           (min (Fin 100)
                (Fin 50 + max (Fin 0)
                              (volumeIncrease * Fin 2 + rateIncrease * Fin 0.5))%num)) in
  {| Acceleration.score := score;
     Acceleration.segment1Volume := round1 vol1;
     Acceleration.segment2Volume := round1 vol2;
     Acceleration.segment1Rate := rate1;
     Acceleration.segment2Rate := rate2;
     Acceleration.isAccelerating := isAccelerating;
     Acceleration.tag := "DYNAMICS" |}.

(** *** Response time *)

Definition calculateAdaptiveNoiseFloor (audioBuffer : list R) (sampleRate : R) : R :=
  let frameSamples := floor (sampleRate * 0.1) in
  let segment :=
    slice audioBuffer 0 (Z.min frameSamples (Z.of_nat (length audioBuffer))) in
  match segment with
  | [] => 0.01
  | _ =>
    let sum := fold_left (fun sum s => sum + s * s) segment 0 in
    let rms := R_sqrt.sqrt (sum / INR (length segment)) in
    Rmax 0.005 (rms * 3)
  end.

(** The index of the first sample above the floor, 0 when there is none. *)
Fixpoint firstAbove (noiseFloor : R) (samples : list R) (i : nat) : nat :=
  match samples with
  | [] => O
  | s :: rest =>
      if Rltb noiseFloor (Rabs s) then i else firstAbove noiseFloor rest (S i)
  end.

Definition responseTimeFallback : Thresholds.t :=
  {| Thresholds.min := 2000; Thresholds.ideal := 200; Thresholds.max := 0 |}.

Definition analyzeResponseTime
           (audioBuffer : list R) (sampleRate : R) (config : list MetricConfig)
  : ResponseTime.t :=
  let t := thresholdsOr config "responseTime" responseTimeFallback in
  let tmin := Fin (Thresholds.min t) in
  let ideal := Fin (Thresholds.ideal t) in
  let noiseFloor := calculateAdaptiveNoiseFloor audioBuffer sampleRate in
  let first := firstAbove noiseFloor audioBuffer O in
  let responseTimeMs :=
    roundNum ((Fin (INR first) / Fin sampleRate) * Fin 1000)%num in
  let score :=
    if (responseTimeMs <=? ideal)%num then Fin 100
    else if (responseTimeMs <=? tmin)%num
    then (Fin 100 - ((responseTimeMs - ideal) / (tmin - ideal)) * Fin 50)%num
    else max (Fin 0)
             (Fin 50 * (Fin 1 - (responseTimeMs - tmin) / Fin 3000))%num in
  {| ResponseTime.responseTimeMs := responseTimeMs;
     ResponseTime.score := clampScore score;
     ResponseTime.tag := "READINESS" |}.

(** *** Pauses *)

Definition pauseFallback : Thresholds.t :=
  {| Thresholds.min := 0; Thresholds.ideal := 0; Thresholds.max := 2.71 |}.

(** [sort((a, b) => a.start - b.start)]; the sort is stable. *)
Fixpoint insertByStart (x : SpeechSegment) (sorted : list SpeechSegment)
  : list SpeechSegment :=
  match sorted with
  | [] => [x]
  | y :: rest =>
      if Rleb (start x) (start y) then x :: sorted else y :: insertByStart x rest
  end.

Definition sortByStart (segments : list SpeechSegment) : list SpeechSegment :=
  fold_right insertByStart [] segments.

(** The gaps before each segment, and the cursor after the last one. *)
Definition gapsBetween (sorted : list SpeechSegment) : list R * R :=
  fold_left
    (fun (state : list R * R) (seg : SpeechSegment) =>
       let (pausesMs, cursor) := state in
       (if Rltb cursor (start seg) then pausesMs ++ [start seg - cursor] else pausesMs,
        Rmax cursor (stop seg)))
    sorted ([], 0).

Record SilenceScan : Type := {
  silentFrames : nat;
  totalFrames : nat;
  currentSilent : R;
  pausesSec : list R
}.

(** One turn of the 50 ms frame loop. *)
Definition scanFrame (audioBuffer : list R) (sampleRate : R) (frame : Z)
           (s : SilenceScan) (i : Z) : SilenceScan :=
  let samples := firstn (Z.to_nat frame) (skipn (Z.to_nat i) audioBuffer) in
  let energy := fold_left (fun e x => e + Rabs x) samples 0 / IZR frame in
  if Rltb energy 0.01 then
    {| silentFrames := S (silentFrames s); totalFrames := S (totalFrames s);
       currentSilent := currentSilent s + IZR frame / sampleRate;
       pausesSec := pausesSec s |}
  else
    {| silentFrames := silentFrames s; totalFrames := S (totalFrames s);
       currentSilent := 0;
       pausesSec := if Rleb 0.15 (currentSilent s)
                    then pausesSec s ++ [currentSilent s] else pausesSec s |}.

(** The measurements of either branch: ratio, count, longest and average
    pause in seconds. *)
Definition pauseMeasures : Type := (R * nat * num * num)%type.

Definition pausesFromSegments (audioBuffer : list R) (sampleRate : R)
           (vad : VADMetrics) : pauseMeasures :=
  let pauseRatio := 1 - Rmax 0 (Rmin 1 (speechRatio vad)) in
  let sorted := sortByStart (speechSegments vad) in
  let (gaps, cursor) := gapsBetween sorted in
  let totalMs := ((Fin (INR (length audioBuffer)) / Fin sampleRate) * Fin 1000)%num in
  let pausesMs :=
    if (Fin cursor <? totalMs)%num
    then map Fin gaps ++ [(totalMs - Fin cursor)%num]
    else map Fin gaps in
  let significant := filter (fun p => (p >=? Fin 150)%num) pausesMs in
  match significant with
  | [] => (pauseRatio, O, Fin 0, Fin 0)
  | _ =>
    (pauseRatio, length significant,
     (maxOf significant / Fin 1000)%num,
     ((sumNum significant / Fin (INR (length significant))) / Fin 1000)%num)
  end.

(** The frame loop steps by [frame]: with [frame <= 0] and a turn to take it
    never ends, which is [None]. *)
Definition pausesFromEnergy (audioBuffer : list R) (sampleRate : R)
  : option pauseMeasures :=
  let frame := floor (sampleRate * 0.05) in
  let len := Z.of_nat (length audioBuffer) in
  if (frame <=? 0)%Z && (0 <? len - frame)%Z then None
  else
    let starts :=
      visited (length audioBuffer) (fun i => (i <? len - frame)%Z) frame 0 in
    let scanned :=
      fold_left (scanFrame audioBuffer sampleRate frame) starts
                {| silentFrames := O; totalFrames := O; currentSilent := 0;
                   pausesSec := [] |} in
    let pauses :=
      if Rleb 0.15 (currentSilent scanned)
      then pausesSec scanned ++ [currentSilent scanned]
      else pausesSec scanned in
    let pauseRatio :=
      INR (silentFrames scanned) / INR (Nat.max 1 (totalFrames scanned)) in
    match pauses with
    | [] => Some (pauseRatio, O, Fin 0, Fin 0)
    | _ =>
      Some (pauseRatio, length pauses,
            maxOf (map Fin pauses),
            Fin (sumR pauses / INR (length pauses)))
    end.

Definition analyzePauses
           (audioBuffer : list R) (sampleRate : R) (config : list MetricConfig)
           (vadMetrics : option VADMetrics) : option Pauses.t :=
  let t := thresholdsOr config "pauseManagement" pauseFallback in
  let measured :=
    match vadMetrics with
    | Some vad =>
        match speechSegments vad with
        | [] => pausesFromEnergy audioBuffer sampleRate
        | _ => Some (pausesFromSegments audioBuffer sampleRate vad)
        end
    | None => pausesFromEnergy audioBuffer sampleRate
    end in
  match measured with
  | None => None
  | Some (pauseRatio, pauseCount, maxPause, avgPause) =>
    let score :=
      if Rltb 0.1 pauseRatio
      then max (Fin 0)
               (Fin 100 - (Fin (pauseRatio - 0.1) / Fin (Thresholds.max t)) * Fin 100)%num
      else Fin 100 in
    Some {| Pauses.pauseCount := pauseCount;
            Pauses.avgPauseDuration := round2 avgPause;
            Pauses.maxPauseDuration := round2 maxPause;
            Pauses.pauseRatio := round2 (Fin pauseRatio);
            Pauses.score := clampScore score;
            Pauses.tag := "FLUIDITY" |}
  end.

(** *** Aggregation *)

Definition buildFeedback
           (volume : Volume.t) (speechRate : SpeechRate.t)
           (acceleration : Acceleration.t) (responseTime : ResponseTime.t)
           (pauses : Pauses.t) (overallScore : num) : list string :=
  let feedback :=
    (if (Volume.score volume <? Fin 60)%num
     then ["Speak louder and keep your voice energy more stable."%string] else [])
    ++ (if (SpeechRate.score speechRate <? Fin 60)%num
        then (if (SpeechRate.wordsPerMinute speechRate <? Fin 100)%num
              then ["Try speaking a bit faster for more natural fluency."%string]
              else ["Slow down slightly to improve clarity."%string])
        else [])
    ++ (if (ResponseTime.score responseTime <? Fin 60)%num
        then ["Start speaking sooner after the prompt."%string] else [])
    ++ (if (Pauses.score pauses <? Fin 60)%num
        then ["Reduce long pauses to keep smoother flow."%string] else [])
    ++ (if (Acceleration.score acceleration <? Fin 60)%num
        then ["Build momentum from start to finish."%string] else []) in
  match feedback with
  | [] =>
      [if (overallScore >=? Fin 90)%num
       then "Excellent work. Strong delivery and control."%string
       else "Great job. Keep this rhythm and consistency."%string]
  | _ => feedback
  end.

Module Audio.
(** The optional third argument of [analyzeAudioAsync]; [audioBlob] tells
    whether a blob came with it. *)
Record t : Type := {
  audioBlob : bool;
  deviceId : option string;
  vadMetrics : option VADMetrics;
  sttWordCount : option R
}.
End Audio.

(** The result returned when the voice activity shows no speech. *)
Definition noSpeechResult (method : SpeechRateMethod) : AnalysisResult :=
  let zeroPauses :=
    {| Pauses.pauseCount := 0; Pauses.avgPauseDuration := Fin 0;
       Pauses.maxPauseDuration := Fin 0; Pauses.pauseRatio := Fin 1;
       Pauses.score := Fin 0; Pauses.tag := "FLUIDITY" |} in
  {| volume := {| Volume.averageDb := NegInf; Volume.score := Fin 0;
                  Volume.tag := "ENERGY" |};
     speechRate := {| SpeechRate.wordsPerMinute := Fin 0;
                      SpeechRate.syllablesPerSecond := Fin 0;
                      SpeechRate.score := Fin 0; SpeechRate.tag := "FLUENCY";
                      SpeechRate.method := method;
                      SpeechRate.transcript := None |};
     acceleration := {| Acceleration.score := Fin 0;
                        Acceleration.segment1Volume := Fin 0;
                        Acceleration.segment2Volume := Fin 0;
                        Acceleration.segment1Rate := Fin 0;
                        Acceleration.segment2Rate := Fin 0;
                        Acceleration.isAccelerating := false;
                        Acceleration.tag := "DYNAMICS" |};
     responseTime := {| ResponseTime.responseTimeMs := Fin 0;
                        ResponseTime.score := Fin 0;
                        ResponseTime.tag := "READINESS" |};
     pauseManagement := zeroPauses;
     pauses := zeroPauses;
     overallScore := Fin 0;
     emotionalFeedback := "poor";
     metrics := {| Metrics.volume := Fin 0; Metrics.speechRate := Fin 0;
                   Metrics.pauses := Fin 0; Metrics.latency := Fin 0;
                   Metrics.endIntensity := Fin 0 |};
     normalization := None;
     feedback := ["No speech detected. Please try again and speak clearly."%string] |}.

(** The [if (audio?.deviceId)] block: the processed buffer, the diagnostics
    and the device offset. *)
Definition calibrated (audioBuffer : list R) (sampleRate : R) (id : string)
  : AM (list R * option Normalization.t * R) :=
  normalized <<- liftLufs (calibrateAndNormalize audioBuffer sampleRate (Some id)
                                                  TARGET_LUFS) ;;
  let normalization :=
    {| Normalization.originalLUFS := round1 (Calibrated.originalLUFS normalized);
       Normalization.calibratedLUFS := round1 (Calibrated.calibratedLUFS normalized);
       Normalization.finalLUFS := round1 (Calibrated.finalLUFS normalized);
       Normalization.deviceGain := round2 (Fin (Calibrated.deviceGain normalized));
       Normalization.normalizationGain :=
         round2 (Fin (Calibrated.normalizationGain normalized)) |} in
  profile <<- liftLufs (getCalibrationProfile id) ;;
  let deviceOffset :=
    match profile with
    | Some p => TARGET_LUFS - referenceLevel p
    | None => 0
    end in
  aret (Calibrated.normalized normalized, Some normalization, deviceOffset).

(** [analyzeAudioAsync], given the collaborators' answers; [None] when the
    call does not return. *)
Definition analyzeAudioAsync
           (audioBuffer : list R) (sampleRate : R) (audio : option Audio.t)
           (c : Collaborators) : AM (option AnalysisResult) :=
  config <<- getConfigAsync (scoringConfig c) ;;
  method <<- getSpeechRateMethod config ;;
  let vad := match audio with Some a => Audio.vadMetrics a | None => None end in
  let hasSpeech :=
    match vad with
    | Some v => Rltb 0.02 (speechRatio v) && Rltb 200 (totalSpeechTime v)
    | None => true
    end in
  if negb hasSpeech then aret (Some (noSpeechResult method))
  else
    prepared <<-
      match nonEmpty (match audio with Some a => Audio.deviceId a | None => None end)
      with
      | Some id => calibrated audioBuffer sampleRate id
      | None => aret (audioBuffer, None, 0)
      end ;;
    let '(processed, normalization, deviceOffset) :=
      (prepared : list R * option Normalization.t * R) in
    let volume := analyzeVolume audioBuffer config deviceOffset in
    let durationTotal := (Fin (INR (length processed)) / Fin sampleRate)%num in
    let durationSeconds :=
      match vad with
      | Some v =>
          max (Fin 0.1)
              (durationTotal
               - (durationTotal - Fin (totalSpeechTime v) / Fin 1000) / Fin 2)%num
      | None => max (Fin 0.1) durationTotal
      end in
    let speechRate :=
      analyzeSpeechRate processed sampleRate config durationSeconds method
        (match audio with Some a => Audio.audioBlob a | None => false end)
        (match audio with Some a => Audio.sttWordCount a | None => None end) c in
    let acceleration := analyzeAcceleration processed sampleRate config in
    let responseTime := analyzeResponseTime processed sampleRate config in
    match analyzePauses processed sampleRate config vad with
    | None => aret None
    | Some pauseManagement =>
      let weights := normalizedWeights config in
      let overallScore :=
        roundNum
          (Volume.score volume * Fin (Weights.volume weights)
           + SpeechRate.score speechRate * Fin (Weights.speechRate weights)
           + Acceleration.score acceleration * Fin (Weights.acceleration weights)
           + ResponseTime.score responseTime * Fin (Weights.responseTime weights)
           + Pauses.score pauseManagement * Fin (Weights.pauseManagement weights))%num in
      let emotionalFeedback :=
        if (overallScore >=? Fin 70)%num then "excellent"%string
        else if (overallScore >=? Fin 40)%num then "good"%string
        else "poor"%string in
      let feedback :=
        buildFeedback volume speechRate acceleration responseTime pauseManagement
                      overallScore in
      aret (Some
        {| volume := volume;
           speechRate := speechRate;
           acceleration := acceleration;
           responseTime := responseTime;
           pauseManagement := pauseManagement;
           pauses := pauseManagement;
           overallScore := overallScore;
           emotionalFeedback := emotionalFeedback;
           metrics :=
             {| Metrics.volume := Volume.score volume;
                Metrics.speechRate := SpeechRate.score speechRate;
                Metrics.pauses := Pauses.score pauseManagement;
                Metrics.latency := ResponseTime.score responseTime;
                Metrics.endIntensity := Acceleration.score acceleration |};
           normalization := normalization;
           feedback := feedback |})
    end.

(** [analyzeAudio]: the synchronous analysis, without calibration, remote
    configuration or speech-rate estimate. *)
Definition analyzeAudio (audioBuffer : list R) (sampleRate : R)
  : AM (option AnalysisResult) :=
  raw <<- getMetricConfigItem ;;
  let config := orElse (getConfigFromLocalStorage raw) DEFAULT_CONFIG in
  let volume := analyzeVolume audioBuffer config 0 in
  let speechRate :=
    {| SpeechRate.wordsPerMinute := Fin 0;
       SpeechRate.syllablesPerSecond := Fin 0;
       SpeechRate.score := Fin 0;
       SpeechRate.tag := "FLUENCY";
       SpeechRate.method := "energy-peaks"%string;
       SpeechRate.transcript := None |} in
  let acceleration := analyzeAcceleration audioBuffer sampleRate config in
  let responseTime := analyzeResponseTime audioBuffer sampleRate config in
  match analyzePauses audioBuffer sampleRate config None with
  | None => aret None
  | Some pauseManagement =>
    let weights := normalizedWeights config in
    let overallScore :=
      roundNum
        (Volume.score volume * Fin (Weights.volume weights)
         + SpeechRate.score speechRate * Fin (Weights.speechRate weights)
         + Acceleration.score acceleration * Fin (Weights.acceleration weights)
         + ResponseTime.score responseTime * Fin (Weights.responseTime weights)
         + Pauses.score pauseManagement * Fin (Weights.pauseManagement weights))%num in
    aret (Some
      {| volume := volume;
         speechRate := speechRate;
         acceleration := acceleration;
         responseTime := responseTime;
         pauseManagement := pauseManagement;
         pauses := pauseManagement;
         overallScore := overallScore;
         emotionalFeedback :=
           if (overallScore >=? Fin 70)%num then "excellent"%string
           else if (overallScore >=? Fin 40)%num then "good"%string
           else "poor"%string;
         metrics :=
           {| Metrics.volume := Volume.score volume;
              Metrics.speechRate := SpeechRate.score speechRate;
              Metrics.pauses := Pauses.score pauseManagement;
              Metrics.latency := ResponseTime.score responseTime;
              Metrics.endIntensity := Acceleration.score acceleration |};
         normalization := None;
         feedback :=
           buildFeedback volume speechRate acceleration responseTime
                         pauseManagement overallScore |})
  end.

End Analysis.

(* ================================================================= *)
(** ** Vocabulary of the properties

    What the statements below speak about: the stored list and the history of
    a device, the relation between a list and the same list with a device
    erased, the entries a run of [trackRecording] calls writes, and the
    configuration and buffers an analysis call goes on with. *)

Module Terms.
Import JsNum Lufs Analysis.

(** *** Loudness *)

(** A block's mean square is a finite number, or [NaN] for an empty block. *)
Definition plainBlock (b : num) : Prop := b = NaN \/ exists x, b = Fin x.

Definition inRange (s : R) : Prop := -1 <= s <= 1.

(** *** Calibration store *)

Definition profilesOf (w : World) : list CalibrationProfile :=
  match profilesItem w with Some profiles => profiles | None => [] end.

Definition lookup (id : string) (profiles : list CalibrationProfile)
  : option CalibrationProfile :=
  find (fun p => String.eqb (deviceId p) id) profiles.

Definition historyOfProfile (p : CalibrationProfile) : list RecordingStats :=
  match recordingHistory p with Some h => h | None => [] end.

(** The history of the profile a lookup of [id] finds; empty without one. *)
Definition historyOf (w : World) (id : string) : list RecordingStats :=
  match lookup id (profilesOf w) with
  | Some p => historyOfProfile p
  | None => []
  end.

(** [saveCalibrationProfile] replaces the first profile of the same device,
    or appends. *)
Fixpoint upsert (profile : CalibrationProfile) (profiles : list CalibrationProfile)
  : list CalibrationProfile :=
  match profiles with
  | [] => [profile]
  | p :: rest =>
      if String.eqb (deviceId p) (deviceId profile) then profile :: rest
      else p :: upsert profile rest
  end.

(** [Erased id before after]: [after] is [before] with the profiles of
    device [id] taken out and every other profile left as and where it was. *)
Inductive Erased (id : string)
  : list CalibrationProfile -> list CalibrationProfile -> Prop :=
| Erased_nil : Erased id [] []
| Erased_drop p before after :
    deviceId p = id -> Erased id before after -> Erased id (p :: before) after
| Erased_keep p before after :
    deviceId p <> id -> Erased id before after ->
    Erased id (p :: before) (p :: after).

(** Tracking a list of measurements, one [trackRecording] each. *)
Fixpoint trackAll (id : string) (recordings : list Measured.t) : M unit :=
  match recordings with
  | [] => ret tt
  | stats :: rest => trackRecording id stats ;; trackAll id rest
  end.

(** The entries those calls write when the profile exists: each call reads
    the clock twice, once for [lastUsed] and once for the time stamp. *)
Fixpoint stampedFrom (clock : nat -> Z) (reads : nat) (recordings : list Measured.t)
  : list RecordingStats :=
  match recordings with
  | [] => []
  | stats :: rest =>
      stamped stats (clock (S reads)) :: stampedFrom clock (S (S reads)) rest
  end.

(** The history [trackRecording] writes back: the old one with the new entry
    pushed, cut to its last entries when longer than the bound. *)
Definition pushed (history : list RecordingStats) (entry : RecordingStats)
  : list RecordingStats :=
  let history := history ++ [entry] in
  if (MAX_RECORDING_HISTORY <? length history)%nat
  then lastN MAX_RECORDING_HISTORY history
  else history.



(** *** Configuration and pipeline *)

(** The entry a row writes over [prev]. *)
Definition rowEntry (name : string) (row : Row) (prev : MetricConfig) : MetricConfig :=
  {| id := name;
     weight := IZR (round (100 * row_weight row));
     thresholds :=
       {| Thresholds.min := orElse (min_value row) (Thresholds.min (thresholds prev));
          Thresholds.ideal := orElse (max_value row) (Thresholds.ideal (thresholds prev));
          Thresholds.max :=
            if String.eqb name "pauseManagement"
            then orElse (max_value row) (Thresholds.max (thresholds prev))
            else Thresholds.max (thresholds prev) |};
     method := method prev |}.

(** Every weight of the configuration is a whole number, none negative: the
    internal 0-100 scale. *)
Definition integerWeights (config : list MetricConfig) : Prop :=
  Forall (fun m => exists z, (0 <= z)%Z /\ weight m = IZR z) config.

Definition vadOf (audio : option Audio.t) : option VADMetrics :=
  match audio with Some a => Audio.vadMetrics a | None => None end.

Definition deviceOf (audio : option Audio.t) : option string :=
  nonEmpty (match audio with Some a => Audio.deviceId a | None => None end).

(** The test that lets the analysis run. *)
Definition hasSpeech (audio : option Audio.t) : bool :=
  match vadOf audio with
  | Some v => Rltb 0.02 (speechRatio v) && Rltb 200 (totalSpeechTime v)
  | None => true
  end.

(** Configuration, method and environment once the first two steps of
    [analyzeAudioAsync] have run. *)
Definition resolved (c : Collaborators) (e : Env)
  : list MetricConfig * SpeechRateMethod * Env :=
  let (config, e1) := getConfigAsync (scoringConfig c) e in
  let (method, e2) := getSpeechRateMethod config e1 in
  (config, method, e2).

(** The processed buffer, the diagnostics and the device offset the analysis
    goes on with. *)
Definition prepared (audioBuffer : list R) (sampleRate : R)
           (audio : option Audio.t) (c : Collaborators) (e : Env)
  : list R * option Normalization.t * R :=
  let '(_, _, e2) := resolved c e in
  match deviceOf audio with
  | Some id => fst (calibrated audioBuffer sampleRate id e2)
  | None => (audioBuffer, None, 0)
  end.

Definition durationOf (processed : list R) (sampleRate : R)
           (audio : option Audio.t) : num :=
  let durationTotal := (Fin (INR (length processed)) / Fin sampleRate)%num in
  match vadOf audio with
  | Some v =>
      max (Fin 0.1)
          (durationTotal
           - (durationTotal - Fin (totalSpeechTime v) / Fin 1000) / Fin 2)%num
  | None => max (Fin 0.1) durationTotal
  end.

(** The device ids of the stored profiles, in storage order. *)
Definition deviceIds (w : World) : list string := map deviceId (profilesOf w).


(** The buffer [calibrateAndNormalize] hands to the normaliser for a stored
    profile: the input itself when the profile's gain is exactly 1, else the
    input times the gain, clipped. *)
Definition calibratedBuffer (p : CalibrationProfile) (audioBuffer : list R) : list R :=
  if Reqb (gainAdjustment p) 1 then audioBuffer
  else map (fun s => clip s (gainAdjustment p)) audioBuffer.

(** The measurement [calibrateAndNormalize] tracks for a processed buffer. *)
Definition measurement (audioBuffer processed : list R) (sampleRate targetLUFS : R)
  : Measured.t :=
  {| Measured.originalLUFS := calculateLUFS audioBuffer sampleRate;
     Measured.calibratedLUFS := calculateLUFS processed sampleRate;
     Measured.finalLUFS :=
       calculateLUFS (normalized (normalizeToLUFS processed sampleRate targetLUFS))
                     sampleRate;
     Measured.noiseFloor := calculateNoiseFloor audioBuffer sampleRate |}.

(** What [calibrateAndNormalize] returns for a processed buffer and gain. *)
Definition outcome (audioBuffer processed : list R) (sampleRate targetLUFS gain : R)
  : Calibrated.t :=
  let result := normalizeToLUFS processed sampleRate targetLUFS in
  {| Calibrated.normalized := normalized result;
     Calibrated.originalLUFS := calculateLUFS audioBuffer sampleRate;
     Calibrated.calibratedLUFS := calculateLUFS processed sampleRate;
     Calibrated.finalLUFS := calculateLUFS (normalized result) sampleRate;
     Calibrated.deviceGain := gain;
     Calibrated.normalizationGain := gainLinear result |}.

(** What no row of [scoring_config] changes of an entry: its id, its method
    and, unless it is the pause metric, its [max] threshold. *)
Definition fixedPart (m : MetricConfig) : string * option SpeechRateMethod * option R :=
  (id m, method m,
   if String.eqb (id m) "pauseManagement" then None
   else Some (Thresholds.max (thresholds m))).

(** A score as the analysers report it: not a number, or a whole number from
    0 to 100. *)
Definition validScore (s : num) : Prop :=
  s = NaN \/ exists z : Z, s = Fin (IZR z) /\ (0 <= z <= 100)%Z.

(** The messages of [buildFeedback]. *)
Definition sayLouder : string := "Speak louder and keep your voice energy more stable.".
Definition sayFaster : string := "Try speaking a bit faster for more natural fluency.".
Definition saySlower : string := "Slow down slightly to improve clarity.".
Definition saySooner : string := "Start speaking sooner after the prompt.".
Definition sayFewerPauses : string := "Reduce long pauses to keep smoother flow.".
Definition sayMomentum : string := "Build momentum from start to finish.".
Definition sayExcellent : string := "Excellent work. Strong delivery and control.".
Definition sayGreat : string := "Great job. Keep this rhythm and consistency.".

(** Whether the pause analyser takes the pauses from the segments of the
    voice activity rather than from the energy of the buffer. *)
Definition segmented (vad : option VADMetrics) : bool :=
  match vad with
  | Some v => match speechSegments v with [] => false | _ => true end
  | None => false
  end.

(** The 50 ms frame loop of the pause analyser has a turn to take and a step
    that is not positive. *)
Definition stuck (audioBuffer : list R) (sampleRate : R) : Prop :=
  (floor (sampleRate * 0.05) <= 0)%Z
  /\ (floor (sampleRate * 0.05) < Z.of_nat (length audioBuffer))%Z.

(** A weighted score: not a number, or between 0 and [cap]. *)
Definition atMost (cap : R) (a : num) : Prop :=
  a = NaN \/ exists x, a = Fin x /\ 0 <= x <= cap.

(** The weighted sum both analyses round into [overallScore]. *)
Definition weightedSum (r : AnalysisResult) (weights : Weights.t) : num :=
  (Volume.score (volume r) * Fin (Weights.volume weights)
   + SpeechRate.score (speechRate r) * Fin (Weights.speechRate weights)
   + Acceleration.score (acceleration r) * Fin (Weights.acceleration weights)
   + ResponseTime.score (responseTime r) * Fin (Weights.responseTime weights)
   + Pauses.score (pauseManagement r) * Fin (Weights.pauseManagement weights))%num.

(** [overallScore >= 70 ? "excellent" : overallScore >= 40 ? "good" : "poor"] *)
Definition gradeOf (overallScore : num) : string :=
  if (overallScore >=? Fin 70)%num then "excellent"
  else if (overallScore >=? Fin 40)%num then "good"
  else "poor".

End Terms.

(* ================================================================= *)
(** ** Concrete inputs used in examples *)

Module Cases.
Import JsNum Lufs Analysis Terms.

Definition entry (lufs : R) : RecordingStats :=
  {| Stats.timestamp := 0; Stats.originalLUFS := lufs;
     Stats.calibratedLUFS := -23; Stats.finalLUFS := -23;
     Stats.noiseFloor := -60 |}.

Definition micWith (history : list RecordingStats) : CalibrationProfile :=
  {| deviceId := "mic"; deviceLabel := "Microphone"; noiseFloor := -60;
     referenceLevel := -23; gainAdjustment := 1; createdAt := 0; lastUsed := 0;
     recordingHistory := Some history |}.

Definition worldWith (history : list RecordingStats) : World :=
  {| profilesItem := Some [micWith history]; clock := fun _ => 0%Z; reads := 0 |}.

Definition quiet : Measured.t :=
  {| Measured.originalLUFS := NegInf; Measured.calibratedLUFS := NegInf;
     Measured.finalLUFS := NegInf; Measured.noiseFloor := Fin (-60) |}.


(** The [volume] row the migration seeds [scoring_config] with. *)
Definition seedVolume : Row :=
  {| metric_name := "volume"; row_weight := 0.2;
     min_value := Some (-45); max_value := Some (-20) |}.

Definition halfVolume : Local.metric :=
  {| Local.id := Some "volume"%string; Local.weight := Some (1 / 2);
     Local.enabled := Some true; Local.thresholds_ := None;
     Local.method := None |}.

Definition overridden (w : World) : Env :=
  {| lufs := w; metricConfigItem := Local.Entries [halfVolume];
     speechRateMethodItem := None; cachedConfig := None; cachedAt := 0 |}.

Definition halfConfig : list MetricConfig :=
  [ {| id := "volume"; weight := 1 / 2;
       thresholds := {| Thresholds.min := -35; Thresholds.ideal := -15;
                        Thresholds.max := 0 |};
       method := None |} ].

(** A microphone calibrated 40 dB below the target: its gain is at the upper
    clamp. *)
Definition mic : CalibrationProfile :=
  {| deviceId := "mic"; deviceLabel := "Microphone"; noiseFloor := -60;
     referenceLevel := -63; gainAdjustment := 10; createdAt := 0; lastUsed := 0;
     recordingHistory := Some [] |}.

Definition studio : Env :=
  {| lufs := {| profilesItem := Some [mic]; clock := fun _ => 0%Z; reads := 0 |};
     metricConfigItem := Local.Absent; speechRateMethodItem := None;
     cachedConfig := None; cachedAt := 0 |}.

Definition offline : Collaborators :=
  {| scoringConfig := None; transcribe := Transcription.Refused;
     deepgramTranscribe := Transcription.Refused |}.

Definition withMic : Audio.t :=
  {| Audio.audioBlob := false; Audio.deviceId := Some "mic"%string;
     Audio.vadMetrics := None; Audio.sttWordCount := None |}.

Definition tap : list R := [/ 100].

(** What [analyzeAudioAsync] returns for [tap] recorded on [mic]. *)
Definition tapResult : AnalysisResult :=
  match fst (analyzeAudioAsync tap 16000 (Some withMic) offline studio) with
  | Some r => r
  | None => noSpeechResult EmptyString
  end.

Definition silence : VADMetrics :=
  {| speechSegments := []; totalSpeechTime := 0; totalSilenceTime := 3000;
     speechRatio := 0; isSpeaking := false; speechProbability := 0 |}.

Definition silentCall : Audio.t :=
  {| Audio.audioBlob := false; Audio.deviceId := Some "mic"%string;
     Audio.vadMetrics := Some silence; Audio.sttWordCount := None |}.


(** A row of a metric the table does not know. *)
Definition strayRow : Row :=
  {| metric_name := "clarity"; row_weight := 0.5;
     min_value := Some 0; max_value := Some 1 |}.

(** Two samples of digital silence. *)
Definition hush : list R := [0; 0].

(** Four full-scale samples and a zero. *)
Definition burst : list R := [1; 1; 1; 1; 0].

End Cases.

(* ================================================================= *)
(** * Properties *)

(** ** Facts about JavaScript numbers *)

Module JsNumFacts.
Import JsNum Terms Cases.

Lemma Rltb_true x y : x < y -> Rltb x y = true.
Proof. intros H; unfold Rltb; destruct (Rlt_dec x y); [reflexivity | contradiction]. Qed.

Lemma Rltb_false x y : y <= x -> Rltb x y = false.
Proof. intros H; unfold Rltb; destruct (Rlt_dec x y); [lra | reflexivity]. Qed.

Lemma Rleb_true x y : x <= y -> Rleb x y = true.
Proof. intros H; unfold Rleb; destruct (Rle_dec x y); [reflexivity | contradiction]. Qed.

Lemma Rleb_false x y : y < x -> Rleb x y = false.
Proof. intros H; unfold Rleb; destruct (Rle_dec x y); [lra | reflexivity]. Qed.

Lemma Reqb_true x y : x = y -> Reqb x y = true.
Proof. intros H; unfold Reqb; destruct (Req_dec_T x y); [reflexivity | contradiction]. Qed.

Lemma Reqb_false x y : x <> y -> Reqb x y = false.
Proof. intros H; unfold Reqb; destruct (Req_dec_T x y); [contradiction | reflexivity]. Qed.

Lemma Rleb_iff x y : Rleb x y = true <-> x <= y.
Proof. unfold Rleb; destruct (Rle_dec x y); split; intros; auto; discriminate. Qed.

Lemma Rltb_iff x y : Rltb x y = true <-> x < y.
Proof. unfold Rltb; destruct (Rlt_dec x y); split; intros; auto; discriminate. Qed.

Lemma floor_eq (x : R) (z : Z) : IZR z <= x < IZR z + 1 -> floor x = z.
Proof.
  intros [Hlo Hhi]. unfold floor. symmetry. apply Int_part_spec. lra.
Qed.

Lemma floor_bounds (x : R) : IZR (floor x) <= x < IZR (floor x) + 1.
Proof.
  unfold floor. destruct (base_Int_part x) as [H1 H2]. lra.
Qed.

Lemma floor_IZR (z : Z) : floor (IZR z) = z.
Proof. apply floor_eq. lra. Qed.

Lemma round_eq (x : R) (z : Z) : IZR z - 1 / 2 <= x < IZR z + 1 / 2 -> round x = z.
Proof. intros H. unfold round. apply floor_eq. lra. Qed.

Lemma fold_Rplus_acc (l : list R) (a : R) :
  fold_left Rplus l a = a + fold_left Rplus l 0.
Proof.
  revert a. induction l as [|x l IH]; intros a; simpl.
  - lra.
  - rewrite (IH (a + x)), (IH (0 + x)). lra.
Qed.

Lemma sumR_cons (x : R) (l : list R) : sumR (x :: l) = x + sumR l.
Proof. unfold sumR. simpl. rewrite fold_Rplus_acc. lra. Qed.

Lemma sumR_app (l m : list R) : sumR (l ++ m) = sumR l + sumR m.
Proof.
  induction l as [|x l IH]; simpl.
  - unfold sumR at 2. simpl. lra.
  - rewrite !sumR_cons, IH. lra.
Qed.

Lemma fold_add_Fin (l : list R) (a : R) :
  fold_left add (map Fin l) (Fin a) = Fin (fold_left Rplus l a).
Proof.
  revert a. induction l as [|x l IH]; intros a; simpl; [reflexivity | apply IH].
Qed.

Lemma sumNum_Fin (l : list R) : sumNum (map Fin l) = Fin (sumR l).
Proof. apply fold_add_Fin. Qed.

Lemma Rpower_10_pos (y : R) : 0 < Rpower 10 y.
Proof. unfold Rpower. apply exp_pos. Qed.

Lemma Rpower_10_neg_lt_1 (y : R) : y < 0 -> Rpower 10 y < 1.
Proof.
  intros Hy. rewrite <- (Rpower_O 10) by lra.
  apply Rpower_lt; lra.
Qed.

(** Some element of a non-empty list is at least the mean. *)
Lemma max_above_mean (l : list R) :
  l <> [] -> exists m, In m l /\ sumR l <= INR (length l) * m.
Proof.
  induction l as [|x l IH]; [congruence | intros _].
  destruct l as [|y l].
  - exists x. split; [now left |]. rewrite sumR_cons. unfold sumR. simpl. lra.
  - destruct IH as [m [Hin Hm]]; [discriminate |].
    rewrite sumR_cons.
    assert (Hlen : INR (length (x :: y :: l)) = 1 + INR (length (y :: l))).
    { change (length (x :: y :: l)) with (S (length (y :: l))). rewrite S_INR. lra. }
    rewrite Hlen.
    assert (Hpos : 0 <= INR (length (y :: l))) by apply pos_INR.
    destruct (Rle_lt_dec x m) as [Hxm | Hxm].
    + exists m. split; [now right |]. nra.
    + exists x. split; [now left |]. nra.
Qed.

(** Evaluating [num] expressions on concrete reals: the comparisons are
    settled by [lra], the roundings by their bounds. *)
Ltac R_solve := solve [lra | field_simplify; lra].

Ltac R_test :=
  match goal with
  | |- context [Rltb ?x ?y] =>
      first [rewrite (Rltb_true x y) by R_solve | rewrite (Rltb_false x y) by R_solve]
  | |- context [Rleb ?x ?y] =>
      first [rewrite (Rleb_true x y) by R_solve | rewrite (Rleb_false x y) by R_solve]
  | |- context [Reqb ?x ?y] =>
      first [rewrite (Reqb_true x y) by R_solve | rewrite (Reqb_false x y) by R_solve]
  end.

Ltac num_eval :=
  repeat first
    [ progress cbn [add sub neg mul div lt le gt ge strictEq max min roundNum
                    andb orb negb signed infTimes]
    | R_test ].


End JsNumFacts.

(** ** The loudness meter and the normaliser *)

Module LufsFacts.
Import JsNum JsNumFacts Lufs Terms Cases.

Lemma absoluteGate_pos : 0 < absoluteGate.
Proof. apply Rpower_10_pos. Qed.

Lemma sumSquares_zero_size (audioBuffer : list R) (i : Z) :
  sumSquares audioBuffer i 0 = 0.
Proof. reflexivity. Qed.

Lemma block_plain (audioBuffer : list R) (i blockSize : Z) :
  plainBlock (Fin (sumSquares audioBuffer i blockSize) / Fin (IZR blockSize))%num.
Proof.
  unfold div. destruct (Req_dec_T (IZR blockSize) 0) as [Hz | Hnz].
  - apply eq_IZR_R0 in Hz. subst blockSize.
    rewrite sumSquares_zero_size, !Reqb_true by reflexivity. now left.
  - rewrite Reqb_false by assumption. right. eauto.
Qed.

Lemma blockLoop_plain (fuel : nat) (audioBuffer : list R) (blockSize hop i : Z) :
  Forall plainBlock (blockLoop fuel audioBuffer blockSize hop i).
Proof.
  revert i. induction fuel as [|fuel IH]; intros i; simpl; [constructor |].
  destruct (i <? Z.of_nat (length audioBuffer) - blockSize)%Z; constructor.
  - apply block_plain.
  - apply IH.
Qed.

(** More fuel than [length - blockSize - i] turns changes nothing: the loop
    has stopped by then. *)
Lemma blockLoop_fuel (audioBuffer : list R) (blockSize hop i : Z) (fuel extra : nat) :
  (1 <= hop)%Z ->
  (Z.of_nat (length audioBuffer) - blockSize - i <= Z.of_nat fuel)%Z ->
  blockLoop (fuel + extra) audioBuffer blockSize hop i
  = blockLoop fuel audioBuffer blockSize hop i.
Proof.
  intros Hhop. revert i. induction fuel as [|fuel IH]; intros i Hfuel.
  - destruct extra as [|extra]; simpl; [reflexivity |].
    destruct (Z.ltb_spec i (Z.of_nat (length audioBuffer) - blockSize)); [lia | reflexivity].
  - simpl. destruct (Z.ltb_spec i (Z.of_nat (length audioBuffer) - blockSize));
      [| reflexivity].
    f_equal. apply IH. lia.
Qed.

Lemma hopOf_pos (blockSize : Z) : (1 <= hopOf blockSize)%Z.
Proof. unfold hopOf. lia. Qed.

(** What passes the absolute gate is finite and at least the gate. *)
Lemma gatedOf_finite (blocks : list num) :
  Forall plainBlock blocks ->
  exists xs, gatedOf blocks = map Fin xs /\ Forall (fun x => absoluteGate <= x) xs.
Proof.
  induction 1 as [|b blocks Hb _ IH].
  - exists []. split; [reflexivity | constructor].
  - destruct IH as [xs [Hxs Hall]].
    destruct Hb as [-> | [x ->]]; unfold gatedOf in *; simpl.
    + exists xs. now split.
    + unfold Rleb. destruct (Rle_dec absoluteGate x) as [Hle | Hnle].
      * exists (x :: xs). split; [simpl; f_equal; exact Hxs | now constructor].
      * exists xs. now split.
Qed.

Lemma avgOf_finite (xs : list R) :
  xs <> [] -> avgOf (map Fin xs) = Fin (sumR xs / INR (length xs)).
Proof.
  intros Hne. unfold avgOf. rewrite sumNum_Fin, length_map. unfold div.
  rewrite Reqb_false; [reflexivity |].
  apply not_0_INR. destruct xs; [congruence | discriminate].
Qed.

Lemma filter_nonempty {A : Type} (f : A -> bool) (l : list A) (a : A) :
  In a l -> f a = true -> filter f l <> [].
Proof.
  intros Hin Hf Hnil.
  assert (Ha : In a (filter f l)) by (apply filter_In; now split).
  rewrite Hnil in Ha. contradiction.
Qed.

Lemma sumR_lower (xs : list R) (g : R) :
  Forall (fun x => g <= x) xs -> INR (length xs) * g <= sumR xs.
Proof.
  induction 1 as [|x xs Hx _ IH].
  - unfold sumR. simpl. lra.
  - rewrite sumR_cons. change (length (x :: xs)) with (S (length xs)).
    rewrite S_INR. lra.
Qed.

(** The relative gate never empties the list: the largest gated block is at
    least the average, hence above a tenth of it. *)
Lemma finalBlocksOf_nonempty (xs : list R) :
  xs <> [] -> Forall (fun x => absoluteGate <= x) xs ->
  finalBlocksOf (map Fin xs) <> [].
Proof.
  intros Hne Hall.
  destruct (max_above_mean xs Hne) as [m [Hin Hm]].
  unfold finalBlocksOf.
  apply (filter_nonempty _ _ (Fin m)); [now apply in_map |].
  unfold relativeGateOf. rewrite avgOf_finite by assumption. simpl.
  apply Rleb_true.
  assert (Hn : 0 < INR (length xs)).
  { apply lt_0_INR. destruct xs; [congruence | simpl; lia]. }
  assert (Hg := absoluteGate_pos).
  assert (Hmg : absoluteGate <= m).
  { rewrite Forall_forall in Hall. now apply Hall. }
  assert (Hc1 : Rpower 10 (-10 / 10) < 1) by (apply Rpower_10_neg_lt_1; lra).
  assert (Hc0 := Rpower_10_pos (-10 / 10)).
  assert (Havg : sumR xs / INR (length xs) <= m).
  { apply Rmult_le_reg_l with (INR (length xs)); [assumption |].
    replace (INR (length xs) * (sumR xs / INR (length xs))) with (sumR xs)
      by (field; lra).
    exact Hm. }
  assert (Hlow := sumR_lower xs absoluteGate Hall).
  assert (Havg0 : 0 <= sumR xs / INR (length xs)).
  { apply Rmult_le_reg_l with (INR (length xs)); [assumption |].
    replace (INR (length xs) * (sumR xs / INR (length xs))) with (sumR xs)
      by (field; lra).
    nra. }
  nra.
Qed.

(** With no block left after the gates, the mean square is [0] and the
    loudness [-Infinity]. *)
Lemma no_survivors_silence (audioBuffer : list R) (sampleRate : R) :
  survivingBlocks audioBuffer sampleRate = [] ->
  calculateMeanSquareWithGating audioBuffer sampleRate = Fin 0
  /\ calculateLUFS audioBuffer sampleRate = NegInf.
Proof.
  unfold survivingBlocks. intros Hs.
  assert (Hms : calculateMeanSquareWithGating audioBuffer sampleRate = Fin 0).
  { unfold calculateMeanSquareWithGating.
    destruct (blocksOf audioBuffer sampleRate) as [|b blocks] eqn:Hb; [reflexivity |].
    destruct (gatedOf (b :: blocks)) as [|g gated] eqn:Hg; [reflexivity |].
    exfalso.
    destruct (gatedOf_finite (b :: blocks)) as [xs [Hxs Hall]].
    { rewrite <- Hb. apply blockLoop_plain. }
    rewrite Hg in Hxs. rewrite Hxs in Hs.
    apply (finalBlocksOf_nonempty xs); try assumption.
    intros ->. discriminate. }
  split; [exact Hms |].
  unfold calculateLUFS. destruct audioBuffer; [reflexivity |].
  rewrite Hms. simpl. now rewrite Reqb_true.
Qed.

Lemma filter_Fin (f : num -> bool) (xs : list R) :
  filter f (map Fin xs) = map Fin (filter (fun x => f (Fin x)) xs).
Proof.
  induction xs as [|x xs IH]; simpl; [reflexivity |].
  destruct (f (Fin x)); simpl; now rewrite IH.
Qed.

Lemma match_nonempty {A B : Type} (l : list A) (a b : B) :
  l <> [] -> match l with [] => a | _ :: _ => b end = b.
Proof. destruct l; [congruence | reflexivity]. Qed.

Lemma map_Fin_nonempty (xs : list R) : xs <> [] -> map Fin xs <> [].
Proof. destruct xs; [congruence | discriminate]. Qed.

(** With a block left after the gates the loudness is a finite number. *)
Lemma survivors_finite (audioBuffer : list R) (sampleRate : R) :
  audioBuffer <> [] ->
  survivingBlocks audioBuffer sampleRate <> [] ->
  exists l, calculateLUFS audioBuffer sampleRate = Fin l.
Proof.
  unfold survivingBlocks. intros Hbuf Hs.
  destruct (gatedOf_finite (blocksOf audioBuffer sampleRate)) as [xs [Hxs Hall]].
  { apply blockLoop_plain. }
  rewrite Hxs in Hs.
  assert (Hxne : xs <> []) by (intros ->; now apply Hs).
  assert (Hbne : blocksOf audioBuffer sampleRate <> []).
  { intros E. rewrite E in Hxs. destruct xs; [congruence | discriminate]. }
  unfold finalBlocksOf in Hs. rewrite filter_Fin in Hs.
  set (ys := filter _ xs) in Hs.
  assert (Hys : Forall (fun x => absoluteGate <= x) ys).
  { apply Forall_forall. intros y Hy. apply filter_In in Hy.
    rewrite Forall_forall in Hall. now apply Hall. }
  assert (Hne : ys <> []) by (intros E; rewrite E in Hs; now apply Hs).
  assert (Hms : calculateMeanSquareWithGating audioBuffer sampleRate
                = Fin (sumR ys / INR (length ys))).
  { unfold calculateMeanSquareWithGating.
    rewrite match_nonempty by exact Hbne. rewrite Hxs.
    rewrite match_nonempty by (now apply map_Fin_nonempty).
    unfold finalBlocksOf. rewrite filter_Fin. fold ys.
    rewrite match_nonempty by (now apply map_Fin_nonempty).
    now apply avgOf_finite. }
  assert (Hn : 0 < INR (length ys)).
  { apply lt_0_INR. destruct ys; [congruence | simpl; lia]. }
  assert (Hlow := sumR_lower ys absoluteGate Hys).
  assert (Hg := absoluteGate_pos).
  assert (Hpos : 0 < sumR ys / INR (length ys)).
  { apply Rdiv_lt_0_compat; [nra | exact Hn]. }
  unfold calculateLUFS. rewrite match_nonempty by exact Hbuf.
  rewrite Hms. cbn [strictEq]. rewrite Reqb_false by lra.
  cbn [log10]. rewrite Rltb_false by lra. rewrite Reqb_false by lra.
  eexists. reflexivity.
Qed.

End LufsFacts.

Module LufsSpec.
Import JsNum JsNumFacts Lufs LufsFacts Terms Cases.

Lemma blockSizeOf_10 : blockSizeOf 10 = 4%Z.
Proof. unfold blockSizeOf. apply floor_eq. lra. Qed.

Lemma hopOf_4 : hopOf 4 = 1%Z.
Proof.
  unfold hopOf, overlapOf.
  replace (floor (4 * 0.75)) with 3%Z; [reflexivity |].
  symmetry. apply floor_eq. lra.
Qed.

(** A buffer no longer than one block yields no block at all. *)
Lemma short_buffer_no_blocks (audioBuffer : list R) (sampleRate : R) :
  (Z.of_nat (length audioBuffer) <= blockSizeOf sampleRate)%Z ->
  blocksOf audioBuffer sampleRate = [].
Proof.
  intros Hlen. unfold blocksOf.
  replace (Z.to_nat (Z.of_nat (length audioBuffer) - blockSizeOf sampleRate))
    with O by lia.
  reflexivity.
Qed.

Lemma short_buffer_silence (audioBuffer : list R) (sampleRate : R) :
  (Z.of_nat (length audioBuffer) <= blockSizeOf sampleRate)%Z ->
  calculateLUFS audioBuffer sampleRate = NegInf.
Proof.
  intros Hlen. apply no_survivors_silence.
  unfold survivingBlocks. now rewrite short_buffer_no_blocks.
Qed.

Lemma five_zeros_blocks : blocksOf [0; 0; 0; 0; 0] 10 = [Fin 0].
Proof.
  unfold blocksOf. rewrite blockSizeOf_10, hopOf_4. simpl.
  unfold div. rewrite Reqb_false by lra.
  unfold sumSquares. simpl. do 2 f_equal. lra.
Qed.

Lemma five_zeros_no_survivors : survivingBlocks [0; 0; 0; 0; 0] 10 = [].
Proof.
  unfold survivingBlocks. rewrite five_zeros_blocks.
  unfold gatedOf. simpl. rewrite Rleb_false by apply absoluteGate_pos.
  reflexivity.
Qed.

(** C1, as the specification words it, fails: five zero samples at 10 Hz make
    one block, the absolute gate drops it, and the loudness is [-Infinity],
    not [0]. *)
Lemma calculateLUFS_no_survivors_not_zero :
  ~ (forall (audioBuffer : list R) (sampleRate : R),
        audioBuffer <> [] ->
        survivingBlocks audioBuffer sampleRate = [] ->
        calculateLUFS audioBuffer sampleRate = Fin 0).
Proof.
  intros Hclaim.
  specialize (Hclaim [0; 0; 0; 0; 0] 10).
  destruct (no_survivors_silence _ _ five_zeros_no_survivors) as [_ Hsil].
  rewrite Hsil in Hclaim.
  discriminate Hclaim; [discriminate | apply five_zeros_no_survivors].
Qed.

(** C1, amended: for every non-empty buffer and sample rate for which the
    two gates leave no surviving block, [calculateMeanSquareWithGating]
    returns 0 and [calculateLUFS] returns [-Infinity]. *)
Theorem calculateLUFS_no_survivors :
  forall (audioBuffer : list R) (sampleRate : R),
    audioBuffer <> [] ->
    survivingBlocks audioBuffer sampleRate = [] ->
    calculateMeanSquareWithGating audioBuffer sampleRate = Fin 0
    /\ calculateLUFS audioBuffer sampleRate = NegInf.
Proof. intros audioBuffer sampleRate _. apply no_survivors_silence. Qed.

Lemma calculateLUFS_no_survivors_witness :
  [0; 0; 0; 0; 0] <> []
  /\ survivingBlocks [0; 0; 0; 0; 0] 10 = []
  /\ calculateMeanSquareWithGating [0; 0; 0; 0; 0] 10 = Fin 0
  /\ calculateLUFS [0; 0; 0; 0; 0] 10 = NegInf.
Proof.
  split; [discriminate |]. split; [apply five_zeros_no_survivors |].
  apply (calculateLUFS_no_survivors [0; 0; 0; 0; 0] 10);
    [discriminate | apply five_zeros_no_survivors].
Defined.

(** C9: a non-empty buffer of at most [floor(0.4 * sampleRate)] samples has
    loudness [-Infinity], and [normalizeToLUFS] hands it back unchanged with
    linear gain 1. *)
Theorem short_buffer_unchanged :
  forall (audioBuffer : list R) (sampleRate targetLUFS : R),
    audioBuffer <> [] ->
    (Z.of_nat (length audioBuffer) <= floor (0.4 * sampleRate))%Z ->
    calculateLUFS audioBuffer sampleRate = NegInf
    /\ normalizeToLUFS audioBuffer sampleRate targetLUFS
       = {| normalized := audioBuffer; currentLUFS := NegInf;
            gainDB := 0; gainLinear := 1 |}.
Proof.
  intros audioBuffer sampleRate targetLUFS _ Hlen.
  assert (Hsil : calculateLUFS audioBuffer sampleRate = NegInf).
  { apply short_buffer_silence. unfold blockSizeOf.
    now rewrite (Rmult_comm sampleRate 0.4). }
  split; [exact Hsil |].
  unfold normalizeToLUFS. now rewrite Hsil.
Qed.

Lemma short_buffer_unchanged_witness :
  calculateLUFS [1; -1; 1] 10 = NegInf
  /\ normalizeToLUFS [1; -1; 1] 10 (-23)
     = {| normalized := [1; -1; 1]; currentLUFS := NegInf;
          gainDB := 0; gainLinear := 1 |}.
Proof.
  apply (short_buffer_unchanged [1; -1; 1] 10 (-23)).
  - discriminate.
  - replace (floor (0.4 * 10)) with 4%Z; [simpl; lia |].
    symmetry. apply floor_eq. lra.
Defined.


Lemma clip_inRange (s gain : R) : inRange (clip s gain).
Proof.
  unfold inRange, clip, Rmax, Rmin.
  destruct (Rle_dec 1 (s * gain)); destruct (Rle_dec (-1) _); lra.
Qed.



Lemma loud_block_blocks : blocksOf [1; 1; 1; 1; 0] 10 = [Fin 1].
Proof.
  unfold blocksOf. rewrite blockSizeOf_10, hopOf_4. simpl.
  unfold div. rewrite Reqb_false by lra.
  unfold sumSquares. simpl. do 2 f_equal. lra.
Qed.

(** Four full-scale samples and a zero at 10 Hz: one block of mean square 1
    passes both gates, and the loudness is -0.691. *)
Example loud_block_loudness : calculateLUFS [1; 1; 1; 1; 0] 10 = Fin (-0.691).
Proof.
  assert (Hg1 : absoluteGate < 1) by (apply Rpower_10_neg_lt_1; lra).
  assert (Hc1 : Rpower 10 (-10 / 10) < 1) by (apply Rpower_10_neg_lt_1; lra).
  assert (Hc0 := Rpower_10_pos (-10 / 10)).
  unfold calculateLUFS, calculateMeanSquareWithGating.
  rewrite loud_block_blocks.
  unfold gatedOf. cbn [filter ge le]. rewrite Rleb_true by lra.
  unfold finalBlocksOf, relativeGateOf, avgOf, sumNum.
  cbn [fold_left length INR add].
  repeat first
    [ progress cbn [filter fold_left length INR add sub neg mul div lt le gt ge
                    strictEq log10]
    | R_test ].
  f_equal. replace ((0 + 1) / 1) with 1 by lra. rewrite ln_1. lra.
Qed.

End LufsSpec.

(** ** The calibration store *)

Module StoreFacts.
Import JsNum JsNumFacts Lufs Terms Cases.

Lemma save_upsert (profile : CalibrationProfile) (profiles : list CalibrationProfile) :
  match findIndex (deviceId profile) profiles with
  | Some idx => assign profiles idx profile
  | None => profiles ++ [profile]
  end = upsert profile profiles.
Proof.
  induction profiles as [|p rest IH]; simpl; [reflexivity |].
  destruct (String.eqb (deviceId p) (deviceId profile)); [reflexivity |].
  destruct (findIndex (deviceId profile) rest); simpl in *; now rewrite IH.
Qed.

Lemma saveCalibrationProfile_run (profile : CalibrationProfile) (w : World) :
  saveCalibrationProfile profile w
  = (tt, {| profilesItem := Some (upsert profile (profilesOf w));
            clock := clock w; reads := reads w |}).
Proof.
  unfold saveCalibrationProfile, getCalibrationProfiles, bind, getItem, ret.
  fold (profilesOf w). rewrite <- save_upsert.
  destruct (findIndex (deviceId profile) (profilesOf w)); reflexivity.
Qed.

Lemma lookup_upsert (profile : CalibrationProfile) (profiles : list CalibrationProfile) :
  lookup (deviceId profile) (upsert profile profiles) = Some profile.
Proof.
  unfold lookup. induction profiles as [|p rest IH]; simpl.
  - now rewrite String.eqb_refl.
  - destruct (String.eqb (deviceId p) (deviceId profile)) eqn:E; simpl.
    + now rewrite String.eqb_refl.
    + now rewrite E.
Qed.

Lemma lookup_deviceId (id : string) (profiles : list CalibrationProfile)
      (p : CalibrationProfile) :
  lookup id profiles = Some p -> deviceId p = id.
Proof.
  unfold lookup. intros H. apply find_some in H. destruct H as [_ H].
  now apply String.eqb_eq.
Qed.

Lemma getCalibrationProfile_found (id : string) (w : World) (p : CalibrationProfile) :
  lookup id (profilesOf w) = Some p ->
  getCalibrationProfile id w
  = (Some (withLastUsed p (clock w (reads w))),
     {| profilesItem :=
          Some (upsert (withLastUsed p (clock w (reads w))) (profilesOf w));
        clock := clock w; reads := S (reads w) |}).
Proof.
  intros Hfind.
  unfold getCalibrationProfile, getCalibrationProfiles, bind, getItem, ret at 1.
  fold (profilesOf w). unfold lookup in Hfind. rewrite Hfind.
  unfold dateNow. rewrite saveCalibrationProfile_run. reflexivity.
Qed.

Lemma getCalibrationProfile_missing (id : string) (w : World) :
  lookup id (profilesOf w) = None ->
  getCalibrationProfile id w = (None, w).
Proof.
  intros Hfind.
  unfold getCalibrationProfile, getCalibrationProfiles, bind, getItem, ret at 1.
  fold (profilesOf w). unfold lookup in Hfind. now rewrite Hfind.
Qed.

(** [lastN] keeps the last [n] entries, for a positive [n] ([slice(-0)] is
    the whole array). *)
Lemma lastN_skipn {A : Type} (n : nat) (l : list A) :
  (0 < n)%nat -> lastN n l = skipn (length l - n) l.
Proof.
  intros Hn. unfold lastN, sliceIndex. f_equal.
  replace (- Z.of_nat n <? 0)%Z with true by (symmetry; apply Z.ltb_lt; lia).
  lia.
Qed.

Lemma lastN_length {A : Type} (n : nat) (l : list A) :
  (0 < n)%nat -> length (lastN n l) = Nat.min n (length l).
Proof. intros Hn. rewrite lastN_skipn, length_skipn by assumption. lia. Qed.

Lemma lastN_suffix {A : Type} (n : nat) (l : list A) :
  (0 < n)%nat -> l = firstn (length l - n) l ++ lastN n l.
Proof. intros Hn. rewrite lastN_skipn by assumption. symmetry. apply firstn_skipn. Qed.

Lemma lastN_all {A : Type} (n : nat) (l : list A) :
  (0 < n)%nat -> (length l <= n)%nat -> lastN n l = l.
Proof.
  intros Hn H. rewrite lastN_skipn by assumption.
  replace (length l - n)%nat with O by lia. reflexivity.
Qed.

Lemma lastN_app_lastN {A : Type} (n : nat) (l m : list A) :
  (0 < n)%nat -> lastN n (lastN n l ++ m) = lastN n (l ++ m).
Proof.
  intros Hn.
  rewrite !lastN_skipn, !length_app, length_skipn by assumption.
  destruct (Nat.le_gt_cases (length l) n) as [Hle | Hgt].
  - replace (length l - n)%nat with O by lia. simpl. now rewrite Nat.sub_0_r.
  - replace (length l - (length l - n) + length m - n)%nat with (length m) by lia.
    replace (length l + length m - n)%nat
      with ((length l - n) + length m)%nat by lia.
    rewrite !skipn_app.
    rewrite length_skipn.
    replace (length m - (length l - (length l - n)))%nat with (length m - n)%nat by lia.
    replace (length l - n + length m - length l)%nat with (length m - n)%nat by lia.
    f_equal.
    rewrite skipn_skipn. f_equal. lia.
Qed.

(** The gain of a new profile is clamped to [0.1, 10] and its history is
    empty. *)
Lemma createCalibrationProfile_fresh (id label : string)
      (noise reference targetLevel : R) (w : World) :
  let p := fst (createCalibrationProfile id label noise reference targetLevel w) in
  0.1 <= gainAdjustment p <= 10 /\ recordingHistory p = Some [].
Proof.
  simpl. split; [| reflexivity].
  unfold Rmax, Rmin.
  destruct (Rle_dec 10 _); destruct (Rle_dec 0.1 _); lra.
Qed.

End StoreFacts.

Module StoreSpec.
Import JsNum JsNumFacts Lufs StoreFacts Terms Cases.

Lemma filter_Erased (id : string) (profiles : list CalibrationProfile) :
  Erased id profiles
         (filter (fun p => negb (String.eqb (deviceId p) id)) profiles).
Proof.
  induction profiles as [|p rest IH]; simpl; [constructor |].
  destruct (String.eqb_spec (deviceId p) id); simpl; now constructor.
Qed.

Lemma Erased_In (id : string) (before after : list CalibrationProfile) :
  Erased id before after ->
  forall p, In p after <-> In p before /\ deviceId p <> id.
Proof.
  induction 1 as [|q before after Hq _ IH|q before after Hq _ IH]; intros p; simpl.
  - tauto.
  - rewrite IH. split; [tauto |]. intros [[-> | Hin] Hne]; [contradiction | tauto].
  - rewrite IH. split.
    + intros [-> | [Hin Hne]]; tauto.
    + intros [[-> | Hin] Hne]; tauto.
Qed.

(** C10: [deleteCalibrationProfile] takes out of the stored list exactly the
    profiles of the given device, keeps every other profile as it was and in
    its place, and touches nothing else. *)
Theorem deleteCalibrationProfile_frame :
  forall (w : World) (id : string),
    let w' := snd (deleteCalibrationProfile id w) in
    Erased id (profilesOf w) (profilesOf w')
    /\ (forall p, In p (profilesOf w') <-> In p (profilesOf w) /\ deviceId p <> id)
    /\ lookup id (profilesOf w') = None
    /\ clock w' = clock w /\ reads w' = reads w.
Proof.
  intros w id.
  assert (Hrun : profilesOf (snd (deleteCalibrationProfile id w))
                 = filter (fun p => negb (String.eqb (deviceId p) id)) (profilesOf w)).
  { reflexivity. }
  cbv zeta. rewrite Hrun.
  assert (Her := filter_Erased id (profilesOf w)).
  split; [exact Her |]. split; [apply Erased_In; exact Her |].
  split; [| split; reflexivity].
  unfold lookup.
  destruct (find _ _) as [p|] eqn:Hfind; [| reflexivity].
  apply find_some in Hfind. destruct Hfind as [Hin Hid].
  apply filter_In in Hin. destruct Hin as [_ Hkeep].
  rewrite Hid in Hkeep. discriminate.
Qed.

(** *** The recording history *)

Lemma trackRecording_run (id : string) (stats : Measured.t) (w : World)
      (p : CalibrationProfile) :
  lookup id (profilesOf w) = Some p ->
  let touched := withLastUsed p (clock w (reads w)) in
  let saved :=
    withHistory touched
      (pushed (historyOfProfile p) (stamped stats (clock w (S (reads w))))) in
  trackRecording id stats w
  = (tt, {| profilesItem := Some (upsert saved (upsert touched (profilesOf w)));
            clock := clock w; reads := S (S (reads w)) |}).
Proof.
  intros Hfind touched saved.
  unfold trackRecording, bind.
  rewrite (getCalibrationProfile_found id w p Hfind).
  unfold dateNow. cbn [clock reads profilesItem].
  rewrite saveCalibrationProfile_run. reflexivity.
Qed.

Lemma pushed_lastN (history : list RecordingStats) (entry : RecordingStats) :
  pushed history entry = lastN MAX_RECORDING_HISTORY (history ++ [entry]).
Proof.
  unfold pushed.
  destruct (Nat.ltb_spec MAX_RECORDING_HISTORY (length (history ++ [entry])));
    [reflexivity |].
  symmetry. apply lastN_all; [unfold MAX_RECORDING_HISTORY; lia | assumption].
Qed.

Lemma trackRecording_found (id : string) (stats : Measured.t) (w : World)
      (p : CalibrationProfile) :
  lookup id (profilesOf w) = Some p ->
  exists w',
    trackRecording id stats w = (tt, w')
    /\ clock w' = clock w /\ reads w' = S (S (reads w))
    /\ (exists p', lookup id (profilesOf w') = Some p')
    /\ historyOf w' id
       = lastN MAX_RECORDING_HISTORY
               (historyOf w id ++ [stamped stats (clock w (S (reads w)))]).
Proof.
  intros Hfind.
  assert (Hid := lookup_deviceId _ _ _ Hfind).
  pose (touched := withLastUsed p (clock w (reads w))).
  pose (saved :=
          withHistory touched
            (pushed (historyOfProfile p) (stamped stats (clock w (S (reads w)))))).
  pose (profiles' := upsert saved (upsert touched (profilesOf w))).
  exists {| profilesItem := Some profiles';
            clock := clock w; reads := S (S (reads w)) |}.
  split; [apply (trackRecording_run id stats w p Hfind) |].
  split; [reflexivity |]. split; [reflexivity |].
  assert (Hlook : lookup id profiles' = Some saved).
  { replace id with (deviceId saved) by exact Hid. apply lookup_upsert. }
  split; [exists saved; exact Hlook |].
  transitivity (historyOfProfile saved).
  - unfold historyOf. change (profilesOf _) with profiles'. now rewrite Hlook.
  - unfold historyOf. rewrite Hfind. exact (pushed_lastN _ _).
Qed.

Lemma trackAll_history (id : string) (recordings : list Measured.t) :
  recordings <> [] ->
  forall (w : World) (p : CalibrationProfile),
    lookup id (profilesOf w) = Some p ->
    historyOf (snd (trackAll id recordings w)) id
    = lastN MAX_RECORDING_HISTORY
            (historyOf w id ++ stampedFrom (clock w) (reads w) recordings).
Proof.
  induction recordings as [|stats rest IH]; [congruence | intros _ w p Hfind].
  destruct (trackRecording_found id stats w p Hfind)
    as [w' [Hrun [Hclock [Hreads [[p' Hfind'] Hhist]]]]].
  simpl. unfold bind. rewrite Hrun.
  destruct rest as [|stats' rest'].
  - simpl. unfold ret. simpl. exact Hhist.
  - rewrite (IH ltac:(discriminate) w' p' Hfind').
    rewrite Hhist, Hclock, Hreads.
    rewrite lastN_app_lastN by (unfold MAX_RECORDING_HISTORY; lia).
    now rewrite <- app_assoc.
Qed.

(** C7: whatever recordings are tracked for a stored profile, its history
    afterwards holds at most 10 entries, and they are the most recent ones of
    the old history followed by the new entries, in order: what is evicted
    is a prefix, the oldest entries. *)
Theorem trackRecording_history_bounded :
  forall (w : World) (id : string) (p : CalibrationProfile)
         (recordings : list Measured.t),
    lookup id (profilesOf w) = Some p ->
    recordings <> [] \/ (length (historyOf w id) <= 10)%nat ->
    let entries := historyOf w id ++ stampedFrom (clock w) (reads w) recordings in
    let kept := historyOf (snd (trackAll id recordings w)) id in
    (length kept <= 10)%nat
    /\ length kept = Nat.min 10 (length entries)
    /\ exists evicted, entries = evicted ++ kept.
Proof.
  intros w id p recordings Hfind Hcase entries kept.
  assert (Hkept : kept = lastN 10 entries).
  { destruct recordings as [|stats rest].
    - destruct Hcase as [Hne | Hlen]; [congruence |].
      unfold kept, entries. simpl. rewrite app_nil_r.
      symmetry. apply lastN_all; [lia | exact Hlen].
    - unfold kept, entries.
      apply (trackAll_history id (stats :: rest) ltac:(discriminate) w p Hfind). }
  rewrite Hkept. rewrite lastN_length by lia.
  split; [lia |]. split; [reflexivity |].
  eexists. apply lastN_suffix. lia.
Qed.

End StoreSpec.

Module RecalibrationSpec.
Import JsNum JsNumFacts Lufs StoreFacts Terms Cases.

Lemma checkRecalibrationNeeded_missing (id : string) (w : World) :
  lookup id (profilesOf w) = None ->
  checkRecalibrationNeeded id w = (noSuggestion, w).
Proof.
  intros Hfind. unfold checkRecalibrationNeeded, bind.
  now rewrite getCalibrationProfile_missing.
Qed.



End RecalibrationSpec.

Module StoreExamples.
Import JsNum JsNumFacts Lufs StoreFacts StoreSpec RecalibrationSpec Terms Cases.




Lemma trackRecording_history_bounded_witness :
  let w := worldWith (map entry [1; 2; 3; 4; 5; 6; 7; 8; 9]) in
  let recordings := [quiet; quiet; quiet] in
  let entries := historyOf w "mic" ++ stampedFrom (clock w) (reads w) recordings in
  let kept := historyOf (snd (trackAll "mic" recordings w)) "mic" in
  (length kept <= 10)%nat
  /\ length kept = Nat.min 10 (length entries)
  /\ exists evicted, entries = evicted ++ kept.
Proof.
  apply (trackRecording_history_bounded
           (worldWith (map entry [1; 2; 3; 4; 5; 6; 7; 8; 9])) "mic"
           (micWith (map entry [1; 2; 3; 4; 5; 6; 7; 8; 9]))
           [quiet; quiet; quiet]).
  - reflexivity.
  - left. discriminate.
Defined.

End StoreExamples.

(** ** The metric configuration *)

Module ConfigFacts.
Import JsNum JsNumFacts Lufs Analysis Terms Cases.

Lemma getMetricConfig_id (config : list MetricConfig) (name : string) (m : MetricConfig) :
  getMetricConfig config name = Some m -> id m = name.
Proof.
  unfold getMetricConfig. intros H. apply find_some in H.
  now apply String.eqb_eq.
Qed.

Lemma mapSet_same (base : list MetricConfig) (name : string) (m : MetricConfig) :
  id m = name -> getMetricConfig (mapSet base name m) name = Some m.
Proof.
  intros Hid. unfold getMetricConfig.
  induction base as [|b rest IH]; simpl.
  - now rewrite Hid, String.eqb_refl.
  - destruct (String.eqb (id b) name) eqn:E; simpl.
    + now rewrite Hid, String.eqb_refl.
    + now rewrite E.
Qed.

Lemma mapSet_other (base : list MetricConfig) (name other : string) (m : MetricConfig) :
  id m = name -> name <> other ->
  getMetricConfig (mapSet base name m) other = getMetricConfig base other.
Proof.
  intros Hid Hne. unfold getMetricConfig.
  assert (Hm : String.eqb (id m) other = false).
  { rewrite Hid. now apply String.eqb_neq. }
  induction base as [|b rest IH]; simpl.
  - now rewrite Hm.
  - destruct (String.eqb_spec (id b) name) as [Hb | Hb]; simpl.
    + rewrite Hm. rewrite Hb. now rewrite (proj2 (String.eqb_neq name other)).
    + destruct (String.eqb (id b) other); [reflexivity | exact IH].
Qed.

Lemma applyRow_same (base : list MetricConfig) (row : Row) (name : string)
      (prev : MetricConfig) :
  DB_METRIC_MAP (metric_name row) = Some name ->
  getMetricConfig base name = Some prev ->
  getMetricConfig (applyRow base row) name = Some (rowEntry name row prev).
Proof.
  intros Hmap Hprev. unfold applyRow. rewrite Hmap, Hprev.
  assert (Hid := getMetricConfig_id _ _ _ Hprev).
  rewrite mapSet_same by exact Hid.
  unfold rowEntry. now rewrite Hid, (Rmult_comm 100).
Qed.

Lemma applyRow_other (base : list MetricConfig) (row : Row) (name : string) :
  DB_METRIC_MAP (metric_name row) <> Some name ->
  getMetricConfig (applyRow base row) name = getMetricConfig base name.
Proof.
  intros Hmap. unfold applyRow.
  destruct (DB_METRIC_MAP (metric_name row)) as [other|]; [| reflexivity].
  destruct (getMetricConfig base other) as [prev|] eqn:Hprev; [| reflexivity].
  apply mapSet_other; [exact (getMetricConfig_id _ _ _ Hprev) | congruence].
Qed.

Lemma applyRow_keeps (base : list MetricConfig) (row : Row) (name : string) :
  getMetricConfig base name <> None ->
  getMetricConfig (applyRow base row) name <> None.
Proof.
  intros Hhas.
  destruct (getMetricConfig base name) as [prev|] eqn:Hprev; [| congruence].
  destruct (DB_METRIC_MAP (metric_name row)) as [other|] eqn:Hmap.
  - destruct (String.eqb_spec other name) as [-> | Hne].
    + rewrite (applyRow_same base row name prev Hmap Hprev). discriminate.
    + rewrite applyRow_other by congruence. congruence.
  - rewrite applyRow_other by congruence. congruence.
Qed.

Lemma applyRows_keep (data : list Row) (base : list MetricConfig) (name : string) :
  getMetricConfig base name <> None ->
  getMetricConfig (fold_left applyRow data base) name <> None.
Proof.
  revert base. induction data as [|row data IH]; intros base Hhas; simpl.
  - exact Hhas.
  - apply IH. now apply applyRow_keeps.
Qed.

Lemma applyRows_other (data : list Row) (base : list MetricConfig) (name : string) :
  (forall r, In r data -> DB_METRIC_MAP (metric_name r) <> Some name) ->
  getMetricConfig (fold_left applyRow data base) name = getMetricConfig base name.
Proof.
  revert base. induction data as [|row data IH]; intros base Hnone; simpl.
  - reflexivity.
  - rewrite IH by (intros r Hr; apply Hnone; now right).
    apply applyRow_other. apply Hnone. now left.
Qed.

(** Every name the table maps to is a metric of the compiled defaults. *)
Lemma DB_METRIC_MAP_known (source name : string) :
  DB_METRIC_MAP source = Some name ->
  getMetricConfig DEFAULT_CONFIG name <> None.
Proof.
  unfold DB_METRIC_MAP. intros H.
  repeat match type of H with
         | (if ?c then _ else _) = _ => destruct c
         end;
    try discriminate; injection H as <-; discriminate.
Qed.

Lemma fetchConfigFromDB_rows (data : list Row) :
  data <> [] ->
  fetchConfigFromDB (Some data) = fold_left applyRow data DEFAULT_CONFIG.
Proof. destruct data; [congruence | reflexivity]. Qed.

(** The last row mapped to a metric decides its entry. *)
Lemma fetchConfigFromDB_last_row (before after : list Row) (row : Row) (name : string) :
  DB_METRIC_MAP (metric_name row) = Some name ->
  (forall r, In r after -> DB_METRIC_MAP (metric_name r) <> Some name) ->
  exists prev,
    getMetricConfig (fold_left applyRow before DEFAULT_CONFIG) name = Some prev
    /\ getMetricConfig (fetchConfigFromDB (Some (before ++ row :: after))) name
       = Some (rowEntry name row prev).
Proof.
  intros Hmap Hafter.
  destruct (getMetricConfig (fold_left applyRow before DEFAULT_CONFIG) name)
    as [prev|] eqn:Hprev.
  - exists prev. split; [reflexivity |].
    rewrite fetchConfigFromDB_rows by (destruct before; discriminate).
    rewrite fold_left_app. simpl.
    rewrite applyRows_other by exact Hafter.
    now apply applyRow_same.
  - exfalso. revert Hprev. apply applyRows_keep.
    exact (DB_METRIC_MAP_known _ _ Hmap).
Qed.

End ConfigFacts.

Module ConfigSpec.
Import JsNum JsNumFacts Lufs Analysis ConfigFacts Terms Cases.




(** The seeded row, worked out: weight 20, bounds -45 / -20 / 0. *)
Example seedVolume_resolved :
  getMetricConfig (fetchConfigFromDB (Some [seedVolume])) "volume"
  = Some {| id := "volume"; weight := 20;
            thresholds := {| Thresholds.min := -45; Thresholds.ideal := -20;
                             Thresholds.max := 0 |};
            method := None |}.
Proof.
  destruct (fetchConfigFromDB_last_row [] [] seedVolume "volume" eq_refl)
    as [prev [Hprev Hm]]; [intros r [] |].
  injection Hprev as <-.
  change ([] ++ [seedVolume]) with [seedVolume] in Hm.
  rewrite Hm. unfold rowEntry. simpl.
  replace (round (100 * 0.2)) with 20%Z; [reflexivity |].
  symmetry. apply round_eq. lra.
Qed.

(** *** Normalised weights *)

Lemma overridden_resolved (answer : option (list Row)) (w : World) :
  fst (getConfigAsync answer (overridden w)) = halfConfig.
Proof.
  unfold getConfigAsync, abind, getMetricConfigItem, overridden. simpl.
  unfold localAccepted. simpl. rewrite Rltb_true by lra. reflexivity.
Qed.

Lemma halfConfig_total : Weights.total (normalizedWeights halfConfig) = 1 / 2.
Proof.
  unfold normalizedWeights, Weights.total, rawWeights. simpl.
  unfold Rmax. destruct (Rle_dec _ _); lra.
Qed.

(** C4, as the specification words it, fails: a local override enabling
    [volume] alone with weight 0.5 resolves to a configuration whose only
    weight is positive, and the five normalised weights sum to 0.5. *)
Lemma normalizedWeights_sum_not_one :
  ~ (forall (answer : option (list Row)) (e : Env),
        let config := fst (getConfigAsync answer e) in
        (forall m, In m config -> 0 < weight m) ->
        Weights.total (normalizedWeights config) = 1).
Proof.
  intros Hclaim.
  specialize (Hclaim None (overridden {| profilesItem := None;
                                         clock := fun _ => 0%Z; reads := 0 |})).
  cbv zeta in Hclaim. rewrite overridden_resolved, halfConfig_total in Hclaim.
  assert (H : 1 / 2 = 1); [| lra].
  apply Hclaim. intros m [<- | []]. simpl. lra.
Qed.

(** C4, amended: for every resolved configuration whose five raw weights sum
    to at least 1, the five normalised weights sum to 1. *)
Theorem normalizedWeights_sum :
  forall (config : list MetricConfig),
    1 <= Weights.total (rawWeights config) ->
    Weights.total (normalizedWeights config) = 1.
Proof.
  intros config Hsum. unfold normalizedWeights, Weights.total in *.
  cbn [Weights.volume Weights.speechRate Weights.acceleration
       Weights.responseTime Weights.pauseManagement].
  rewrite Rmax_right by exact Hsum. field. lra.
Qed.

Lemma normalizedWeights_sum_witness :
  Weights.total (normalizedWeights DEFAULT_CONFIG) = 1.
Proof.
  apply (normalizedWeights_sum DEFAULT_CONFIG).
  unfold Weights.total, rawWeights. simpl. lra.
Defined.

Lemma rawWeight_integer (config : list MetricConfig) (name : string) :
  integerWeights config ->
  exists z, (0 <= z)%Z
            /\ match getMetricConfig config name with
               | Some m => weight m
               | None => 0
               end = IZR z.
Proof.
  intros Hint. destruct (getMetricConfig config name) as [m|] eqn:Hm.
  - unfold getMetricConfig in Hm. apply find_some in Hm. destruct Hm as [Hin _].
    unfold integerWeights in Hint. rewrite Forall_forall in Hint.
    now apply Hint.
  - exists 0%Z. split; [lia | reflexivity].
Qed.

(** On the integer scale the raw sum is at least 1 as soon as it is not 0,
    and the normalised weights then sum to 1. *)
Lemma normalizedWeights_integer (config : list MetricConfig) :
  integerWeights config ->
  0 < Weights.total (rawWeights config) ->
  Weights.total (normalizedWeights config) = 1.
Proof.
  intros Hint Hpos. unfold normalizedWeights, Weights.total in *.
  cbn [Weights.volume Weights.speechRate Weights.acceleration
       Weights.responseTime Weights.pauseManagement] in *.
  unfold rawWeights in *.
  cbn [Weights.volume Weights.speechRate Weights.acceleration
       Weights.responseTime Weights.pauseManagement] in *.
  destruct (rawWeight_integer config "volume" Hint) as [z1 [H1 E1]].
  destruct (rawWeight_integer config "speechRate" Hint) as [z2 [H2 E2]].
  destruct (rawWeight_integer config "acceleration" Hint) as [z3 [H3 E3]].
  destruct (rawWeight_integer config "responseTime" Hint) as [z4 [H4 E4]].
  destruct (rawWeight_integer config "pauseManagement" Hint) as [z5 [H5 E5]].
  rewrite E1, E2, E3, E4, E5 in *.
  assert (Hsum : 1 <= IZR z1 + IZR z2 + IZR z3 + IZR z4 + IZR z5).
  { rewrite <- !plus_IZR in *. apply IZR_le.
    apply lt_IZR in Hpos. lia. }
  rewrite Rmax_right by exact Hsum. field. lra.
Qed.

(** Below 1 the divisor is 1 and the weights stay as they are. *)
Lemma normalizedWeights_small (config : list MetricConfig) :
  Weights.total (rawWeights config) <= 1 ->
  Weights.total (normalizedWeights config) = Weights.total (rawWeights config).
Proof.
  intros Hsum. unfold normalizedWeights, Weights.total in *.
  cbn [Weights.volume Weights.speechRate Weights.acceleration
       Weights.responseTime Weights.pauseManagement].
  rewrite Rmax_left by exact Hsum. field.
Qed.

End ConfigSpec.

(** ** The analysis pipeline *)

Module PipelineFacts.
Import JsNum JsNumFacts Lufs Analysis Terms Cases.

Lemma Some_inj {A : Type} (x y : A) : Some x = Some y -> x = y.
Proof. congruence. Qed.

Lemma analyzeAudioAsync_no_speech
      (audioBuffer : list R) (sampleRate : R) (audio : option Audio.t)
      (c : Collaborators) (e : Env) :
  hasSpeech audio = false ->
  analyzeAudioAsync audioBuffer sampleRate audio c e
  = (let '(_, method, e2) := resolved c e in (Some (noSpeechResult method), e2)).
Proof.
  unfold hasSpeech, vadOf, resolved, analyzeAudioAsync, abind. intros Hno.
  destruct (getConfigAsync (scoringConfig c) e) as [config e1].
  destruct (getSpeechRateMethod config e1) as [method e2].
  rewrite Hno. reflexivity.
Qed.

(** A call that goes past the speech test returns exactly when the pause
    analysis of the processed buffer does, and each part of the result is the
    analyser's output on the buffer named here. *)
Lemma analyzeAudioAsync_routes
      (audioBuffer : list R) (sampleRate : R) (audio : option Audio.t)
      (c : Collaborators) (e : Env) (r : AnalysisResult) :
  hasSpeech audio = true ->
  fst (analyzeAudioAsync audioBuffer sampleRate audio c e) = Some r ->
  let '(config, method, _) := resolved c e in
  let '(processed, normalization, deviceOffset) :=
    prepared audioBuffer sampleRate audio c e in
  volume r = analyzeVolume audioBuffer config deviceOffset
  /\ speechRate r
     = analyzeSpeechRate processed sampleRate config
         (durationOf processed sampleRate audio) method
         (match audio with Some a => Audio.audioBlob a | None => false end)
         (match audio with Some a => Audio.sttWordCount a | None => None end) c
  /\ acceleration r = analyzeAcceleration processed sampleRate config
  /\ responseTime r = analyzeResponseTime processed sampleRate config
  /\ analyzePauses processed sampleRate config (vadOf audio)
     = Some (pauseManagement r)
  /\ pauses r = pauseManagement r.
Proof.
  unfold hasSpeech, prepared, resolved, deviceOf, durationOf, vadOf,
    analyzeAudioAsync, abind.
  intros Hspeech.
  destruct (getConfigAsync (scoringConfig c) e) as [config e1].
  destruct (getSpeechRateMethod config e1) as [method e2].
  rewrite Hspeech. cbn [negb].
  set (step := match nonEmpty _ with
               | Some id => calibrated audioBuffer sampleRate id
               | None => aret (audioBuffer, None, 0)
               end).
  assert (Hstep : fst (step e2)
                  = match nonEmpty (match audio with
                                    | Some a => Audio.deviceId a
                                    | None => None
                                    end) with
                    | Some id => fst (calibrated audioBuffer sampleRate id e2)
                    | None => (audioBuffer, None, 0)
                    end).
  { unfold step. destruct (nonEmpty _); reflexivity. }
  rewrite <- Hstep.
  destruct (step e2) as [[[processed normalization] deviceOffset] e3].
  cbn [fst].
  destruct (analyzePauses processed sampleRate config _) as [pm|];
    unfold aret; cbn [fst]; intros Hr; [| discriminate].
  apply Some_inj in Hr. subst r.
  cbn [volume speechRate acceleration responseTime pauseManagement pauses].
  repeat split; reflexivity.
Qed.

Lemma analyzeAudioAsync_returns
      (audioBuffer : list R) (sampleRate : R) (audio : option Audio.t)
      (c : Collaborators) (e : Env) (pm : Pauses.t) :
  hasSpeech audio = true ->
  (let '(config, _, _) := resolved c e in
   let '(processed, _, _) := prepared audioBuffer sampleRate audio c e in
   analyzePauses processed sampleRate config (vadOf audio) = Some pm) ->
  exists r, fst (analyzeAudioAsync audioBuffer sampleRate audio c e) = Some r.
Proof.
  unfold hasSpeech, prepared, resolved, deviceOf, vadOf, analyzeAudioAsync, abind.
  intros Hspeech.
  destruct (getConfigAsync (scoringConfig c) e) as [config e1].
  destruct (getSpeechRateMethod config e1) as [method e2].
  rewrite Hspeech. cbn [negb].
  set (step := match nonEmpty _ with
               | Some id => calibrated audioBuffer sampleRate id
               | None => aret (audioBuffer, None, 0)
               end).
  assert (Hstep : fst (step e2)
                  = match nonEmpty (match audio with
                                    | Some a => Audio.deviceId a
                                    | None => None
                                    end) with
                    | Some id => fst (calibrated audioBuffer sampleRate id e2)
                    | None => (audioBuffer, None, 0)
                    end).
  { unfold step. destruct (nonEmpty _); reflexivity. }
  rewrite <- Hstep.
  destruct (step e2) as [[[processed normalization] deviceOffset] e3].
  cbn [fst]. intros Hpm. rewrite Hpm. unfold aret. cbn [fst]. eauto.
Qed.

End PipelineFacts.

Module PipelineSpec.
Import JsNum JsNumFacts Lufs Analysis StoreFacts PipelineFacts Terms Cases.

Lemma getConfigAsync_store (answer : option (list Row)) (e : Env) :
  profilesItem (lufs (snd (getConfigAsync answer e))) = profilesItem (lufs e).
Proof.
  unfold getConfigAsync, abind, getMetricConfigItem.
  destruct (getConfigFromLocalStorage (metricConfigItem e)); [reflexivity |].
  unfold liftLufs, dateNow, getCache. cbn [fst snd cachedConfig cachedAt lufs].
  destruct (cachedConfig e); [| reflexivity].
  destruct (_ <? _)%Z; reflexivity.
Qed.

Lemma resolved_store (c : Collaborators) (e : Env) :
  let '(_, _, e2) := resolved c e in
  profilesItem (lufs e2) = profilesItem (lufs e).
Proof.
  unfold resolved.
  pose proof (getConfigAsync_store (scoringConfig c) e) as Hstore.
  destruct (getConfigAsync (scoringConfig c) e) as [config e1].
  unfold getSpeechRateMethod, abind, getSpeechRateMethodItem.
  destruct (nonEmpty (speechRateMethodItem e1)); exact Hstore.
Qed.

(** C3: when the supplied voice activity has [speechRatio <= 0.02] and
    [totalSpeechTime < 200], [analyzeAudioAsync] returns a result whose
    overall score and five metric scores are 0 and whose feedback is the one
    no-speech message; the buffer and the sample rate play no part in it and
    the calibration store is left as it was. *)
Theorem analyzeAudioAsync_no_speech_result :
  forall (audioBuffer : list R) (sampleRate : R) (a : Audio.t) (v : VADMetrics)
         (c : Collaborators) (e : Env),
    Audio.vadMetrics a = Some v ->
    speechRatio v <= 0.02 ->
    totalSpeechTime v < 200 ->
    (exists r,
        fst (analyzeAudioAsync audioBuffer sampleRate (Some a) c e) = Some r
        /\ overallScore r = Fin 0
        /\ Volume.score (volume r) = Fin 0
        /\ SpeechRate.score (speechRate r) = Fin 0
        /\ Acceleration.score (acceleration r) = Fin 0
        /\ ResponseTime.score (responseTime r) = Fin 0
        /\ Pauses.score (pauseManagement r) = Fin 0
        /\ Pauses.score (pauses r) = Fin 0
        /\ metrics r
           = {| Metrics.volume := Fin 0; Metrics.speechRate := Fin 0;
                Metrics.pauses := Fin 0; Metrics.latency := Fin 0;
                Metrics.endIntensity := Fin 0 |}
        /\ feedback r
           = ["No speech detected. Please try again and speak clearly."%string])
    /\ (forall (otherBuffer : list R) (otherRate : R),
           analyzeAudioAsync otherBuffer otherRate (Some a) c e
           = analyzeAudioAsync audioBuffer sampleRate (Some a) c e)
    /\ profilesItem (lufs (snd (analyzeAudioAsync audioBuffer sampleRate (Some a) c e)))
       = profilesItem (lufs e).
Proof.
  intros audioBuffer sampleRate a v c e Hvad Hratio Htime.
  assert (Hno : hasSpeech (Some a) = false).
  { unfold hasSpeech, vadOf. rewrite Hvad. now rewrite Rltb_false. }
  split; [| split].
  - rewrite (analyzeAudioAsync_no_speech _ _ _ _ _ Hno).
    destruct (resolved c e) as [[config method] e2].
    exists (noSpeechResult method). repeat split; reflexivity.
  - intros otherBuffer otherRate.
    now rewrite !(analyzeAudioAsync_no_speech _ _ _ _ _ Hno).
  - rewrite (analyzeAudioAsync_no_speech _ _ _ _ _ Hno).
    pose proof (resolved_store c e) as Hstore.
    destruct (resolved c e) as [[config method] e2]. exact Hstore.
Qed.


End PipelineSpec.

Module PipelineExamples.
Import JsNum JsNumFacts Lufs Analysis StoreFacts StoreSpec PipelineFacts LufsFacts
       LufsSpec PipelineSpec Terms Cases.

Lemma calibrateAndNormalize_short (audioBuffer : list R) (sampleRate : R)
      (id : string) (w : World) (p : CalibrationProfile) :
  nonEmpty (Some id) = Some id ->
  lookup id (profilesOf w) = Some p ->
  gainAdjustment p <> 1 ->
  (Z.of_nat (length audioBuffer) <= blockSizeOf sampleRate)%Z ->
  exists result w' p',
    calibrateAndNormalize audioBuffer sampleRate (Some id) TARGET_LUFS w = (result, w')
    /\ Calibrated.normalized result
       = map (fun s => clip s (gainAdjustment p)) audioBuffer
    /\ lookup id (profilesOf w') = Some p'
    /\ referenceLevel p' = referenceLevel p.
Proof.
  intros Hne Hfind Hgain Hshort.
  assert (Hid := lookup_deviceId _ _ _ Hfind).
  unfold calibrateAndNormalize, bind. rewrite Hne.
  rewrite (getCalibrationProfile_found id w p Hfind).
  cbn [gainAdjustment withLastUsed]. rewrite Reqb_false by exact Hgain.
  unfold ret at 1.
  set (stats := {| Measured.originalLUFS := _ |}).
  set (touched := withLastUsed p (clock w (reads w))).
  set (w1 := {| profilesItem := Some (upsert touched (profilesOf w));
                clock := clock w; reads := S (reads w) |}).
  assert (Hfind1 : lookup id (profilesOf w1) = Some touched).
  { unfold w1, profilesOf. cbn [profilesItem].
    replace id with (deviceId touched) by exact Hid. apply lookup_upsert. }
  rewrite (trackRecording_run id stats w1 touched Hfind1).
  unfold ret.
  set (saved := withHistory _ _).
  do 3 eexists. split; [reflexivity |].
  cbn [Calibrated.normalized].
  split; [| split].
  - unfold normalizeToLUFS.
    rewrite short_buffer_silence by (now rewrite length_map). reflexivity.
  - unfold profilesOf. cbn [profilesItem].
    replace id with (deviceId saved) by exact Hid. apply lookup_upsert.
  - reflexivity.
Qed.

(** With a positive frame the energy scan of the pause analyser ends. *)
Lemma analyzePauses_returns (audioBuffer : list R) (sampleRate : R)
      (config : list MetricConfig) :
  (0 < floor (sampleRate * 0.05))%Z ->
  exists pm, analyzePauses audioBuffer sampleRate config None = Some pm.
Proof.
  intros Hframe. unfold analyzePauses, pausesFromEnergy.
  replace (floor (sampleRate * 0.05) <=? 0)%Z with false
    by (symmetry; apply Z.leb_gt; exact Hframe).
  cbn [andb].
  match goal with
  | |- context [match ?l with [] => Some ?a | _ :: _ => Some ?b end] =>
      destruct l
  end; eauto.
Qed.






Lemma clip_hundredth : clip (/ 100) 10 = / 10.
Proof.
  unfold clip, Rmax, Rmin.
  destruct (Rle_dec 1 (/ 100 * 10)); [lra |].
  destruct (Rle_dec (-1) (/ 100 * 10)); lra.
Qed.

Lemma blockSizeOf_16000 : blockSizeOf 16000 = 6400%Z.
Proof. unfold blockSizeOf. apply floor_eq. lra. Qed.

Lemma studio_resolved :
  exists e2, resolved offline studio = (DEFAULT_CONFIG, "spectral-flux"%string, e2)
             /\ lufs e2 = {| profilesItem := Some [mic]; clock := fun _ => 0%Z;
                             reads := 1 |}.
Proof. eexists. split; reflexivity. Qed.

Lemma studio_prepared :
  exists normalization,
    prepared tap 16000 (Some withMic) offline studio
    = ([/ 10], normalization, TARGET_LUFS - -63).
Proof.
  destruct studio_resolved as [e2 [Hres Hlufs]].
  unfold prepared. rewrite Hres.
  change (deviceOf (Some withMic)) with (Some "mic"%string).
  unfold calibrated, abind, liftLufs. rewrite Hlufs.
  destruct (calibrateAndNormalize_short tap 16000 "mic"
              {| profilesItem := Some [mic]; clock := fun _ => 0%Z; reads := 1 |} mic)
    as [result [w' [p' [Hrun [Hnorm [Hfind' Href]]]]]].
  - reflexivity.
  - reflexivity.
  - simpl. lra.
  - rewrite blockSizeOf_16000. simpl. lia.
  - rewrite Hrun. cbn [lufs].
    rewrite (getCalibrationProfile_found "mic" w' p' Hfind').
    unfold aret. cbn [fst referenceLevel withLastUsed].
    rewrite Hnorm, Href. unfold tap. cbn [map gainAdjustment mic referenceLevel].
    rewrite clip_hundredth. eexists. reflexivity.
Qed.

Lemma frame_16000 : floor (16000 * 0.05) = 800%Z.
Proof. apply floor_eq. lra. Qed.


Lemma tapResult_returned :
  fst (analyzeAudioAsync tap 16000 (Some withMic) offline studio) = Some tapResult.
Proof.
  destruct studio_resolved as [e2 [Hres Hlufs]].
  destruct studio_prepared as [normalization Hprep].
  destruct (analyzePauses_returns [/ 10] 16000 DEFAULT_CONFIG) as [pm Hpm].
  { rewrite frame_16000. lia. }
  destruct (analyzeAudioAsync_returns tap 16000 (Some withMic) offline studio pm
              eq_refl) as [r Hr].
  { rewrite Hres, Hprep. exact Hpm. }
  unfold tapResult. now rewrite Hr.
Qed.


Lemma analyzeAudioAsync_no_speech_result_witness :
  (exists r,
      fst (analyzeAudioAsync [0; 0; 0] 16000 (Some silentCall) offline studio) = Some r
      /\ overallScore r = Fin 0
      /\ Volume.score (volume r) = Fin 0
      /\ SpeechRate.score (speechRate r) = Fin 0
      /\ Acceleration.score (acceleration r) = Fin 0
      /\ ResponseTime.score (responseTime r) = Fin 0
      /\ Pauses.score (pauseManagement r) = Fin 0
      /\ Pauses.score (pauses r) = Fin 0
      /\ metrics r
         = {| Metrics.volume := Fin 0; Metrics.speechRate := Fin 0;
              Metrics.pauses := Fin 0; Metrics.latency := Fin 0;
              Metrics.endIntensity := Fin 0 |}
      /\ feedback r
         = ["No speech detected. Please try again and speak clearly."%string])
  /\ (forall (otherBuffer : list R) (otherRate : R),
         analyzeAudioAsync otherBuffer otherRate (Some silentCall) offline studio
         = analyzeAudioAsync [0; 0; 0] 16000 (Some silentCall) offline studio)
  /\ profilesItem
       (lufs (snd (analyzeAudioAsync [0; 0; 0] 16000 (Some silentCall) offline studio)))
     = profilesItem (lufs studio).
Proof.
  apply (analyzeAudioAsync_no_speech_result [0; 0; 0] 16000 silentCall silence
                                            offline studio).
  - reflexivity.
  - simpl. lra.
  - simpl. lra.
Defined.

End PipelineExamples.

(** ** Further properties of the loudness meter *)

Module LufsExtra.
Import JsNum JsNumFacts Lufs LufsFacts Terms Cases LufsSpec.

Lemma ln_10_pos : 0 < ln 10.
Proof. rewrite <- ln_1. apply ln_increasing; lra. Qed.

Lemma ln_monotone (a b : R) : 0 < a -> a <= b -> ln a <= ln b.
Proof.
  intros Ha [Hlt | ->]; [| lra].
  left. now apply ln_increasing.
Qed.

Lemma log10_monotone (a b : R) : 0 < a -> a <= b -> ln a / ln 10 <= ln b / ln 10.
Proof.
  intros Ha Hab. pose proof ln_10_pos. pose proof (ln_monotone a b Ha Hab).
  unfold Rdiv. apply Rmult_le_compat_r; [| assumption].
  left. now apply Rinv_0_lt_compat.
Qed.

Lemma log10_Rpower (y : R) : ln (Rpower 10 y) / ln 10 = y.
Proof.
  pose proof ln_10_pos. unfold Rpower. rewrite ln_exp. field. lra.
Qed.

Lemma sumSquares_fold_bounds (l : list R) (a : R) :
  0 <= a ->
  0 <= fold_left (fun sum s => sum + s * s) l a
  /\ (Forall inRange l ->
      fold_left (fun sum s => sum + s * s) l a <= a + INR (length l)).
Proof.
  revert a. induction l as [|x l IH]; intros a Ha.
  - simpl. split; [assumption | intros _; lra].
  - cbn [fold_left]. destruct (IH (a + x * x)) as [Hlo Hhi]; [nra |].
    split; [exact Hlo |].
    intros Hall. inversion Hall as [|y l' Hx Hl]; subst.
    specialize (Hhi Hl). change (length (x :: l)) with (S (length l)).
    rewrite S_INR. unfold inRange in Hx. nra.
Qed.

Lemma in_firstn {A : Type} (n : nat) (l : list A) (x : A) :
  In x (firstn n l) -> In x l.
Proof.
  revert l. induction n as [|n IH]; intros [|y l]; simpl; try tauto.
  intros [-> | H]; [now left | right; now apply IH].
Qed.

Lemma in_skipn {A : Type} (n : nat) (l : list A) (x : A) :
  In x (skipn n l) -> In x l.
Proof.
  revert l. induction n as [|n IH]; intros [|y l]; simpl; try tauto.
  intros H. right. now apply IH.
Qed.

(** A finite block is at most 1 for samples in [-1, 1]. *)
Lemma block_bounds (audioBuffer : list R) (i blockSize : Z) (x : R) :
  (Fin (sumSquares audioBuffer i blockSize) / Fin (IZR blockSize))%num = Fin x ->
  Forall inRange audioBuffer -> x <= 1.
Proof.
  unfold div. intros Hx Hall.
  destruct (Req_dec_T (IZR blockSize) 0) as [Hz | Hnz].
  - rewrite (Reqb_true _ _ Hz) in Hx.
    apply eq_IZR_R0 in Hz. subst blockSize.
    rewrite sumSquares_zero_size, Reqb_true in Hx by reflexivity. discriminate.
  - rewrite Reqb_false in Hx by assumption. injection Hx as <-.
    set (block := firstn (Z.to_nat blockSize) (skipn (Z.to_nat i) audioBuffer)).
    assert (Hblock : Forall inRange block).
    { apply Forall_forall. intros s Hs. rewrite Forall_forall in Hall.
      apply Hall. apply in_firstn in Hs. now apply in_skipn in Hs. }
    destruct (sumSquares_fold_bounds block 0 (Rle_refl 0)) as [Hlo Hhi].
    specialize (Hhi Hblock).
    change (sumSquares audioBuffer i blockSize)
      with (fold_left (fun sum s => sum + s * s) block 0).
    assert (Hlen : (length block <= Z.to_nat blockSize)%nat)
      by (unfold block; apply firstn_le_length).
    destruct (Z_lt_le_dec blockSize 0) as [Hneg | Hpos].
    + assert (Hs0 : fold_left (fun sum s => sum + s * s) block 0 = 0).
      { unfold block. replace (Z.to_nat blockSize) with O by lia. reflexivity. }
      rewrite Hs0. unfold Rdiv. rewrite Rmult_0_l. lra.
    + assert (Hb : 0 < IZR blockSize).
      { apply IZR_lt. assert (blockSize <> 0%Z) by (intros ->; now apply Hnz). lia. }
      apply Rmult_le_reg_r with (IZR blockSize); [exact Hb |].
      unfold Rdiv. rewrite Rmult_assoc, Rinv_l by lra.
      assert (INR (length block) <= IZR blockSize).
      { rewrite INR_IZR_INZ. apply IZR_le. lia. }
      lra.
Qed.

Lemma blockLoop_bounds (fuel : nat) (audioBuffer : list R) (blockSize hop i : Z) :
  Forall inRange audioBuffer ->
  forall x, In (Fin x) (blockLoop fuel audioBuffer blockSize hop i) -> x <= 1.
Proof.
  intros Hall. revert i. induction fuel as [|fuel IH]; intros i x; simpl; [tauto |].
  destruct (i <? Z.of_nat (length audioBuffer) - blockSize)%Z; simpl; [| tauto].
  intros [Hx | Hin].
  - now apply (block_bounds audioBuffer i blockSize).
  - now apply (IH (i + hop)%Z).
Qed.

(** The gated mean square once a block survives: the mean of the survivors. *)
Lemma survivors_mean_square (audioBuffer : list R) (sampleRate : R) :
  survivingBlocks audioBuffer sampleRate <> [] ->
  exists ys,
    ys <> []
    /\ survivingBlocks audioBuffer sampleRate = map Fin ys
    /\ Forall (fun y => absoluteGate <= y) ys
    /\ calculateMeanSquareWithGating audioBuffer sampleRate
       = Fin (sumR ys / INR (length ys)).
Proof.
  unfold survivingBlocks. intros Hs.
  destruct (gatedOf_finite (blocksOf audioBuffer sampleRate)) as [xs [Hxs Hall]].
  { apply blockLoop_plain. }
  rewrite Hxs in Hs |- *.
  assert (Hxne : xs <> []) by (intros ->; now apply Hs).
  assert (Hbne : blocksOf audioBuffer sampleRate <> []).
  { intros E. rewrite E in Hxs. destruct xs; [congruence | discriminate]. }
  unfold finalBlocksOf in Hs |- *. rewrite filter_Fin in Hs |- *.
  set (ys := filter _ xs) in Hs |- *.
  assert (Hys : Forall (fun x => absoluteGate <= x) ys).
  { apply Forall_forall. intros y Hy. apply filter_In in Hy.
    rewrite Forall_forall in Hall. now apply Hall. }
  assert (Hne : ys <> []) by (intros E; rewrite E in Hs; now apply Hs).
  exists ys. split; [exact Hne |]. split; [reflexivity |]. split; [exact Hys |].
  unfold calculateMeanSquareWithGating.
  rewrite match_nonempty by exact Hbne. rewrite Hxs.
  rewrite match_nonempty by (now apply map_Fin_nonempty).
  unfold finalBlocksOf. rewrite filter_Fin. fold ys.
  rewrite match_nonempty by (now apply map_Fin_nonempty).
  now apply avgOf_finite.
Qed.

(** A positive gated mean square on the LUFS scale. *)
Lemma loudness_of_mean_square (audioBuffer : list R) (sampleRate m : R) :
  audioBuffer <> [] ->
  calculateMeanSquareWithGating audioBuffer sampleRate = Fin m ->
  0 < m ->
  calculateLUFS audioBuffer sampleRate = Fin (-0.691 + 10 * (ln m / ln 10)).
Proof.
  intros Hbuf Hms Hpos.
  unfold calculateLUFS. rewrite match_nonempty by exact Hbuf.
  rewrite Hms. cbn [strictEq]. rewrite Reqb_false by lra.
  cbn [log10]. rewrite Rltb_false by lra. rewrite Reqb_false by lra.
  reflexivity.
Qed.

Lemma mean_above_gate (ys : list R) :
  ys <> [] -> Forall (fun y => absoluteGate <= y) ys ->
  absoluteGate <= sumR ys / INR (length ys).
Proof.
  intros Hne Hys.
  assert (Hn : 0 < INR (length ys)).
  { apply lt_0_INR. destruct ys; [congruence | simpl; lia]. }
  assert (Hlow := sumR_lower ys absoluteGate Hys).
  apply Rmult_le_reg_r with (INR (length ys)); [exact Hn |].
  unfold Rdiv. rewrite Rmult_assoc, Rinv_l by lra. lra.
Qed.

(** X2: once a block survives the two gates, the loudness is finite: it is
    the mean of the surviving blocks, each at least the absolute gate, put on
    the LUFS scale. *)
Theorem loudness_of_survivors (audioBuffer : list R) (sampleRate : R) :
  audioBuffer <> [] ->
  survivingBlocks audioBuffer sampleRate <> [] ->
  exists ys,
    ys <> []
    /\ survivingBlocks audioBuffer sampleRate = map Fin ys
    /\ Forall (fun y => absoluteGate <= y) ys
    /\ calculateLUFS audioBuffer sampleRate
       = Fin (-0.691 + 10 * (ln (sumR ys / INR (length ys)) / ln 10)).
Proof.
  intros Hbuf Hs.
  destruct (survivors_mean_square audioBuffer sampleRate Hs)
    as [ys [Hne [Hmap [Hys Hms]]]].
  exists ys. split; [exact Hne |]. split; [exact Hmap |]. split; [exact Hys |].
  apply loudness_of_mean_square; [exact Hbuf | exact Hms |].
  pose proof (mean_above_gate ys Hne Hys) as Hmean.
  pose proof absoluteGate_pos as Hg. lra.
Qed.

Lemma sumR_upper (xs : list R) (g : R) :
  Forall (fun x => x <= g) xs -> sumR xs <= INR (length xs) * g.
Proof.
  induction 1 as [|x xs Hx _ IH].
  - unfold sumR. simpl. lra.
  - rewrite sumR_cons. change (length (x :: xs)) with (S (length xs)).
    rewrite S_INR. lra.
Qed.

(** X1: the loudness of a buffer is [-Infinity] or a finite number, never
    below -70.691 (what the absolute gate lets through), and never above
    -0.691 when the samples lie in [-1, 1]. *)
Theorem calculateLUFS_range :
  forall (audioBuffer : list R) (sampleRate : R),
    calculateLUFS audioBuffer sampleRate = NegInf
    \/ exists l,
         calculateLUFS audioBuffer sampleRate = Fin l
         /\ -70.691 <= l
         /\ (Forall inRange audioBuffer -> l <= -0.691).
Proof.
  intros audioBuffer sampleRate.
  destruct audioBuffer as [|s0 rest]; [now left |].
  destruct (survivingBlocks (s0 :: rest) sampleRate) as [|b bs] eqn:Hs.
  { left. now apply no_survivors_silence. }
  right.
  destruct (survivors_mean_square (s0 :: rest) sampleRate)
    as [ys [Hne [Hmap [Hys Hms]]]]; [rewrite Hs; discriminate |].
  assert (Hn : 0 < INR (length ys)).
  { apply lt_0_INR. destruct ys; [congruence | simpl; lia]. }
  assert (Hg := absoluteGate_pos).
  assert (Hmean := mean_above_gate ys Hne Hys).
  eexists. split.
  { apply loudness_of_mean_square; [discriminate | exact Hms | lra]. }
  split.
  - pose proof (log10_monotone _ _ Hg Hmean) as Hlog.
    unfold absoluteGate in Hlog at 1. rewrite log10_Rpower in Hlog. lra.
  - intros Hall.
    assert (Hup : Forall (fun y => y <= 1) ys).
    { apply Forall_forall. intros y Hy.
      assert (Hin : In (Fin y) (survivingBlocks (s0 :: rest) sampleRate)).
      { rewrite Hmap. now apply in_map. }
      unfold survivingBlocks, finalBlocksOf, gatedOf in Hin.
      apply filter_In in Hin. destruct Hin as [Hin _].
      apply filter_In in Hin. destruct Hin as [Hin _].
      unfold blocksOf in Hin. revert Hin. now apply blockLoop_bounds. }
    pose proof (sumR_upper ys 1 Hup) as Hsum.
    assert (Hmean1 : sumR ys / INR (length ys) <= 1).
    { apply Rmult_le_reg_r with (INR (length ys)); [exact Hn |].
      unfold Rdiv. rewrite Rmult_assoc, Rinv_l by lra. lra. }
    assert (Hpos : 0 < sumR ys / INR (length ys)) by lra.
    pose proof (log10_monotone _ _ Hpos Hmean1) as Hlog.
    rewrite ln_1 in Hlog.
    replace (0 / ln 10) with 0 in Hlog by (unfold Rdiv; now rewrite Rmult_0_l).
    lra.
Qed.

End LufsExtra.

(** ** Further properties of the normaliser and the noise floor *)

Module NormalizerExtra.
Import JsNum JsNumFacts Lufs LufsFacts Terms Cases LufsSpec LufsExtra.

Lemma Rpower_10_zero : Rpower 10 0 = 1.
Proof. apply Rpower_O. lra. Qed.



(** X4: a buffer in [-1, 1] whose loudness already is the target comes back
    unchanged, with gain 0 dB and linear gain 1. *)
Theorem normalizeToLUFS_at_target :
  forall (audioBuffer : list R) (sampleRate targetLUFS : R),
    calculateLUFS audioBuffer sampleRate = Fin targetLUFS ->
    Forall inRange audioBuffer ->
    let r := normalizeToLUFS audioBuffer sampleRate targetLUFS in
    normalized r = audioBuffer /\ gainDB r = 0 /\ gainLinear r = 1.
Proof.
  intros audioBuffer sampleRate targetLUFS Hl Hall. cbv zeta.
  unfold normalizeToLUFS. rewrite Hl. cbn [normalized gainDB gainLinear].
  assert (Hg : Rpower 10 ((targetLUFS - targetLUFS) / 20) = 1).
  { replace ((targetLUFS - targetLUFS) / 20) with 0 by lra. apply Rpower_10_zero. }
  rewrite Hg. split; [| split; [lra | reflexivity]].
  clear Hl Hg. induction Hall as [|s l Hs _ IH]; simpl; [reflexivity |].
  rewrite IH. f_equal. unfold clip, Rmax, Rmin, inRange in *.
  destruct (Rle_dec 1 (s * 1)); destruct (Rle_dec (-1) _); lra.
Qed.

Lemma normalizeToLUFS_at_target_witness :
  let r := normalizeToLUFS [1; 1; 1; 1; 0] 10 (-0.691) in
  normalized r = [1; 1; 1; 1; 0] /\ gainDB r = 0 /\ gainLinear r = 1.
Proof.
  apply (normalizeToLUFS_at_target [1; 1; 1; 1; 0] 10 (-0.691)).
  - apply loud_block_loudness.
  - repeat constructor; unfold inRange; lra.
Defined.

(** The level in dB of a non-empty run of samples, as [calculateNoiseFloor]
    and [calculateSegmentDb] compute it: at least -200, and at most 0 for
    samples in [-1, 1]. *)
Lemma level_bounds (samples : list R) :
  samples <> [] ->
  exists x,
    (Fin 20 * log10 (max (sqrt (Fin (fold_left (fun sum s => (sum + s * s)%R)
                                               samples 0%R)
                                / Fin (INR (length samples))))
                         (Fin 1e-10)))%num = Fin x
    /\ -200 <= x
    /\ (Forall inRange samples -> x <= 0).
Proof.
  intros Hne.
  assert (Hn : 0 < INR (length samples)).
  { apply lt_0_INR. destruct samples; [congruence | simpl; lia]. }
  destruct (sumSquares_fold_bounds samples 0 (Rle_refl 0)) as [Hlo Hhi].
  set (sum := fold_left _ samples 0) in *.
  assert (Hms : 0 <= sum / INR (length samples)).
  { apply Rmult_le_reg_r with (INR (length samples)); [exact Hn |].
    unfold Rdiv. rewrite Rmult_assoc, Rinv_l by lra. lra. }
  unfold div. rewrite Reqb_false by lra.
  unfold sqrt. rewrite Rltb_false by exact Hms.
  set (rms := R_sqrt.sqrt (sum / INR (length samples))).
  assert (Hrms : 0 <= rms) by apply sqrt_pos.
  assert (Hmax : max (Fin rms) (Fin 1e-10) = Fin (Rmax rms 1e-10)).
  { unfold max, lt, Rltb, Rmax.
    destruct (Rlt_dec rms 1e-10); destruct (Rle_dec rms 1e-10);
      try reflexivity; try lra.
    f_equal. lra. }
  rewrite Hmax.
  assert (Hfloor : 1e-10 <= Rmax rms 1e-10) by apply Rmax_r.
  unfold log10. rewrite Rltb_false by lra. rewrite Reqb_false by lra.
  cbn [mul]. eexists. split; [reflexivity |].
  assert (Hten : 1e-10 = Rpower 10 (-10)).
  { replace (Rpower 10 (-10)) with (Rpower 10 (- INR 10))
      by (f_equal; simpl; lra).
    rewrite Rpower_Ropp, Rpower_pow by lra. simpl. lra. }
  split.
  - assert (H := log10_monotone 1e-10 (Rmax rms 1e-10) ltac:(lra) Hfloor).
    rewrite Hten in H at 1. rewrite log10_Rpower in H. lra.
  - intros Hall. specialize (Hhi Hall).
    assert (Hms1 : sum / INR (length samples) <= 1).
    { apply Rmult_le_reg_r with (INR (length samples)); [exact Hn |].
      unfold Rdiv. rewrite Rmult_assoc, Rinv_l by lra. lra. }
    assert (Hrms1 : rms <= 1).
    { unfold rms. rewrite <- sqrt_1. now apply sqrt_le_1_alt. }
    assert (Hmax1 : Rmax rms 1e-10 <= 1) by (apply Rmax_lub; lra).
    assert (H := log10_monotone (Rmax rms 1e-10) 1 ltac:(lra) Hmax1).
    rewrite ln_1 in H.
    replace (0 / ln 10) with 0 in H by (unfold Rdiv; now rewrite Rmult_0_l).
    lra.
Qed.

Lemma floor_positive (x : R) : 1 <= x -> (1 <= floor x)%Z.
Proof.
  intros Hx. destruct (floor_bounds x) as [_ Hhi].
  assert (H : (0 < floor x)%Z) by (apply lt_IZR; lra).
  lia.
Qed.

(** X5: [calculateNoiseFloor] is [-Infinity] for an empty buffer and for a
    sample rate below 10 Hz (no sample in the first 100 ms); for a non-empty
    buffer at 10 Hz or more it is finite, at least -200 dB, and at most 0 dB
    when the samples lie in [-1, 1]. *)
Theorem calculateNoiseFloor_range :
  forall (audioBuffer : list R) (sampleRate : R),
    (audioBuffer = [] \/ 0 <= sampleRate < 10 ->
     calculateNoiseFloor audioBuffer sampleRate = NegInf)
    /\ (audioBuffer <> [] -> 10 <= sampleRate ->
        exists x,
          calculateNoiseFloor audioBuffer sampleRate = Fin x
          /\ -200 <= x
          /\ (Forall inRange audioBuffer -> x <= 0)).
Proof.
  intros audioBuffer sampleRate. split.
  - intros [-> | Hrate].
    { unfold calculateNoiseFloor, slice. now rewrite skipn_nil, firstn_nil. }
    unfold calculateNoiseFloor.
    replace (floor (sampleRate * 0.1)) with 0%Z
      by (symmetry; apply floor_eq; lra).
    replace (slice audioBuffer 0 (Z.min 0 (Z.of_nat (length audioBuffer))))
      with (@nil R); [reflexivity |].
    unfold slice, sliceIndex. simpl.
    replace (Z.min 0 (Z.of_nat (length audioBuffer))) with 0%Z by lia.
    simpl. replace (Z.to_nat (Z.min 0 (Z.of_nat (length audioBuffer)))) with O by lia.
    reflexivity.
  - intros Hne Hrate. unfold calculateNoiseFloor.
    pose proof (floor_positive (sampleRate * 0.1) ltac:(lra)) as Hframe.
    set (frameSamples := floor (sampleRate * 0.1)) in *.
    set (segment := slice audioBuffer 0 _).
    assert (Hseg : segment
                   = firstn (Z.to_nat (Z.min frameSamples (Z.of_nat (length audioBuffer))))
                            audioBuffer).
    { unfold segment, slice, sliceIndex.
      assert (Hlen : (1 <= Z.of_nat (length audioBuffer))%Z).
      { destruct audioBuffer; [congruence | simpl length; lia]. }
      replace (Z.min frameSamples (Z.of_nat (length audioBuffer)) <? 0)%Z
        with false by (symmetry; apply Z.ltb_ge; lia).
      change (0 <? 0)%Z with false. cbv iota.
      replace (Z.to_nat (Z.min 0 (Z.of_nat (length audioBuffer)))) with O by lia.
      rewrite Nat.sub_0_r. cbn [skipn]. f_equal. lia. }
    assert (Hsne : segment <> []).
    { rewrite Hseg. destruct audioBuffer as [|s l]; [congruence |].
      assert (Hk : exists k, Z.to_nat (Z.min frameSamples (Z.of_nat (length (s :: l))))
                             = S k).
      { exists (Nat.pred (Z.to_nat (Z.min frameSamples (Z.of_nat (length (s :: l)))))).
        simpl length. lia. }
      destruct Hk as [k ->]. discriminate. }
    destruct (level_bounds segment Hsne) as [x [Hx [Hlo Hhi]]].
    exists x. rewrite match_nonempty by exact Hsne.
    split; [exact Hx |]. split; [exact Hlo |].
    intros Hall. apply Hhi. rewrite Hseg.
    apply Forall_forall. intros s Hs. apply in_firstn in Hs.
    rewrite Forall_forall in Hall. now apply Hall.
Qed.

Lemma calculateNoiseFloor_range_witness :
  calculateNoiseFloor [] 16000 = NegInf
  /\ exists x, calculateNoiseFloor [0.5; -0.5] 16000 = Fin x /\ -200 <= x /\ x <= 0.
Proof.
  split.
  - apply (proj1 (calculateNoiseFloor_range [] 16000)). now left.
  - destruct (proj2 (calculateNoiseFloor_range [0.5; -0.5] 16000))
      as [x [Hx [Hlo Hhi]]]; [discriminate | lra |].
    exists x. split; [exact Hx |]. split; [exact Hlo |].
    apply Hhi. repeat constructor; unfold inRange; lra.
Defined.

End NormalizerExtra.

(** ** The profile store *)

Module StoreExtra.
Import JsNum JsNumFacts Lufs LufsFacts Terms Cases StoreFacts StoreSpec.

Lemma lookup_upsert_other (p : CalibrationProfile) (profiles : list CalibrationProfile)
      (id : string) :
  id <> deviceId p -> lookup id (upsert p profiles) = lookup id profiles.
Proof.
  intros Hne. unfold lookup.
  assert (Hp : String.eqb (deviceId p) id = false).
  { apply String.eqb_neq. congruence. }
  induction profiles as [|q rest IH]; simpl.
  - now rewrite Hp.
  - destruct (String.eqb_spec (deviceId q) (deviceId p)) as [Hq | Hq]; simpl.
    + rewrite Hp. rewrite Hq. now rewrite Hp.
    + destruct (String.eqb (deviceId q) id); [reflexivity | exact IH].
Qed.

Lemma upsert_length (p : CalibrationProfile) (profiles : list CalibrationProfile) :
  length (upsert p profiles)
  = match lookup (deviceId p) profiles with
    | Some _ => length profiles
    | None => S (length profiles)
    end.
Proof.
  unfold lookup. induction profiles as [|q rest IH]; simpl; [reflexivity |].
  destruct (String.eqb (deviceId q) (deviceId p)); simpl; [reflexivity |].
  rewrite IH. now destruct (find _ rest).
Qed.

Lemma upsert_ids (p : CalibrationProfile) (profiles : list CalibrationProfile) :
  map deviceId (upsert p profiles)
  = if in_dec string_dec (deviceId p) (map deviceId profiles)
    then map deviceId profiles
    else map deviceId profiles ++ [deviceId p].
Proof.
  induction profiles as [|q rest IH]; simpl; [reflexivity |].
  destruct (String.eqb_spec (deviceId q) (deviceId p)) as [Hq | Hq]; simpl.
  - rewrite Hq. destruct (string_dec (deviceId p) (deviceId p)); [| congruence].
    reflexivity.
  - rewrite IH. destruct (string_dec (deviceId q) (deviceId p)); [contradiction |].
    destruct (in_dec string_dec (deviceId p) (map deviceId rest)); reflexivity.
Qed.

Lemma upsert_NoDup (p : CalibrationProfile) (profiles : list CalibrationProfile) :
  NoDup (map deviceId profiles) -> NoDup (map deviceId (upsert p profiles)).
Proof.
  intros Hnd. rewrite upsert_ids.
  destruct (in_dec string_dec (deviceId p) (map deviceId profiles)) as [Hin | Hout];
    [assumption |].
  apply NoDup_app; [assumption | repeat constructor; simpl; tauto |].
  intros x Hx [<- | []]. contradiction.
Qed.

Lemma filter_ids (f : string -> bool) (profiles : list CalibrationProfile) :
  map deviceId (filter (fun p => f (deviceId p)) profiles)
  = filter f (map deviceId profiles).
Proof.
  induction profiles as [|q rest IH]; simpl; [reflexivity |].
  destruct (f (deviceId q)); simpl; now rewrite IH.
Qed.

Lemma save_world (p : CalibrationProfile) (w : World) :
  profilesOf (snd (saveCalibrationProfile p w)) = upsert p (profilesOf w)
  /\ clock (snd (saveCalibrationProfile p w)) = clock w
  /\ reads (snd (saveCalibrationProfile p w)) = reads w.
Proof. rewrite saveCalibrationProfile_run. repeat split. Qed.


Lemma getCalibrationProfile_world (id : string) (w : World) :
  profilesOf (snd (getCalibrationProfile id w))
  = match lookup id (profilesOf w) with
    | Some p => upsert (withLastUsed p (clock w (reads w))) (profilesOf w)
    | None => profilesOf w
    end.
Proof.
  destruct (lookup id (profilesOf w)) as [p|] eqn:Hfind.
  - now rewrite (getCalibrationProfile_found id w p Hfind).
  - now rewrite (getCalibrationProfile_missing id w Hfind).
Qed.

Lemma trackRecording_missing (id : string) (stats : Measured.t) (w : World) :
  lookup id (profilesOf w) = None -> trackRecording id stats w = (tt, w).
Proof.
  intros Hfind. unfold trackRecording, bind.
  now rewrite (getCalibrationProfile_missing id w Hfind).
Qed.

Lemma trackRecording_ids (id : string) (stats : Measured.t) (w : World) :
  NoDup (deviceIds w) -> NoDup (deviceIds (snd (trackRecording id stats w))).
Proof.
  intros Hnd. destruct (lookup id (profilesOf w)) as [p|] eqn:Hfind.
  - rewrite (trackRecording_run id stats w p Hfind). unfold deviceIds.
    cbn [snd]. unfold profilesOf at 1. cbn [profilesItem].
    now do 2 apply upsert_NoDup.
  - now rewrite (trackRecording_missing id stats w Hfind).
Qed.

Lemma getCalibrationProfile_ids (id : string) (w : World) :
  NoDup (deviceIds w) -> NoDup (deviceIds (snd (getCalibrationProfile id w))).
Proof.
  intros Hnd. unfold deviceIds. rewrite getCalibrationProfile_world.
  destruct (lookup id (profilesOf w)); [now apply upsert_NoDup | assumption].
Qed.

(** The world [calibrateAndNormalize] leaves: the one after a lookup and a
    [trackRecording] for the device, or the one it found. *)
Lemma calibrateAndNormalize_world (audioBuffer : list R) (sampleRate : R)
      (id : option string) (targetLUFS : R) (w : World) :
  match nonEmpty id with
  | Some d =>
      exists stats,
        snd (calibrateAndNormalize audioBuffer sampleRate id targetLUFS w)
        = snd (trackRecording d stats (snd (getCalibrationProfile d w)))
  | None => snd (calibrateAndNormalize audioBuffer sampleRate id targetLUFS w) = w
  end.
Proof.
  unfold calibrateAndNormalize, bind.
  destruct (nonEmpty id) as [d|]; [| reflexivity].
  destruct (getCalibrationProfile d w) as [found w1].
  destruct found as [profile|].
  - destruct (Reqb (gainAdjustment profile) 1); unfold ret at 1;
      match goal with |- context [trackRecording d ?s w1] => exists s end;
      cbn [snd]; destruct (trackRecording d _ w1) as [u w2]; reflexivity.
  - unfold ret at 1.
    match goal with |- context [trackRecording d ?s w1] => exists s end.
    cbn [snd]. destruct (trackRecording d _ w1) as [u w2]. reflexivity.
Qed.

(** X7: when no two stored profiles share a device id, none do after
    [saveCalibrationProfile], [getCalibrationProfile],
    [deleteCalibrationProfile], [trackRecording] or [calibrateAndNormalize],
    whatever their arguments. *)
Theorem store_unique_devices :
  forall (w : World),
    NoDup (deviceIds w) ->
    (forall p, NoDup (deviceIds (snd (saveCalibrationProfile p w))))
    /\ (forall id, NoDup (deviceIds (snd (getCalibrationProfile id w))))
    /\ (forall id, NoDup (deviceIds (snd (deleteCalibrationProfile id w))))
    /\ (forall id stats, NoDup (deviceIds (snd (trackRecording id stats w))))
    /\ (forall audioBuffer sampleRate id targetLUFS,
           NoDup (deviceIds
                    (snd (calibrateAndNormalize audioBuffer sampleRate id targetLUFS w)))).
Proof.
  intros w Hnd. repeat split.
  - intros p. unfold deviceIds. rewrite (proj1 (save_world p w)).
    now apply upsert_NoDup.
  - intros id. now apply getCalibrationProfile_ids.
  - intros id. unfold deviceIds.
    change (profilesOf (snd (deleteCalibrationProfile id w)))
      with (filter (fun p => negb (String.eqb (deviceId p) id)) (profilesOf w)).
    rewrite (filter_ids (fun d => negb (String.eqb d id))).
    now apply NoDup_filter.
  - intros id stats. now apply trackRecording_ids.
  - intros audioBuffer sampleRate id targetLUFS.
    pose proof (calibrateAndNormalize_world audioBuffer sampleRate id targetLUFS w)
      as Hw.
    destruct (nonEmpty id) as [d|]; [| now rewrite Hw].
    destruct Hw as [stats ->].
    apply trackRecording_ids. now apply getCalibrationProfile_ids.
Qed.

Lemma profilesOf_stored (profiles : list CalibrationProfile) (c : nat -> Z) (n : nat) :
  profilesOf {| profilesItem := Some profiles; clock := c; reads := n |} = profiles.
Proof. reflexivity. Qed.

(** A lookup that finds a profile: what it returns and what it stores. *)
Lemma getCalibrationProfile_stored (id : string) (w : World) (p : CalibrationProfile) :
  lookup id (profilesOf w) = Some p ->
  let touched := withLastUsed p (clock w (reads w)) in
  let w' := snd (getCalibrationProfile id w) in
  fst (getCalibrationProfile id w) = Some touched
  /\ lookup id (profilesOf w') = Some touched
  /\ (forall other, other <> id ->
                    lookup other (profilesOf w') = lookup other (profilesOf w))
  /\ length (profilesOf w') = length (profilesOf w)
  /\ reads w' = S (reads w) /\ clock w' = clock w.
Proof.
  intros Hfind. cbv zeta.
  assert (Hid := lookup_deviceId _ _ _ Hfind).
  rewrite (getCalibrationProfile_found id w p Hfind). cbn [fst snd].
  rewrite !profilesOf_stored.
  split; [reflexivity |]. split; [| split; [| split; [| split; reflexivity]]].
  - replace id with (deviceId (withLastUsed p (clock w (reads w)))) at 1
      by exact Hid.
    apply lookup_upsert.
  - intros other Hne. apply lookup_upsert_other. cbn [deviceId withLastUsed].
    congruence.
  - rewrite upsert_length. cbn [deviceId withLastUsed]. rewrite Hid.
    now rewrite Hfind.
Qed.

(** X8: [getCalibrationProfile] on a device id that is not stored returns
    null and leaves storage and the clock untouched; on a stored one it reads
    the clock once, returns the stored profile with only [lastUsed] replaced
    by that reading, stores it under the same id, and changes neither the
    number of profiles nor what is found under any other id. *)
Theorem getCalibrationProfile_frame :
  forall (id : string) (w : World),
    let found := fst (getCalibrationProfile id w) in
    let w' := snd (getCalibrationProfile id w) in
    match lookup id (profilesOf w) with
    | None => found = None /\ w' = w
    | Some p =>
        found = Some (withLastUsed p (clock w (reads w)))
        /\ lookup id (profilesOf w') = found
        /\ (forall other, other <> id ->
                          lookup other (profilesOf w') = lookup other (profilesOf w))
        /\ length (profilesOf w') = length (profilesOf w)
        /\ reads w' = S (reads w) /\ clock w' = clock w
    end.
Proof.
  intros id w. cbv zeta.
  destruct (lookup id (profilesOf w)) as [p|] eqn:Hfind.
  - destruct (getCalibrationProfile_stored id w p Hfind)
      as [Hfound [Hlook [Hothers [Hlen [Hreads Hclock]]]]].
    rewrite Hfound. repeat split; assumption.
  - now rewrite (getCalibrationProfile_missing id w Hfind).
Qed.

(** A recording tracked for a stored device: what is kept of its profile. *)
Lemma trackRecording_stored (id : string) (stats : Measured.t) (w : World)
      (p : CalibrationProfile) :
  lookup id (profilesOf w) = Some p ->
  let w' := snd (trackRecording id stats w) in
  (exists p',
      lookup id (profilesOf w') = Some p'
      /\ deviceLabel p' = deviceLabel p
      /\ noiseFloor p' = noiseFloor p
      /\ referenceLevel p' = referenceLevel p
      /\ gainAdjustment p' = gainAdjustment p
      /\ createdAt p' = createdAt p
      /\ lastUsed p' = clock w (reads w))
  /\ (forall other, other <> id ->
                    lookup other (profilesOf w') = lookup other (profilesOf w))
  /\ length (profilesOf w') = length (profilesOf w)
  /\ reads w' = S (S (reads w)) /\ clock w' = clock w.
Proof.
  intros Hfind. cbv zeta.
  assert (Hid := lookup_deviceId _ _ _ Hfind).
  rewrite (trackRecording_run id stats w p Hfind). cbn [snd].
  set (touched := withLastUsed p (clock w (reads w))).
  set (saved := withHistory touched _).
  rewrite !profilesOf_stored.
  assert (Hsaved : deviceId saved = id) by exact Hid.
  assert (Htouched : deviceId touched = id) by exact Hid.
  split; [| split; [| split; [| split; reflexivity]]].
  - exists saved. split; [| repeat split].
    rewrite <- Hsaved at 1. apply lookup_upsert.
  - intros other Hne.
    rewrite lookup_upsert_other by congruence.
    apply lookup_upsert_other. congruence.
  - rewrite upsert_length, Hsaved.
    rewrite <- Htouched at 1. rewrite lookup_upsert.
    rewrite upsert_length, Htouched. now rewrite Hfind.
Qed.

(** X9: [trackRecording] on a device id that is not stored changes nothing;
    on a stored one it reads the clock twice, keeps the profile's label,
    noise floor, reference level, gain adjustment and creation time, sets
    [lastUsed] to the first reading, and changes neither the number of
    profiles nor what is found under any other id. *)
Theorem trackRecording_frame :
  forall (id : string) (stats : Measured.t) (w : World),
    let w' := snd (trackRecording id stats w) in
    match lookup id (profilesOf w) with
    | None => w' = w
    | Some p =>
        (exists p',
            lookup id (profilesOf w') = Some p'
            /\ deviceLabel p' = deviceLabel p
            /\ noiseFloor p' = noiseFloor p
            /\ referenceLevel p' = referenceLevel p
            /\ gainAdjustment p' = gainAdjustment p
            /\ createdAt p' = createdAt p
            /\ lastUsed p' = clock w (reads w))
        /\ (forall other, other <> id ->
                          lookup other (profilesOf w') = lookup other (profilesOf w))
        /\ length (profilesOf w') = length (profilesOf w)
        /\ reads w' = S (S (reads w)) /\ clock w' = clock w
    end.
Proof.
  intros id stats w. cbv zeta.
  destruct (lookup id (profilesOf w)) as [p|] eqn:Hfind.
  - exact (trackRecording_stored id stats w p Hfind).
  - now rewrite (trackRecording_missing id stats w Hfind).
Qed.

Lemma filter_upsert (id : string) (p : CalibrationProfile)
      (profiles : list CalibrationProfile) :
  deviceId p = id ->
  filter (fun q => negb (String.eqb (deviceId q) id)) (upsert p profiles)
  = filter (fun q => negb (String.eqb (deviceId q) id)) profiles.
Proof.
  intros Hid. induction profiles as [|q rest IH]; simpl.
  - now rewrite Hid, String.eqb_refl.
  - rewrite Hid. destruct (String.eqb_spec (deviceId q) id) as [Hq | Hq]; simpl.
    + now rewrite Hid, String.eqb_refl.
    + rewrite (proj2 (String.eqb_neq _ _) Hq). simpl. now rewrite IH.
Qed.

Lemma filter_missing (id : string) (profiles : list CalibrationProfile) :
  lookup id profiles = None ->
  filter (fun q => negb (String.eqb (deviceId q) id)) profiles = profiles.
Proof.
  unfold lookup. induction profiles as [|q rest IH]; simpl; [reflexivity |].
  destruct (String.eqb (deviceId q) id); [discriminate |].
  intros H. simpl. now rewrite IH.
Qed.

Lemma delete_world (id : string) (w : World) :
  profilesOf (snd (deleteCalibrationProfile id w))
  = filter (fun q => negb (String.eqb (deviceId q) id)) (profilesOf w).
Proof. reflexivity. Qed.

(** X10: deleting a device id twice leaves storage as deleting it once;
    deleting an id that is not stored keeps the list of profiles; deleting
    after saving a profile of that id leaves the same profiles as deleting
    without the save; and after a delete [getCalibrationProfile] returns
    null for the id. *)
Theorem deleteCalibrationProfile_laws :
  forall (id : string) (w : World),
    profilesOf (snd (deleteCalibrationProfile id (snd (deleteCalibrationProfile id w))))
    = profilesOf (snd (deleteCalibrationProfile id w))
    /\ (lookup id (profilesOf w) = None ->
        profilesOf (snd (deleteCalibrationProfile id w)) = profilesOf w)
    /\ (forall p, deviceId p = id ->
          profilesOf (snd (deleteCalibrationProfile id (snd (saveCalibrationProfile p w))))
          = profilesOf (snd (deleteCalibrationProfile id w)))
    /\ fst (getCalibrationProfile id (snd (deleteCalibrationProfile id w))) = None.
Proof.
  intros id w.
  assert (Hgone : lookup id (profilesOf (snd (deleteCalibrationProfile id w))) = None).
  { rewrite delete_world. unfold lookup.
    destruct (find _ _) as [p|] eqn:Hfind; [| reflexivity].
    apply find_some in Hfind. destruct Hfind as [Hin Hid].
    apply filter_In in Hin. destruct Hin as [_ Hkeep].
    rewrite Hid in Hkeep. discriminate. }
  split; [| split; [| split]].
  - rewrite (delete_world id (snd (deleteCalibrationProfile id w))).
    now apply filter_missing.
  - intros Hfind. rewrite delete_world. now apply filter_missing.
  - intros p Hid. rewrite (delete_world id (snd (saveCalibrationProfile p w))).
    rewrite (proj1 (save_world p w)), (delete_world id w). now apply filter_upsert.
  - now rewrite getCalibrationProfile_missing.
Qed.

End StoreExtra.

(** ** Recalibration advice *)

Module RecalibrationExtra.
Import JsNum JsNumFacts Lufs LufsFacts Terms Cases StoreFacts StoreSpec RecalibrationSpec
       StoreExtra.






Lemma checkRecalibrationNeeded_store (id : string) (w : World) :
  profilesItem (snd (checkRecalibrationNeeded id w))
  = profilesItem (snd (getCalibrationProfile id w))
  /\ clock (snd (checkRecalibrationNeeded id w)) = clock w
  /\ (reads w <= reads (snd (checkRecalibrationNeeded id w)) <= reads w + 2)%nat.
Proof.
  destruct (lookup id (profilesOf w)) as [p|] eqn:Hfind.
  - unfold checkRecalibrationNeeded, bind.
    rewrite (getCalibrationProfile_found id w p Hfind).
    cbn [recordingHistory withLastUsed createdAt snd].
    destruct (recordingHistory p) as [history|];
      [| cbn [ret snd profilesItem clock reads]; repeat split; lia].
    destruct (length history <? 3)%nat;
      [cbn [ret snd profilesItem clock reads]; repeat split; lia |].
    destruct (Rltb VARIANCE_THRESHOLD _);
      [cbn [ret snd profilesItem clock reads]; repeat split; lia |].
    destruct (Rltb 10 _);
      [cbn [ret snd profilesItem clock reads]; repeat split; lia |].
    unfold dateNow. cbn [clock reads profilesItem].
    destruct (Rltb 30 _); cbn [ret snd profilesItem clock reads]; repeat split; lia.
  - rewrite (checkRecalibrationNeeded_missing id w Hfind).
    rewrite (getCalibrationProfile_missing id w Hfind). cbn [snd].
    repeat split; lia.
Qed.

(** X14: checking a device is not read-only: [checkRecalibrationNeeded]
    and [getRecalibrationStatus] leave storage as one [getCalibrationProfile]
    of the device does, so a stored profile comes back with [lastUsed]
    stamped and its history as it was; the clock is read at most twice. *)
Theorem recalibration_check_touches_store :
  forall (id : string) (w : World),
    let looked := snd (getCalibrationProfile id w) in
    let checked := snd (checkRecalibrationNeeded id w) in
    let reported := snd (getRecalibrationStatus id w) in
    profilesItem checked = profilesItem looked
    /\ reported = checked
    /\ clock checked = clock w
    /\ (reads w <= reads checked <= reads w + 2)%nat
    /\ historyOf checked id = historyOf w id
    /\ (forall p, lookup id (profilesOf w) = Some p ->
                  lookup id (profilesOf checked)
                  = Some (withLastUsed p (clock w (reads w)))).
Proof.
  intros id w. cbv zeta.
  destruct (checkRecalibrationNeeded_store id w) as [Hitem [Hclock Hreads]].
  assert (Hprofiles : profilesOf (snd (checkRecalibrationNeeded id w))
                      = profilesOf (snd (getCalibrationProfile id w))).
  { unfold profilesOf. now rewrite Hitem. }
  split; [exact Hitem |]. split; [| split; [exact Hclock | split; [exact Hreads |]]].
  - unfold getRecalibrationStatus, bind.
    destruct (checkRecalibrationNeeded id w) as [s w']. cbn [snd].
    destruct (negb (shouldRecalibrate s)); [reflexivity |].
    destruct (Rltb 2 (severityOf s)); reflexivity.
  - unfold historyOf. rewrite Hprofiles.
    destruct (lookup id (profilesOf w)) as [p|] eqn:Hfind.
    + destruct (getCalibrationProfile_stored id w p Hfind) as [_ [Hlook _]].
      rewrite Hlook.
      split; [reflexivity |]. intros q Hq. injection Hq as <-. reflexivity.
    + rewrite (getCalibrationProfile_missing id w Hfind). cbn [snd]. rewrite Hfind.
      split; [reflexivity |]. intros q Hq. discriminate.
Qed.

Lemma sumR_map_shift (c : R) (values : list R) :
  sumR (map (fun v => v + c) values) = sumR values + INR (length values) * c.
Proof.
  induction values as [|v rest IH].
  - unfold sumR. simpl. lra.
  - change (map (fun v => v + c) (v :: rest))
      with ((v + c) :: map (fun v => v + c) rest).
    rewrite !sumR_cons, IH. change (length (v :: rest)) with (S (length rest)).
    rewrite S_INR. lra.
Qed.

Lemma sumR_map_scale (k : R) (values : list R) :
  sumR (map (fun v => k * v) values) = k * sumR values.
Proof.
  induction values as [|v rest IH].
  - unfold sumR. simpl. lra.
  - change (map (fun v => k * v) (v :: rest))
      with ((k * v) :: map (fun v => k * v) rest).
    rewrite !sumR_cons, IH. lra.
Qed.

Lemma sumR_squares_nonneg (m : R) (values : list R) :
  0 <= sumR (map (fun v => (v - m) ^ 2) values).
Proof.
  induction values as [|v rest IH].
  - unfold sumR. simpl. lra.
  - change (map (fun v => (v - m) ^ 2) (v :: rest))
      with (((v - m) ^ 2) :: map (fun v => (v - m) ^ 2) rest).
    rewrite sumR_cons. pose proof (pow2_ge_0 (v - m)). lra.
Qed.

(** X13: the deviation [calcStd] is never negative, is unchanged when the
    same offset is added to every value, and is multiplied by [|k|] when
    every value is multiplied by [k]. *)
Theorem calcStd_spread :
  forall (values : list R) (c k : R),
    0 <= calcStd values
    /\ calcStd (map (fun v => v + c) values) = calcStd values
    /\ calcStd (map (fun v => k * v) values) = Rabs k * calcStd values.
Proof.
  intros values c k. unfold calcStd. rewrite !length_map.
  destruct (Nat.ltb_spec (length values) 3) as [Hshort | Hlong].
  - repeat split; lra.
  - assert (Hn : 3 <= INR (length values)).
    { replace 3 with (INR 3) by (simpl; lra). now apply le_INR. }
    split; [apply sqrt_pos |]. split.
    + f_equal. f_equal. rewrite map_map, sumR_map_shift.
      f_equal. apply map_ext. intros v.
      replace ((sumR values + INR (length values) * c) / INR (length values))
        with (sumR values / INR (length values) + c) by (field; lra).
      f_equal. lra.
    + rewrite map_map, sumR_map_scale.
      set (mean := sumR values / INR (length values)).
      replace (k * sumR values / INR (length values)) with (k * mean)
        by (unfold mean; field; lra).
      rewrite (map_ext (fun v => (k * v - k * mean) ^ 2)
                       (fun v => (k * k) * (v - mean) ^ 2))
        by (intros v; ring).
      rewrite <- (map_map (fun v => (v - mean) ^ 2) (fun x => (k * k) * x)).
      rewrite sumR_map_scale.
      replace (k * k * sumR (map (fun v => (v - mean) ^ 2) values)
               / INR (length values))
        with (Rsqr k * (sumR (map (fun v => (v - mean) ^ 2) values)
                        / INR (length values)))
        by (unfold Rsqr; field; lra).
      rewrite sqrt_mult_alt by apply Rle_0_sqr.
      now rewrite sqrt_Rsqr_abs.
Qed.

End RecalibrationExtra.

(** ** Calibrated normalisation *)

Module CalibrationExtra.
Import JsNum JsNumFacts Lufs LufsFacts Terms Cases LufsSpec StoreFacts StoreSpec
       StoreExtra.

Lemma calibrateAndNormalize_found (audioBuffer : list R) (sampleRate targetLUFS : R)
      (d : string) (id : option string) (w : World) (p : CalibrationProfile) :
  nonEmpty id = Some d ->
  lookup d (profilesOf w) = Some p ->
  let processed := calibratedBuffer p audioBuffer in
  calibrateAndNormalize audioBuffer sampleRate id targetLUFS w
  = (outcome audioBuffer processed sampleRate targetLUFS (gainAdjustment p),
     snd (trackRecording d (measurement audioBuffer processed sampleRate targetLUFS)
                         (snd (getCalibrationProfile d w)))).
Proof.
  intros Hid Hfind. cbv zeta.
  unfold calibrateAndNormalize, bind. rewrite Hid.
  rewrite (getCalibrationProfile_found d w p Hfind). cbn [snd].
  cbn [gainAdjustment withLastUsed]. unfold calibratedBuffer, outcome, measurement.
  destruct (Req_dec_T (gainAdjustment p) 1) as [Hone | Hgain].
  - rewrite (Reqb_true _ _ Hone). unfold ret at 1.
    destruct (trackRecording d _ _) as [u w2].
    unfold ret. cbn [snd]. now rewrite Hone.
  - rewrite (Reqb_false _ _ Hgain). unfold ret at 1.
    destruct (trackRecording d _ _) as [u w2]. reflexivity.
Qed.

Lemma calibrateAndNormalize_plain (audioBuffer : list R) (sampleRate targetLUFS : R)
      (id : option string) (w : World) :
  (nonEmpty id = None
   \/ exists d, nonEmpty id = Some d /\ lookup d (profilesOf w) = None) ->
  calibrateAndNormalize audioBuffer sampleRate id targetLUFS w
  = (outcome audioBuffer audioBuffer sampleRate targetLUFS 1, w).
Proof.
  intros [Hnone | [d [Hid Hfind]]]; unfold calibrateAndNormalize, bind.
  - rewrite Hnone. reflexivity.
  - rewrite Hid. rewrite (getCalibrationProfile_missing d w Hfind).
    unfold ret at 1. rewrite (trackRecording_missing d _ w Hfind). reflexivity.
Qed.

(** X15: without a device id, with the empty id, or with an id that has no
    stored profile, [calibrateAndNormalize] leaves storage and the clock
    untouched and returns what [normalizeToLUFS] gives for the input: device
    gain 1, and the calibrated loudness equal to the original one. *)
Theorem calibrateAndNormalize_without_profile :
  forall (audioBuffer : list R) (sampleRate targetLUFS : R)
         (id : option string) (w : World),
    (id = None \/ id = Some EmptyString
     \/ exists d, id = Some d /\ lookup d (profilesOf w) = None) ->
    let result := normalizeToLUFS audioBuffer sampleRate targetLUFS in
    let out := fst (calibrateAndNormalize audioBuffer sampleRate id targetLUFS w) in
    snd (calibrateAndNormalize audioBuffer sampleRate id targetLUFS w) = w
    /\ Calibrated.normalized out = normalized result
    /\ Calibrated.deviceGain out = 1
    /\ Calibrated.normalizationGain out = gainLinear result
    /\ Calibrated.originalLUFS out = calculateLUFS audioBuffer sampleRate
    /\ Calibrated.calibratedLUFS out = Calibrated.originalLUFS out
    /\ Calibrated.finalLUFS out = calculateLUFS (normalized result) sampleRate.
Proof.
  intros audioBuffer sampleRate targetLUFS id w Hcase. cbv zeta.
  rewrite calibrateAndNormalize_plain; [repeat split |].
  destruct Hcase as [-> | [-> | [d [-> Hfind]]]]; [now left | now left |].
  destruct d as [|c rest]; [now left |].
  right. exists (String c rest). split; [reflexivity | exact Hfind].
Qed.



Lemma normalized_length (audioBuffer : list R) (sampleRate targetLUFS : R) :
  length (normalized (normalizeToLUFS audioBuffer sampleRate targetLUFS))
  = length audioBuffer.
Proof.
  unfold normalizeToLUFS.
  destruct (calculateLUFS audioBuffer sampleRate); cbn [normalized];
    try reflexivity.
  apply length_map.
Qed.

Lemma calibratedBuffer_cases (p : CalibrationProfile) (audioBuffer : list R) :
  length (calibratedBuffer p audioBuffer) = length audioBuffer
  /\ (calibratedBuffer p audioBuffer = audioBuffer
      \/ Forall inRange (calibratedBuffer p audioBuffer)).
Proof.
  unfold calibratedBuffer. destruct (Reqb (gainAdjustment p) 1).
  - split; [reflexivity | now left].
  - split; [apply length_map |]. right.
    apply Forall_forall. intros s Hs.
    apply in_map_iff in Hs. destruct Hs as [s0 [<- _]]. apply clip_inRange.
Qed.

Lemma calibrateAndNormalize_shape (audioBuffer : list R) (sampleRate targetLUFS : R)
      (id : option string) (w : World) :
  exists processed,
    Calibrated.normalized
      (fst (calibrateAndNormalize audioBuffer sampleRate id targetLUFS w))
    = normalized (normalizeToLUFS processed sampleRate targetLUFS)
    /\ length processed = length audioBuffer
    /\ (processed = audioBuffer \/ Forall inRange processed).
Proof.
  destruct (nonEmpty id) as [d|] eqn:Hid.
  - destruct (lookup d (profilesOf w)) as [p|] eqn:Hfind.
    + rewrite (calibrateAndNormalize_found _ _ _ d id w p Hid Hfind).
      exists (calibratedBuffer p audioBuffer). cbn [fst].
      split; [reflexivity | apply calibratedBuffer_cases].
    + rewrite calibrateAndNormalize_plain by (right; now exists d).
      exists audioBuffer. split; [reflexivity |]. split; [reflexivity | now left].
  - rewrite calibrateAndNormalize_plain by now left.
    exists audioBuffer. split; [reflexivity |]. split; [reflexivity | now left].
Qed.

Lemma calibrateAndNormalize_length (audioBuffer : list R) (sampleRate targetLUFS : R)
      (id : option string) (w : World) :
  length (Calibrated.normalized
            (fst (calibrateAndNormalize audioBuffer sampleRate id targetLUFS w)))
  = length audioBuffer.
Proof.
  destruct (calibrateAndNormalize_shape audioBuffer sampleRate targetLUFS id w)
    as [processed [-> [Hlen _]]].
  now rewrite normalized_length.
Qed.


Lemma Rpower_10_one : Rpower 10 1 = 10.
Proof. apply Rpower_1. lra. Qed.

Lemma Rpower_10_minus_one : Rpower 10 (- (1)) = / 10.
Proof. now rewrite Rpower_Ropp, Rpower_10_one. Qed.

(** X18: the gain of a profile made by [createCalibrationProfile] lies in
    [0.1, 10]: it is [10^((target - reference) / 20)] when the reference is
    within 20 dB of the target, 10 when it is 20 dB or more below, 0.1 when
    20 dB or more above, and 1 when the two are equal. The profile starts
    with an empty history, [createdAt] and [lastUsed] are two successive
    clock readings, and nothing is stored. *)
Theorem createCalibrationProfile_gain :
  forall (id label : string) (noise reference targetLevel : R) (w : World),
    let profile :=
      fst (createCalibrationProfile id label noise reference targetLevel w) in
    let w' := snd (createCalibrationProfile id label noise reference targetLevel w) in
    0.1 <= gainAdjustment profile <= 10
    /\ (Rabs (targetLevel - reference) <= 20 ->
        gainAdjustment profile = Rpower 10 ((targetLevel - reference) / 20))
    /\ (20 <= targetLevel - reference -> gainAdjustment profile = 10)
    /\ (targetLevel - reference <= -20 -> gainAdjustment profile = 0.1)
    /\ (reference = targetLevel -> gainAdjustment profile = 1)
    /\ recordingHistory profile = Some []
    /\ createdAt profile = clock w (reads w)
    /\ lastUsed profile = clock w (S (reads w))
    /\ profilesItem w' = profilesItem w.
Proof.
  intros id label noise reference targetLevel w. cbv zeta.
  unfold createCalibrationProfile, bind, dateNow, ret.
  cbn [fst snd gainAdjustment recordingHistory createdAt lastUsed profilesItem
       clock reads].
  set (gainDB := targetLevel - reference).
  assert (Hmono : forall a b, a <= b -> Rpower 10 a <= Rpower 10 b).
  { intros a b Hab. apply Rle_Rpower; lra. }
  assert (Hhi : 1 <= gainDB / 20 -> 10 <= Rpower 10 (gainDB / 20)).
  { intros H. rewrite <- Rpower_10_one at 1. now apply Hmono. }
  assert (Hlo : gainDB / 20 <= -(1) -> Rpower 10 (gainDB / 20) <= 0.1).
  { intros H. replace 0.1 with (/ 10) by lra. rewrite <- Rpower_10_minus_one.
    now apply Hmono. }
  assert (Hin1 : gainDB / 20 <= 1 -> Rpower 10 (gainDB / 20) <= 10).
  { intros H. rewrite <- Rpower_10_one at 2. now apply Hmono. }
  assert (Hin2 : -(1) <= gainDB / 20 -> 0.1 <= Rpower 10 (gainDB / 20)).
  { intros H. replace 0.1 with (/ 10) by lra. rewrite <- Rpower_10_minus_one.
    now apply Hmono. }
  split; [| split; [| split; [| split; [| split]]]].
  - unfold Rmax, Rmin.
    destruct (Rle_dec 10 _); destruct (Rle_dec 0.1 _); lra.
  - intros Habs.
    assert (Hboth : -20 <= gainDB <= 20).
    { unfold gainDB, Rabs in *. destruct (Rcase_abs _) in Habs; lra. }
    assert (H1 : gainDB / 20 <= 1) by lra.
    assert (H2 : -(1) <= gainDB / 20) by lra.
    specialize (Hin1 H1). specialize (Hin2 H2).
    unfold Rmax, Rmin.
    destruct (Rle_dec 10 _); destruct (Rle_dec 0.1 _); lra.
  - intros H. assert (H1 : 1 <= gainDB / 20) by lra. specialize (Hhi H1).
    unfold Rmax, Rmin.
    destruct (Rle_dec 10 _); destruct (Rle_dec 0.1 _); lra.
  - intros H. assert (H1 : gainDB / 20 <= -(1)) by lra. specialize (Hlo H1).
    unfold Rmax, Rmin.
    destruct (Rle_dec 10 _); destruct (Rle_dec 0.1 _); lra.
  - intros ->. unfold gainDB.
    replace ((targetLevel - targetLevel) / 20) with 0 by lra.
    rewrite Rpower_O by lra.
    unfold Rmax, Rmin.
    destruct (Rle_dec 10 _); destruct (Rle_dec 0.1 _); lra.
  - repeat split.
Qed.

End CalibrationExtra.

(** ** Scoring configuration *)

Module ConfigExtra.
Import JsNum JsNumFacts Lufs Analysis Terms Cases ConfigFacts.

Lemma localAccepted_inv (m : Local.metric) :
  localAccepted m = true ->
  exists name w,
    Local.id m = Some name /\ name <> EmptyString
    /\ Local.enabled m = Some true /\ Local.weight m = Some w /\ 0 < w.
Proof.
  unfold localAccepted, nonEmpty.
  destruct (Local.id m) as [[|c rest]|]; try discriminate.
  destruct (Local.enabled m) as [[|]|]; try discriminate.
  destruct (Local.weight m) as [w|]; try discriminate.
  intros Hw. apply Rltb_iff in Hw.
  exists (String c rest), w. repeat split; try assumption. discriminate.
Qed.

Lemma default_find (d : MetricConfig) :
  In d DEFAULT_CONFIG ->
  find (fun x => String.eqb (id x) (id d)) DEFAULT_CONFIG = Some d.
Proof.
  unfold DEFAULT_CONFIG. simpl.
  intros [<- | [<- | [<- | [<- | [<- | []]]]]]; reflexivity.
Qed.

(** X19: a configuration read from the [metricConfig] override is never
    empty: it holds, in order, the entries that have a non-empty id, are
    enabled and have a weight above 0, so every metric in it has a positive
    weight; an override with no such entry counts as absent. An accepted
    entry that names a default metric and gives no thresholds takes that
    metric's default thresholds, and its method when it gives none. *)
Theorem getConfigFromLocalStorage_accepted :
  forall (raw : Local.item),
    match getConfigFromLocalStorage raw with
    | Some config =>
        config <> []
        /\ Forall (fun m => 0 < weight m /\ id m <> EmptyString) config
        /\ exists parsed,
            raw = Local.Entries parsed
            /\ (length config <= length parsed)%nat
            /\ map id config
               = map (fun m => orElse (Local.id m) EmptyString)
                     (filter localAccepted parsed)
    | None =>
        forall parsed, raw = Local.Entries parsed ->
                       forall m, In m parsed -> localAccepted m = false
    end
    /\ (forall m d,
           localAccepted m = true ->
           In d DEFAULT_CONFIG -> Local.id m = Some (id d) ->
           Local.thresholds_ m = None ->
           thresholds (localMapped m) = thresholds d
           /\ (Local.method m = None -> method (localMapped m) = method d)).
Proof.
  intros raw. split.
  - unfold getConfigFromLocalStorage.
    destruct raw as [| |parsed]; try (intros parsed0 H; discriminate).
    destruct (map localMapped (filter localAccepted parsed)) as [|m0 rest] eqn:Hmap.
    + intros parsed0 H m Hin. injection H as <-.
      destruct (localAccepted m) eqn:Hacc; [| reflexivity].
      assert (Hf : In m (filter localAccepted parsed)) by now apply filter_In.
      apply (in_map localMapped) in Hf. rewrite Hmap in Hf. destruct Hf.
    + rewrite <- Hmap. split; [rewrite Hmap; discriminate |]. split.
      * apply Forall_forall. intros m Hin.
        apply in_map_iff in Hin. destruct Hin as [l [<- Hl]].
        apply filter_In in Hl. destruct Hl as [_ Hacc].
        destruct (localAccepted_inv l Hacc) as [name [w [Hid [Hne [_ [Hw Hpos]]]]]].
        unfold localMapped. cbn [weight id]. rewrite Hid, Hw. simpl.
        split; assumption.
      * exists parsed. split; [reflexivity |]. split.
        -- rewrite length_map. apply filter_length_le.
        -- rewrite map_map. reflexivity.
  - intros m d Hacc Hin Hid Hnone.
    unfold localMapped. rewrite Hid, Hnone. cbn [orElse thresholds method].
    rewrite (default_find d Hin). cbn [option_map orElse].
    split; [now destruct (thresholds d) |].
    intros ->. reflexivity.
Qed.

Lemma mapSet_fixedPart (base : list MetricConfig) (name : string)
      (prev m : MetricConfig) :
  getMetricConfig base name = Some prev ->
  fixedPart m = fixedPart prev ->
  map fixedPart (mapSet base name m) = map fixedPart base.
Proof.
  unfold getMetricConfig. intros Hfind Hsame.
  induction base as [|b rest IH]; simpl in *; [discriminate |].
  destruct (String.eqb (id b) name).
  - injection Hfind as ->. simpl. now rewrite Hsame.
  - simpl. now rewrite IH.
Qed.

Lemma applyRow_fixedPart (base : list MetricConfig) (row : Row) :
  map fixedPart (applyRow base row) = map fixedPart base.
Proof.
  unfold applyRow.
  destruct (DB_METRIC_MAP (metric_name row)) as [name|]; [| reflexivity].
  destruct (getMetricConfig base name) as [prev|] eqn:Hprev; [| reflexivity].
  apply (mapSet_fixedPart base name prev _ Hprev).
  assert (Hid := getMetricConfig_id _ _ _ Hprev).
  unfold fixedPart. cbn [id method thresholds Thresholds.max].
  rewrite Hid. now destruct (String.eqb name "pauseManagement").
Qed.

Lemma applyRows_fixedPart (data : list Row) (base : list MetricConfig) :
  map fixedPart (fold_left applyRow data base) = map fixedPart base.
Proof.
  revert base. induction data as [|row data IH]; intros base; simpl.
  - reflexivity.
  - now rewrite IH, applyRow_fixedPart.
Qed.

Lemma fetchConfigFromDB_fixedPart (answer : option (list Row)) :
  map fixedPart (fetchConfigFromDB answer) = map fixedPart DEFAULT_CONFIG.
Proof.
  destruct answer as [[|row data]|]; try reflexivity.
  unfold fetchConfigFromDB. apply applyRows_fixedPart.
Qed.

Lemma fixedPart_lookup (config base : list MetricConfig) (name : string)
      (m : MetricConfig) :
  map fixedPart config = map fixedPart base ->
  getMetricConfig config name = Some m ->
  exists d, getMetricConfig base name = Some d /\ fixedPart m = fixedPart d.
Proof.
  unfold getMetricConfig. revert base.
  induction config as [|c rest IH]; intros [|b base] Hmap Hfind;
    simpl in *; try discriminate.
  assert (Hhead : fixedPart c = fixedPart b) by congruence.
  assert (Htail : map fixedPart rest = map fixedPart base) by congruence.
  assert (Hid : id c = id b) by (unfold fixedPart in Hhead; congruence).
  rewrite <- Hid. destruct (String.eqb (id c) name).
  - injection Hfind as <-. exists b. split; [reflexivity | exact Hhead].
  - now apply IH.
Qed.

(** X20: whatever the [scoring_config] query answers, the configuration
    [fetchConfigFromDB] returns has the five default metrics in the default
    order, each with its default method, and no row changes the [max]
    threshold of a metric other than [pauseManagement]; rows whose
    [metric_name] is not in the table leave the defaults as they are. *)
Theorem fetchConfigFromDB_shape :
  forall (answer : option (list Row)),
    let config := fetchConfigFromDB answer in
    map id config
    = ["volume"; "speechRate"; "acceleration"; "responseTime"; "pauseManagement"]%string
    /\ map method config = map method DEFAULT_CONFIG
    /\ (forall name m,
           getMetricConfig config name = Some m ->
           exists d,
             getMetricConfig DEFAULT_CONFIG name = Some d
             /\ (name <> "pauseManagement"%string ->
                 Thresholds.max (thresholds m) = Thresholds.max (thresholds d)))
    /\ (forall data,
           answer = Some data ->
           (forall row, In row data -> DB_METRIC_MAP (metric_name row) = None) ->
           config = DEFAULT_CONFIG).
Proof.
  intros answer. cbv zeta.
  pose proof (fetchConfigFromDB_fixedPart answer) as Hfixed.
  split; [| split; [| split]].
  - change (map id (fetchConfigFromDB answer))
      with (map (fun m => fst (fst (fixedPart m))) (fetchConfigFromDB answer)).
    rewrite <- (map_map fixedPart (fun x => fst (fst x))), Hfixed. reflexivity.
  - change (map method (fetchConfigFromDB answer))
      with (map (fun m => snd (fst (fixedPart m))) (fetchConfigFromDB answer)).
    rewrite <- (map_map fixedPart (fun x => snd (fst x))), Hfixed. reflexivity.
  - intros name m Hm.
    destruct (fixedPart_lookup _ _ name m Hfixed Hm) as [d [Hd Hsame]].
    exists d. split; [exact Hd |]. intros Hne.
    assert (Hidm := getMetricConfig_id _ _ _ Hm).
    assert (Hidd := getMetricConfig_id _ _ _ Hd).
    unfold fixedPart in Hsame. rewrite Hidm, Hidd in Hsame.
    rewrite (proj2 (String.eqb_neq _ _) Hne) in Hsame. congruence.
  - intros data -> Hrows. destruct data as [|row data]; [reflexivity |].
    unfold fetchConfigFromDB.
    generalize DEFAULT_CONFIG as base. revert Hrows.
    generalize (row :: data) as rows. clear.
    induction rows as [|r rows IH]; intros Hrows base; simpl; [reflexivity |].
    unfold applyRow at 2. rewrite (Hrows r) by now left.
    apply IH. intros row Hin. apply Hrows. now right.
Qed.

Lemma getConfigAsync_remote (answer : option (list Row)) (e : Env) :
  getConfigFromLocalStorage (metricConfigItem e) = None ->
  let now := clock (lufs e) (reads (lufs e)) in
  let ticked :=
    {| profilesItem := profilesItem (lufs e); clock := clock (lufs e);
       reads := S (reads (lufs e)) |} in
  let fresh :=
    match cachedConfig e with
    | Some cached => (CACHE_MS <? now - cachedAt e)%Z
    | None => true
    end in
  getConfigAsync answer e
  = if fresh
    then (fetchConfigFromDB answer,
          {| lufs := ticked; metricConfigItem := metricConfigItem e;
             speechRateMethodItem := speechRateMethodItem e;
             cachedConfig := Some (fetchConfigFromDB answer); cachedAt := now |})
    else (orElse (cachedConfig e) [],
          {| lufs := ticked; metricConfigItem := metricConfigItem e;
             speechRateMethodItem := speechRateMethodItem e;
             cachedConfig := cachedConfig e; cachedAt := cachedAt e |}).
Proof.
  intros Hlocal. cbv zeta.
  unfold getConfigAsync, abind, getMetricConfigItem. rewrite Hlocal.
  unfold liftLufs, dateNow, getCache, setCache, aret.
  cbn [fst snd lufs metricConfigItem speechRateMethodItem cachedConfig cachedAt].
  destruct (cachedConfig e) as [cached|]; [| reflexivity].
  destruct (CACHE_MS <? _)%Z; reflexivity.
Qed.

(** X21: with a usable [metricConfig] override [getConfigAsync] returns it
    and touches neither the clock nor the cache. Without one, the
    configuration it returns is the one left in the cache: a next call within
    60 s of the time the cache was filled returns the same configuration
    whatever the query would answer, a later one returns what the query
    answers; an empty cache is filled with the answer at the time of the
    call, and the calibration store is not touched. *)
Theorem getConfigAsync_cache :
  forall (a1 a2 : option (list Row)) (e : Env),
    (forall local,
        getConfigFromLocalStorage (metricConfigItem e) = Some local ->
        getConfigAsync a1 e = (local, e))
    /\ (getConfigFromLocalStorage (metricConfigItem e) = None ->
        let first := getConfigAsync a1 e in
        let e1 := snd first in
        let now2 := clock (lufs e1) (reads (lufs e1)) in
        cachedConfig e1 = Some (fst first)
        /\ ((now2 - cachedAt e1 <= 60000)%Z ->
            fst (getConfigAsync a2 e1) = fst first)
        /\ ((60000 < now2 - cachedAt e1)%Z ->
            fst (getConfigAsync a2 e1) = fetchConfigFromDB a2)
        /\ (cachedConfig e = None ->
            fst first = fetchConfigFromDB a1
            /\ cachedAt e1 = clock (lufs e) (reads (lufs e)))
        /\ profilesItem (lufs e1) = profilesItem (lufs e)).
Proof.
  intros a1 a2 e. split.
  - intros local Hlocal. unfold getConfigAsync, abind, getMetricConfigItem.
    now rewrite Hlocal.
  - intros Hlocal. cbv zeta.
    rewrite (getConfigAsync_remote a1 e Hlocal). cbv zeta.
    set (fresh := match cachedConfig e with
                  | Some _ => _
                  | None => true
                  end).
    assert (Hcached : fresh = false -> exists cached, cachedConfig e = Some cached).
    { unfold fresh. destruct (cachedConfig e) as [cached|]; [| discriminate].
      intros _. now exists cached. }
    assert (Hsecond :
              forall e1 config,
                metricConfigItem e1 = metricConfigItem e ->
                cachedConfig e1 = Some config ->
                let now2 := clock (lufs e1) (reads (lufs e1)) in
                ((now2 - cachedAt e1 <= 60000)%Z ->
                 fst (getConfigAsync a2 e1) = config)
                /\ ((60000 < now2 - cachedAt e1)%Z ->
                    fst (getConfigAsync a2 e1) = fetchConfigFromDB a2)).
    { intros e1 config Hitem Hcfg. cbv zeta.
      rewrite getConfigAsync_remote by now rewrite Hitem.
      cbv zeta. rewrite Hcfg. unfold CACHE_MS. split; intros Hage.
      - rewrite (proj2 (Z.ltb_ge _ _)) by exact Hage. reflexivity.
      - rewrite (proj2 (Z.ltb_lt _ _)) by exact Hage. reflexivity. }
    destruct fresh eqn:Hfresh; cbn [fst snd].
    + split; [reflexivity |].
      destruct (Hsecond
                  {| lufs := {| profilesItem := profilesItem (lufs e);
                                clock := clock (lufs e);
                                reads := S (reads (lufs e)) |};
                     metricConfigItem := metricConfigItem e;
                     speechRateMethodItem := speechRateMethodItem e;
                     cachedConfig := Some (fetchConfigFromDB a1);
                     cachedAt := clock (lufs e) (reads (lufs e)) |}
                  (fetchConfigFromDB a1) eq_refl eq_refl) as [Hkeep Hrefresh].
      split; [exact Hkeep |]. split; [exact Hrefresh |].
      split; [intros _; split; reflexivity | reflexivity].
    + destruct (Hcached eq_refl) as [cached Hc].
      destruct (Hsecond
                  {| lufs := {| profilesItem := profilesItem (lufs e);
                                clock := clock (lufs e);
                                reads := S (reads (lufs e)) |};
                     metricConfigItem := metricConfigItem e;
                     speechRateMethodItem := speechRateMethodItem e;
                     cachedConfig := cachedConfig e;
                     cachedAt := cachedAt e |}
                  cached eq_refl Hc) as [Hkeep Hrefresh].
      rewrite Hc in *. cbn [orElse].
      split; [reflexivity |]. split; [exact Hkeep |]. split; [exact Hrefresh |].
      split; [discriminate | reflexivity].
Qed.

End ConfigExtra.

(** ** Scores and results of the analysis *)

Module ScoreExtra.
Import JsNum JsNumFacts Lufs Analysis Terms Cases.

Lemma round_ge (x : R) (k : Z) : IZR k <= x -> (k <= round x)%Z.
Proof.
  intros Hk. unfold round. destruct (floor_bounds (x + 1 / 2)) as [_ Hhi].
  assert (H : (k - 1 < floor (x + 1 / 2))%Z).
  { apply lt_IZR. rewrite minus_IZR. lra. }
  lia.
Qed.

Lemma round_le (x : R) (k : Z) : x <= IZR k -> (round x <= k)%Z.
Proof.
  intros Hk. unfold round. destruct (floor_bounds (x + 1 / 2)) as [Hlo _].
  assert (H : (floor (x + 1 / 2) < k + 1)%Z).
  { apply lt_IZR. rewrite plus_IZR. lra. }
  lia.
Qed.

Lemma clampScore_Fin (x : R) :
  clampScore (Fin x) = Fin (IZR (round (Rmax 0 (Rmin 100 x)))).
Proof.
  unfold clampScore, min, max, lt.
  destruct (Rlt_dec x 100) as [Hx | Hx].
  - rewrite (Rltb_true _ _ Hx). rewrite Rmin_right by lra.
    destruct (Rlt_dec 0 x) as [H0 | H0].
    + rewrite (Rltb_true _ _ H0). rewrite Rmax_right by lra. reflexivity.
    + rewrite Rltb_false by lra. rewrite Rmax_left by lra. reflexivity.
  - rewrite Rltb_false by lra. rewrite Rmin_left by lra.
    rewrite Rltb_true by lra. rewrite Rmax_right by lra. reflexivity.
Qed.

Lemma clamp_range (x : R) : 0 <= Rmax 0 (Rmin 100 x) <= 100.
Proof.
  unfold Rmin. destruct (Rle_dec 100 x); unfold Rmax; destruct (Rle_dec 0 _); lra.
Qed.

Lemma clamp_monotone (x y : R) :
  x <= y -> Rmax 0 (Rmin 100 x) <= Rmax 0 (Rmin 100 y).
Proof.
  intros Hxy. unfold Rmin. destruct (Rle_dec 100 x); destruct (Rle_dec 100 y);
    unfold Rmax;
    repeat match goal with |- context [Rle_dec ?p ?q] => destruct (Rle_dec p q) end;
    lra.
Qed.

Lemma clamp_id (x : R) : 0 <= x <= 100 -> Rmax 0 (Rmin 100 x) = x.
Proof.
  intros [Hlo Hhi]. unfold Rmin. destruct (Rle_dec 100 x); unfold Rmax;
    destruct (Rle_dec 0 _); lra.
Qed.

Lemma clamp_low (x : R) : x <= 0 -> Rmax 0 (Rmin 100 x) = 0.
Proof.
  intros Hx. unfold Rmin. destruct (Rle_dec 100 x); unfold Rmax;
    destruct (Rle_dec 0 _); lra.
Qed.

Lemma round_IZR (z : Z) : round (IZR z) = z.
Proof. apply round_eq. lra. Qed.

Lemma clampScore_between (x lo hi : R) (a b : Z) :
  lo <= x <= hi -> IZR a <= Rmax 0 (Rmin 100 lo) -> Rmax 0 (Rmin 100 hi) <= IZR b ->
  exists z, clampScore (Fin x) = Fin (IZR z) /\ (a <= z <= b)%Z.
Proof.
  intros [Hlo Hhi] Ha Hb. rewrite clampScore_Fin. eexists. split; [reflexivity |].
  assert (Hmono1 : Rmax 0 (Rmin 100 lo) <= Rmax 0 (Rmin 100 x))
    by (apply clamp_monotone; lra).
  assert (Hmono2 : Rmax 0 (Rmin 100 x) <= Rmax 0 (Rmin 100 hi))
    by (apply clamp_monotone; lra).
  split; [apply round_ge | apply round_le]; lra.
Qed.

Lemma clampScore_valid (s : num) : validScore (clampScore s).
Proof.
  destruct s as [| | |x].
  - now left.
  - right. exists 0%Z. split; [| lia].
    unfold clampScore, min, max, lt. cbn [roundNum].
    do 2 f_equal. apply round_eq. lra.
  - right. exists 100%Z. split; [| lia].
    unfold clampScore, min, max, lt. rewrite Rltb_true by lra. cbn [roundNum].
    do 2 f_equal. apply round_eq. lra.
  - right. rewrite clampScore_Fin. eexists. split; [reflexivity |].
    assert (H : 0 <= Rmax 0 (Rmin 100 x) <= 100) by apply clamp_range.
    split; [apply round_ge | apply round_le]; simpl; lra.
Qed.

Lemma volume_score_valid (audioBuffer : list R) (config : list MetricConfig)
      (deviceDbOffset : R) :
  validScore (Volume.score (analyzeVolume audioBuffer config deviceDbOffset)).
Proof. apply clampScore_valid. Qed.

Lemma speechRate_score_valid
      (audioBuffer : list R) (sampleRate : R) (config : list MetricConfig)
      (durationSeconds : num) (method : SpeechRateMethod) (audioBlob : bool)
      (sttWordCount : option R) (c : Collaborators) :
  validScore
    (SpeechRate.score
       (analyzeSpeechRate audioBuffer sampleRate config durationSeconds method
                          audioBlob sttWordCount c)).
Proof.
  unfold analyzeSpeechRate.
  match goal with
  | |- context [match ?e with pair _ _ => _ end] =>
      destruct e as [[fromWords transcript] used]
  end.
  apply clampScore_valid.
Qed.

Lemma acceleration_score_floor (audioBuffer : list R) (sampleRate : R)
      (config : list MetricConfig) :
  let score := Acceleration.score (analyzeAcceleration audioBuffer sampleRate config) in
  score = NaN \/ exists z, score = Fin (IZR z) /\ (50 <= z <= 100)%Z.
Proof.
  cbv zeta. unfold analyzeAcceleration. cbn [Acceleration.score].
  match goal with
  | |- context [max (Fin 0) (min (Fin 100) (Fin 50 + max (Fin 0) ?y)%num)] =>
      generalize y
  end.
  intros y. change (roundNum (max (Fin 0) (min (Fin 100) (Fin 50 + max (Fin 0) y)%num)))
    with (clampScore (Fin 50 + max (Fin 0) y)%num).
  destruct y as [| | |x].
  - now left.
  - right. cbn [max lt add].
    destruct (clampScore_between 50 50 50 50 100) as [z Hz]; try lra.
    + rewrite clamp_id; simpl; lra.
    + rewrite clamp_id; simpl; lra.
    + exists z. replace (50 + 0) with 50 by lra. exact Hz.
  - right. cbn [max lt add]. exists 100%Z. split; [| lia].
    unfold clampScore, min, max, lt. rewrite Rltb_true by lra. cbn [roundNum].
    now rewrite round_IZR.
  - right. cbn [max lt]. destruct (Rlt_dec 0 x) as [Hx | Hx].
    + rewrite (Rltb_true _ _ Hx). cbn [add].
      rewrite clampScore_Fin. eexists. split; [reflexivity |].
      pose proof (clamp_range (50 + x)) as Hc.
      pose proof (clamp_monotone 50 (50 + x) ltac:(lra)) as Hm.
      rewrite (clamp_id 50) in Hm by lra.
      split; [apply round_ge | apply round_le]; simpl; lra.
    + rewrite Rltb_false by lra. cbn [add].
      rewrite clampScore_Fin. eexists. split; [reflexivity |].
      replace (50 + 0) with 50 by lra. rewrite clamp_id by lra.
      split; [apply round_ge | apply round_le]; simpl; lra.
Qed.

Lemma acceleration_score_valid (audioBuffer : list R) (sampleRate : R)
      (config : list MetricConfig) :
  validScore (Acceleration.score (analyzeAcceleration audioBuffer sampleRate config)).
Proof.
  destruct (acceleration_score_floor audioBuffer sampleRate config)
    as [H | [z [H Hz]]]; [now left |].
  right. exists z. split; [exact H | lia].
Qed.

Lemma responseTime_score_valid (audioBuffer : list R) (sampleRate : R)
      (config : list MetricConfig) :
  validScore (ResponseTime.score (analyzeResponseTime audioBuffer sampleRate config)).
Proof. apply clampScore_valid. Qed.

Lemma pauses_score_valid (audioBuffer : list R) (sampleRate : R)
      (config : list MetricConfig) (vadMetrics : option VADMetrics) (r : Pauses.t) :
  analyzePauses audioBuffer sampleRate config vadMetrics = Some r ->
  validScore (Pauses.score r).
Proof.
  unfold analyzePauses.
  match goal with
  | |- match ?m with _ => _ end = _ -> _ => destruct m as [[[[ratio count] longest] mean]|]
  end; [| discriminate].
  intros H. injection H as <-. apply clampScore_valid.
Qed.

(** X22: every metric score is the rounding of a value clamped to
    [0, 100]: the scores of [analyzeVolume], [analyzeSpeechRate],
    [analyzeResponseTime] and [analyzePauses] are whole numbers from 0 to
    100 or not a number, and the score of [analyzeAcceleration] is a whole
    number from 50 to 100 or not a number. *)
Theorem metric_scores_valid :
  forall (audioBuffer : list R) (sampleRate deviceDbOffset : R)
         (config : list MetricConfig) (durationSeconds : num)
         (method : SpeechRateMethod) (audioBlob : bool) (sttWordCount : option R)
         (c : Collaborators) (vadMetrics : option VADMetrics),
    validScore (Volume.score (analyzeVolume audioBuffer config deviceDbOffset))
    /\ validScore
         (SpeechRate.score
            (analyzeSpeechRate audioBuffer sampleRate config durationSeconds method
                               audioBlob sttWordCount c))
    /\ (let score :=
          Acceleration.score (analyzeAcceleration audioBuffer sampleRate config) in
        score = NaN \/ exists z, score = Fin (IZR z) /\ (50 <= z <= 100)%Z)
    /\ validScore (ResponseTime.score (analyzeResponseTime audioBuffer sampleRate config))
    /\ (forall r, analyzePauses audioBuffer sampleRate config vadMetrics = Some r ->
                  validScore (Pauses.score r)).
Proof.
  intros. split; [| split; [| split; [| split]]].
  - apply volume_score_valid.
  - apply speechRate_score_valid.
  - apply acceleration_score_floor.
  - apply responseTime_score_valid.
  - intros r. apply pauses_score_valid.
Qed.

Lemma ratio_bounds (x a b : R) :
  a < b -> a <= x <= b -> 0 <= (x - a) / (b - a) <= 1.
Proof.
  intros Hab [Hlo Hhi].
  assert (Hpos : 0 < / (b - a)) by (apply Rinv_0_lt_compat; lra).
  unfold Rdiv. split.
  - apply Rmult_le_pos; lra.
  - apply Rmult_le_reg_r with (b - a); [lra |].
    rewrite Rmult_assoc, Rinv_l by lra. lra.
Qed.

Lemma ratio_monotone (x y a b : R) :
  a < b -> x <= y -> (x - a) / (b - a) <= (y - a) / (b - a).
Proof.
  intros Hab Hxy.
  assert (Hpos : 0 < / (b - a)) by (apply Rinv_0_lt_compat; lra).
  unfold Rdiv. apply Rmult_le_compat_r; lra.
Qed.

Lemma scoreSpeechRate_value (config : list MetricConfig) (wpm : R) :
  let t := thresholdsOr config "speechRate" speechRateFallback in
  Thresholds.min t < Thresholds.ideal t ->
  scoreSpeechRate (Fin wpm) config
  = Fin (if Rleb wpm 0 then 0
         else if Rltb wpm (Thresholds.min t) then 0
         else if Rltb wpm (Thresholds.ideal t)
              then (wpm - Thresholds.min t)
                   / (Thresholds.ideal t - Thresholds.min t) * 100
              else 100).
Proof.
  cbv zeta. intros Hord. unfold scoreSpeechRate. cbn [le lt].
  destruct (Rleb wpm 0); [reflexivity |].
  destruct (Rltb wpm (Thresholds.min _)); [reflexivity |].
  destruct (Rltb wpm (Thresholds.ideal _)); [| reflexivity].
  cbn [sub neg add div]. rewrite Reqb_false by lra. reflexivity.
Qed.

(** X24: with speech-rate thresholds [min < ideal], [scoreSpeechRate] of
    a finite rate is a finite score between 0 and 100 that never decreases
    when the rate grows: 0 for a rate at most 0 or below [min], and 100 for
    every positive rate from [ideal] up, however fast. *)
Theorem scoreSpeechRate_shape :
  forall (config : list MetricConfig) (slow fast : R),
    let t := thresholdsOr config "speechRate" speechRateFallback in
    Thresholds.min t < Thresholds.ideal t ->
    exists s1 s2,
      scoreSpeechRate (Fin slow) config = Fin s1
      /\ scoreSpeechRate (Fin fast) config = Fin s2
      /\ 0 <= s1 <= 100
      /\ (slow <= fast -> s1 <= s2)
      /\ (slow <= 0 \/ slow < Thresholds.min t -> s1 = 0)
      /\ (0 < slow -> Thresholds.ideal t <= slow -> s1 = 100).
Proof.
  intros config slow fast t Hord. subst t.
  rewrite !scoreSpeechRate_value by exact Hord.
  set (lo := Thresholds.min _) in *. set (hi := Thresholds.ideal _) in *.
  do 2 eexists. split; [reflexivity |]. split; [reflexivity |].
  assert (Hrange : forall w, lo <= w <= hi ->
                             0 <= (w - lo) / (hi - lo) * 100 <= 100).
  { intros w Hw. pose proof (ratio_bounds w lo hi Hord Hw). lra. }
  unfold Rleb, Rltb.
  repeat match goal with
         | |- context [Rle_dec ?p ?q] => destruct (Rle_dec p q)
         | |- context [Rlt_dec ?p ?q] => destruct (Rlt_dec p q)
         end;
    repeat split; intros;
    try lra;
    try (pose proof (Hrange slow ltac:(lra)); lra);
    try (pose proof (Hrange fast ltac:(lra)); lra);
    try (match goal with H : _ \/ _ |- _ => destruct H; lra end).
  pose proof (ratio_monotone slow fast lo hi Hord ltac:(lra)). lra.
Qed.

Lemma advice_list
      (volume : Volume.t) (speechRate : SpeechRate.t)
      (acceleration : Acceleration.t) (responseTime : ResponseTime.t)
      (pauses : Pauses.t) (overallScore : num) :
  let low (s : num) := (s <? Fin 60)%num in
  let advice :=
    (if low (Volume.score volume) then [sayLouder] else [])
    ++ (if low (SpeechRate.score speechRate)
        then (if (SpeechRate.wordsPerMinute speechRate <? Fin 100)%num
              then [sayFaster] else [saySlower])
        else [])
    ++ (if low (ResponseTime.score responseTime) then [saySooner] else [])
    ++ (if low (Pauses.score pauses) then [sayFewerPauses] else [])
    ++ (if low (Acceleration.score acceleration) then [sayMomentum] else []) in
  buildFeedback volume speechRate acceleration responseTime pauses overallScore
  = match advice with
    | [] => [if (overallScore >=? Fin 90)%num then sayExcellent else sayGreat]
    | _ => advice
    end.
Proof. reflexivity. Qed.

(** X25: [buildFeedback] never returns an empty list nor more than five
    messages. Each advice is in the list exactly when its score is below 60
    (for the speech rate: the "faster" advice when the rate is below 100
    words per minute, the "slower" one otherwise), and the list is the single
    praise chosen by the overall score exactly when no score is below 60; a
    score that is not a number counts as not below 60. *)
Theorem buildFeedback_advice :
  forall (volume : Volume.t) (speechRate : SpeechRate.t)
         (acceleration : Acceleration.t) (responseTime : ResponseTime.t)
         (pauses : Pauses.t) (overallScore : num),
    let low (s : num) := (s <? Fin 60)%num in
    let feedback :=
      buildFeedback volume speechRate acceleration responseTime pauses overallScore in
    let praise := if (overallScore >=? Fin 90)%num then sayExcellent else sayGreat in
    let slowly := (SpeechRate.wordsPerMinute speechRate <? Fin 100)%num in
    feedback <> []
    /\ (length feedback <= 5)%nat
    /\ (In sayLouder feedback <-> low (Volume.score volume) = true)
    /\ (In sayFaster feedback
        <-> low (SpeechRate.score speechRate) = true /\ slowly = true)
    /\ (In saySlower feedback
        <-> low (SpeechRate.score speechRate) = true /\ slowly = false)
    /\ (In saySooner feedback <-> low (ResponseTime.score responseTime) = true)
    /\ (In sayFewerPauses feedback <-> low (Pauses.score pauses) = true)
    /\ (In sayMomentum feedback <-> low (Acceleration.score acceleration) = true)
    /\ (feedback = [praise]
        <-> low (Volume.score volume) = false
            /\ low (SpeechRate.score speechRate) = false
            /\ low (ResponseTime.score responseTime) = false
            /\ low (Pauses.score pauses) = false
            /\ low (Acceleration.score acceleration) = false).
Proof.
  intros volume speechRate acceleration responseTime pauses overallScore. cbv zeta.
  rewrite advice_list. cbv zeta beta.
  destruct (Volume.score volume <? Fin 60)%num;
    destruct (SpeechRate.score speechRate <? Fin 60)%num;
    destruct (SpeechRate.wordsPerMinute speechRate <? Fin 100)%num;
    destruct (ResponseTime.score responseTime <? Fin 60)%num;
    destruct (Pauses.score pauses <? Fin 60)%num;
    destruct (Acceleration.score acceleration <? Fin 60)%num;
    destruct (overallScore >=? Fin 90)%num;
    cbn [app length In];
    (split; [discriminate |]);
    (split; [lia |]);
    repeat split; intros;
    repeat match goal with
           | H : _ /\ _ |- _ => destruct H
           | H : _ \/ _ |- _ => destruct H
           | H : False |- _ => destruct H
           end;
    try discriminate; try reflexivity; try tauto.
Qed.

Lemma pausesFromEnergy_stuck (audioBuffer : list R) (sampleRate : R) :
  pausesFromEnergy audioBuffer sampleRate = None <-> stuck audioBuffer sampleRate.
Proof.
  unfold pausesFromEnergy, stuck.
  set (frame := floor (sampleRate * 0.05)).
  destruct (Z.leb_spec frame 0) as [Hle | Hgt];
    destruct (Z.ltb_spec 0 (Z.of_nat (length audioBuffer) - frame)) as [Hlt | Hge];
    cbn [andb].
  - split; [intros _; lia | reflexivity].
  - split; [| lia].
    match goal with
    | |- match ?l with [] => _ | _ :: _ => _ end = None -> _ => destruct l
    end; discriminate.
  - split; [| lia].
    match goal with
    | |- match ?l with [] => _ | _ :: _ => _ end = None -> _ => destruct l
    end; discriminate.
  - split; [| lia].
    match goal with
    | |- match ?l with [] => _ | _ :: _ => _ end = None -> _ => destruct l
    end; discriminate.
Qed.

Lemma analyzePauses_stuck (audioBuffer : list R) (sampleRate : R)
      (config : list MetricConfig) (vad : option VADMetrics) :
  analyzePauses audioBuffer sampleRate config vad = None
  <-> segmented vad = false /\ stuck audioBuffer sampleRate.
Proof.
  unfold analyzePauses.
  assert (Henergy :
            match pausesFromEnergy audioBuffer sampleRate with
            | Some (pauseRatio, pauseCount, maxPause, avgPause) =>
                Some
                  {| Pauses.pauseCount := pauseCount;
                     Pauses.avgPauseDuration := round2 avgPause;
                     Pauses.maxPauseDuration := round2 maxPause;
                     Pauses.pauseRatio := round2 (Fin pauseRatio);
                     Pauses.score :=
                       clampScore
                         (if Rltb 0.1 pauseRatio
                          then max (Fin 0)
                                   (Fin 100
                                    - (Fin (pauseRatio - 0.1)
                                       / Fin (Thresholds.max
                                                (thresholdsOr config "pauseManagement"
                                                              pauseFallback)))
                                      * Fin 100)%num
                          else Fin 100);
                     Pauses.tag := "FLUIDITY" |}
            | None => None
            end = None
            <-> stuck audioBuffer sampleRate).
  { rewrite <- pausesFromEnergy_stuck.
    destruct (pausesFromEnergy audioBuffer sampleRate) as [[[[a b] c0] d]|];
      split; intros; try discriminate; reflexivity. }
  destruct vad as [v|]; cbn [segmented].
  - destruct (speechSegments v) as [|seg rest].
    + rewrite Henergy. tauto.
    + destruct (pausesFromSegments _ _ _) as [[[a b] c0] d].
      split; [discriminate | intros [H _]; discriminate].
  - rewrite Henergy. tauto.
Qed.

Lemma analyzeAudio_returns (audioBuffer : list R) (sampleRate : R) (e : Env) :
  fst (analyzeAudio audioBuffer sampleRate e) = None
  <-> analyzePauses audioBuffer sampleRate
                    (orElse (getConfigFromLocalStorage (metricConfigItem e))
                            DEFAULT_CONFIG) None = None.
Proof.
  unfold analyzeAudio, abind, getMetricConfigItem.
  destruct (analyzePauses _ _ _ None); unfold aret; cbn [fst];
    split; intros; try discriminate; reflexivity.
Qed.

Lemma prepared_length (audioBuffer : list R) (sampleRate : R)
      (audio : option Audio.t) (c : Collaborators) (e : Env) :
  length (fst (fst (prepared audioBuffer sampleRate audio c e))) = length audioBuffer.
Proof.
  unfold prepared. destruct (resolved c e) as [[config method] e2].
  destruct (deviceOf audio) as [id|]; [| reflexivity].
  unfold calibrated, abind, liftLufs.
  pose proof (CalibrationExtra.calibrateAndNormalize_length
                audioBuffer sampleRate TARGET_LUFS (Some id) (lufs e2)) as Hlen.
  destruct (calibrateAndNormalize _ _ _ _ _) as [normalized w].
  cbn [lufs]. destruct (getCalibrationProfile id w) as [profile w'].
  exact Hlen.
Qed.

Lemma analyzeAudioAsync_stuck
      (audioBuffer : list R) (sampleRate : R) (audio : option Audio.t)
      (c : Collaborators) (e : Env) :
  hasSpeech audio = true ->
  (fst (analyzeAudioAsync audioBuffer sampleRate audio c e) = None
   <-> analyzePauses (fst (fst (prepared audioBuffer sampleRate audio c e)))
                     sampleRate (fst (fst (resolved c e))) (vadOf audio) = None).
Proof.
  intros Hspeech. split.
  - intros Hnone.
    destruct (analyzePauses _ _ _ _) as [pm|] eqn:Hpm; [| reflexivity].
    exfalso.
    destruct (PipelineFacts.analyzeAudioAsync_returns
                audioBuffer sampleRate audio c e pm Hspeech) as [r Hr].
    + destruct (resolved c e) as [[config method] e2].
      destruct (prepared audioBuffer sampleRate audio c e)
        as [[processed normalization] deviceOffset].
      exact Hpm.
    + congruence.
  - intros Hnone.
    destruct (fst (analyzeAudioAsync audioBuffer sampleRate audio c e))
      as [r|] eqn:Hr; [| reflexivity].
    exfalso.
    pose proof (PipelineFacts.analyzeAudioAsync_routes _ _ _ _ _ _ Hspeech Hr)
      as Hroutes.
    destruct (resolved c e) as [[config method] e2].
    destruct (prepared audioBuffer sampleRate audio c e)
      as [[processed normalization] deviceOffset].
    cbn [fst] in Hnone. destruct Hroutes as [_ [_ [_ [_ [Hp _]]]]].
    congruence.
Qed.

(** X26: [analyzeAudio] fails to return exactly when the 50 ms frame of
    the pause analyser has no positive length, [floor(sampleRate * 0.05) <=
    0], and is shorter than the buffer; [analyzeAudioAsync] exactly when in
    addition the call goes past the speech test and the voice activity
    brings no segments. So both return at every sample rate of at least 20,
    and neither does on a non-empty buffer at a lower rate. *)
Theorem analysis_returns :
  forall (audioBuffer : list R) (sampleRate : R) (audio : option Audio.t)
         (c : Collaborators) (e : Env),
    (fst (analyzeAudio audioBuffer sampleRate e) = None
     <-> stuck audioBuffer sampleRate)
    /\ (fst (analyzeAudioAsync audioBuffer sampleRate audio c e) = None
        <-> hasSpeech audio = true /\ segmented (vadOf audio) = false
            /\ stuck audioBuffer sampleRate)
    /\ (20 <= sampleRate -> ~ stuck audioBuffer sampleRate)
    /\ (sampleRate < 20 -> audioBuffer <> [] -> stuck audioBuffer sampleRate).
Proof.
  intros audioBuffer sampleRate audio c e. split; [| split; [| split]].
  - rewrite analyzeAudio_returns, analyzePauses_stuck. cbn [segmented]. tauto.
  - destruct (hasSpeech audio) eqn:Hspeech.
    + rewrite (analyzeAudioAsync_stuck _ _ _ _ _ Hspeech), analyzePauses_stuck.
      unfold stuck. rewrite prepared_length. tauto.
    + rewrite PipelineFacts.analyzeAudioAsync_no_speech by exact Hspeech.
      destruct (resolved c e) as [[config method] e2]. cbn [fst].
      split; [discriminate | intros [H _]; discriminate].
  - intros Hrate [Hframe _].
    pose proof (NormalizerExtra.floor_positive (sampleRate * 0.05) ltac:(lra)). lia.
  - intros Hrate Hne. unfold stuck.
    assert (Hframe : (floor (sampleRate * 0.05) <= 0)%Z).
    { destruct (floor_bounds (sampleRate * 0.05)) as [Hlo _].
      assert (H : (floor (sampleRate * 0.05) < 1)%Z) by (apply lt_IZR; lra).
      lia. }
    split; [exact Hframe |].
    destruct audioBuffer; [congruence | simpl length; lia].
Qed.

Lemma calculateSegmentDb_finite (buffer : list R) :
  buffer <> [] ->
  exists d, calculateSegmentDb buffer = Fin d
            /\ -200 <= d /\ (Forall inRange buffer -> d <= 0).
Proof.
  intros Hne. destruct (NormalizerExtra.level_bounds buffer Hne) as [d [Hd Hb]].
  exists d. split; [| exact Hb].
  unfold calculateSegmentDb. destruct buffer; [congruence | exact Hd].
Qed.

(** The score before clamping, for a level [L] and ordered thresholds. *)
Lemma analyzeVolume_level (audioBuffer : list R) (config : list MetricConfig)
      (deviceDbOffset d : R) :
  let t := thresholdsOr config "volume" volumeFallback in
  let L := d + deviceDbOffset in
  calculateSegmentDb audioBuffer = Fin d ->
  Thresholds.min t < Thresholds.ideal t < Thresholds.max t ->
  exists s,
    Volume.score (analyzeVolume audioBuffer config deviceDbOffset) = clampScore (Fin s)
    /\ (Thresholds.ideal t <= L <= Thresholds.max t -> 90 <= s <= 100)
    /\ (L = (Thresholds.ideal t + Thresholds.max t) / 2 -> s = 100)
    /\ (L < Thresholds.min t -> s = 0)
    /\ (Thresholds.max t + 18 <= L -> s = 0).
Proof.
  cbv zeta. intros Hd [Hlo Hhi]. unfold analyzeVolume. rewrite Hd.
  cbn [Volume.score add].
  set (t := thresholdsOr config "volume" volumeFallback) in *.
  set (lo := Thresholds.min t) in *. set (mid := Thresholds.ideal t) in *.
  set (hi := Thresholds.max t) in *. set (L := d + deviceDbOffset).
  destruct (Rle_dec mid L) as [H1 | H1]; destruct (Rle_dec L hi) as [H2 | H2].
  - destruct (Rle_dec L ((mid + hi) / 2)) as [H3 | H3].
    + num_eval. eexists. split; [reflexivity |].
      pose proof (ratio_bounds L mid ((mid + hi) / 2) ltac:(lra) ltac:(lra)) as Hr.
      unfold Rminus in Hr.
      split; [intros _; lra |]. split; [| split; intros; lra].
      intros HL.
      replace ((L + - mid) / ((mid + hi) / 2 + - mid)) with 1; [lra |].
      rewrite HL. field. lra.
    + num_eval. eexists. split; [reflexivity |].
      pose proof (ratio_bounds L ((mid + hi) / 2) hi ltac:(lra) ltac:(lra)) as Hr.
      unfold Rminus in Hr.
      split; [intros _; lra |]. split; intros; lra.
  - num_eval.
    destruct (Rlt_dec 0 (90 + - ((L + - hi) * 5))) as [H3 | H3].
    + rewrite (Rltb_true _ _ H3). eexists. split; [reflexivity |].
      split; [intros; lra |]. split; [intros; lra |]. split; intros; lra.
    + rewrite Rltb_false by lra. exists 0. split; [reflexivity |].
      split; [intros; lra |]. split; [intros; lra |]. split; intros; lra.
  - destruct (Rle_dec lo L) as [H3 | H3].
    + num_eval. eexists. split; [reflexivity |].
      split; [intros; lra |]. split; [intros; lra |]. split; intros; lra.
    + num_eval. exists 0. split; [reflexivity |].
      split; [intros; lra |]. split; [intros; lra |]. split; intros; lra.
  - lra.
Qed.

(** X23: with volume thresholds [min < ideal < max], [analyzeVolume]
    gives an empty buffer the level [-Infinity] and the score 0, and a
    non-empty one a finite level of at least -200 dB and a whole score from
    0 to 100: at least 90 when the level with the device offset lies between
    [ideal] and [max], 100 half way between them, and 0 below [min] and from
    18 dB above [max]. *)
Theorem analyzeVolume_ordered :
  forall (audioBuffer : list R) (config : list MetricConfig) (deviceDbOffset : R),
    let t := thresholdsOr config "volume" volumeFallback in
    let result := analyzeVolume audioBuffer config deviceDbOffset in
    Thresholds.min t < Thresholds.ideal t < Thresholds.max t ->
    (audioBuffer = [] ->
     Volume.averageDb result = NegInf /\ Volume.score result = Fin 0)
    /\ (audioBuffer <> [] ->
        exists d z,
          calculateSegmentDb audioBuffer = Fin d
          /\ -200 <= d
          /\ Volume.score result = Fin (IZR z)
          /\ (0 <= z <= 100)%Z
          /\ (Thresholds.ideal t <= d + deviceDbOffset <= Thresholds.max t ->
              (90 <= z)%Z)
          /\ (d + deviceDbOffset = (Thresholds.ideal t + Thresholds.max t) / 2 ->
              z = 100%Z)
          /\ (d + deviceDbOffset < Thresholds.min t -> z = 0%Z)
          /\ (Thresholds.max t + 18 <= d + deviceDbOffset -> z = 0%Z)).
Proof.
  intros audioBuffer config deviceDbOffset t result Hord. subst result. split.
  - intros ->. unfold analyzeVolume.
    cbn [calculateSegmentDb add Volume.averageDb Volume.score].
    split.
    + unfold round1. cbn [mul]. unfold infTimes.
      rewrite Reqb_false by lra. rewrite Rltb_true by lra.
      cbn [Bool.eqb signed roundNum div]. rewrite Rltb_false by lra. reflexivity.
    + num_eval. rewrite clampScore_Fin, clamp_low by lra. now rewrite round_IZR.
  - intros Hne.
    destruct (calculateSegmentDb_finite audioBuffer Hne) as [d [Hd [Hlow _]]].
    destruct (analyzeVolume_level audioBuffer config deviceDbOffset d Hd Hord)
      as [s [Hs [Hband [Hpeak [Hquiet Hloud]]]]].
    exists d, (round (Rmax 0 (Rmin 100 s))).
    split; [exact Hd |]. split; [exact Hlow |].
    split; [now rewrite Hs, clampScore_Fin |].
    pose proof (clamp_range s) as Hc.
    split; [split; [apply round_ge | apply round_le]; simpl; lra |].
    split; [| split; [| split]].
    + intros HL. apply round_ge. rewrite clamp_id by (specialize (Hband HL); lra).
      specialize (Hband HL). lra.
    + intros HL. rewrite (Hpeak HL), clamp_id by lra. apply round_IZR.
    + intros HL. rewrite (Hquiet HL), clamp_id by lra. apply round_IZR.
    + intros HL. rewrite (Hloud HL), clamp_id by lra. apply round_IZR.
Qed.

Lemma atMost_mul (s : num) (w : R) :
  validScore s -> 0 <= w -> atMost (100 * w) (s * Fin w)%num.
Proof.
  intros [-> | [z [-> [Hlo Hhi]]]] Hw; [now left |].
  right. cbn [mul]. eexists. split; [reflexivity |].
  apply IZR_le in Hlo, Hhi. split.
  - apply Rmult_le_pos; assumption.
  - apply Rmult_le_compat_r; assumption.
Qed.

Lemma atMost_add (a b : num) (ca cb : R) :
  atMost ca a -> atMost cb b -> atMost (ca + cb) (a + b)%num.
Proof.
  intros [-> | [x [-> Hx]]] [-> | [y [-> Hy]]]; try (now left).
  right. cbn [add]. eexists. split; [reflexivity | lra].
Qed.

Lemma atMost_round (a : num) (cap : R) (k : Z) :
  atMost cap a -> cap <= IZR k ->
  roundNum a = NaN \/ exists z, roundNum a = Fin (IZR z) /\ (0 <= z <= k)%Z.
Proof.
  intros [-> | [x [-> [Hlo Hhi]]]] Hk; [now left |].
  right. cbn [roundNum]. eexists. split; [reflexivity |].
  split; [apply round_ge | apply round_le]; simpl; lra.
Qed.

Lemma weightedSum_atMost (r : AnalysisResult) (weights : Weights.t) :
  validScore (Volume.score (volume r)) ->
  validScore (SpeechRate.score (speechRate r)) ->
  validScore (Acceleration.score (acceleration r)) ->
  validScore (ResponseTime.score (responseTime r)) ->
  validScore (Pauses.score (pauseManagement r)) ->
  0 <= Weights.volume weights -> 0 <= Weights.speechRate weights ->
  0 <= Weights.acceleration weights -> 0 <= Weights.responseTime weights ->
  0 <= Weights.pauseManagement weights ->
  atMost (100 * Weights.total weights) (weightedSum r weights).
Proof.
  intros V S A T P Hv Hs Ha Ht Hp. unfold weightedSum, Weights.total.
  replace (100 * (Weights.volume weights + Weights.speechRate weights
                  + Weights.acceleration weights + Weights.responseTime weights
                  + Weights.pauseManagement weights))
    with (100 * Weights.volume weights + 100 * Weights.speechRate weights
          + 100 * Weights.acceleration weights + 100 * Weights.responseTime weights
          + 100 * Weights.pauseManagement weights) by ring.
  repeat apply atMost_add; apply atMost_mul; assumption.
Qed.

Lemma rawWeight_nonneg (config : list MetricConfig) (name : string) :
  Forall (fun m => 0 <= weight m) config ->
  0 <= match getMetricConfig config name with
       | Some m => weight m
       | None => 0
       end.
Proof.
  intros Hall. destruct (getMetricConfig config name) as [m|] eqn:Hm; [| lra].
  unfold getMetricConfig in Hm. apply find_some in Hm. destruct Hm as [Hin _].
  rewrite Forall_forall in Hall. now apply Hall.
Qed.

Lemma normalizedWeights_range (config : list MetricConfig) :
  Forall (fun m => 0 <= weight m) config ->
  let w := normalizedWeights config in
  0 <= Weights.volume w /\ 0 <= Weights.speechRate w
  /\ 0 <= Weights.acceleration w /\ 0 <= Weights.responseTime w
  /\ 0 <= Weights.pauseManagement w /\ Weights.total w <= 1.
Proof.
  intros Hall. cbv zeta. unfold normalizedWeights, Weights.total, rawWeights.
  cbn [Weights.volume Weights.speechRate Weights.acceleration
       Weights.responseTime Weights.pauseManagement].
  pose proof (rawWeight_nonneg config "volume" Hall) as H1.
  pose proof (rawWeight_nonneg config "speechRate" Hall) as H2.
  pose proof (rawWeight_nonneg config "acceleration" Hall) as H3.
  pose proof (rawWeight_nonneg config "responseTime" Hall) as H4.
  pose proof (rawWeight_nonneg config "pauseManagement" Hall) as H5.
  set (a := match getMetricConfig config "volume" with Some m => _ | None => _ end) in *.
  set (b := match getMetricConfig config "speechRate" with Some m => _ | None => _ end) in *.
  set (c0 := match getMetricConfig config "acceleration" with Some m => _ | None => _ end) in *.
  set (d := match getMetricConfig config "responseTime" with Some m => _ | None => _ end) in *.
  set (f := match getMetricConfig config "pauseManagement" with Some m => _ | None => _ end) in *.
  set (total := Rmax 1 (a + b + c0 + d + f)).
  assert (Htotal : 1 <= total /\ a + b + c0 + d + f <= total).
  { unfold total. split; [apply Rmax_l | apply Rmax_r]. }
  assert (Hinv : 0 < / total) by (apply Rinv_0_lt_compat; lra).
  unfold Rdiv.
  repeat split; try (apply Rmult_le_pos; lra).
  rewrite <- !Rmult_plus_distr_r.
  apply Rmult_le_reg_r with total; [lra |].
  rewrite Rmult_assoc, Rinv_l by lra. lra.
Qed.

Lemma local_weights_nonneg (raw : Local.item) :
  Forall (fun m => 0 <= weight m)
         (orElse (getConfigFromLocalStorage raw) DEFAULT_CONFIG).
Proof.
  destruct (getConfigFromLocalStorage raw) as [config|] eqn:Hlocal; cbn [orElse].
  - unfold getConfigFromLocalStorage in Hlocal.
    destruct raw as [| |parsed]; try discriminate.
    destruct (map localMapped (filter localAccepted parsed)) as [|m0 rest] eqn:Hmap;
      [discriminate |].
    injection Hlocal as <-. rewrite <- Hmap.
    apply Forall_forall. intros m Hin.
    apply in_map_iff in Hin. destruct Hin as [l [<- Hl]].
    apply filter_In in Hl. destruct Hl as [_ Hacc].
    destruct (ConfigExtra.localAccepted_inv l Hacc) as [name [w [_ [_ [_ [Hw Hpos]]]]]].
    unfold localMapped. cbn [weight]. rewrite Hw. simpl. lra.
  - unfold DEFAULT_CONFIG. repeat constructor; simpl; lra.
Qed.

Lemma default_weights :
  normalizedWeights DEFAULT_CONFIG
  = {| Weights.volume := 40 / 100; Weights.speechRate := 40 / 100;
       Weights.acceleration := 5 / 100; Weights.responseTime := 5 / 100;
       Weights.pauseManagement := 10 / 100 |}.
Proof.
  unfold normalizedWeights, rawWeights. simpl.
  replace (40 + 40 + 5 + 5 + 10) with 100 by lra.
  rewrite Rmax_right by lra. reflexivity.
Qed.

Lemma analyzeAudio_result (audioBuffer : list R) (sampleRate : R) (e : Env)
      (r : AnalysisResult) :
  fst (analyzeAudio audioBuffer sampleRate e) = Some r ->
  let config := orElse (getConfigFromLocalStorage (metricConfigItem e)) DEFAULT_CONFIG in
  volume r = analyzeVolume audioBuffer config 0
  /\ SpeechRate.score (speechRate r) = Fin 0
  /\ SpeechRate.method (speechRate r) = "energy-peaks"%string
  /\ acceleration r = analyzeAcceleration audioBuffer sampleRate config
  /\ responseTime r = analyzeResponseTime audioBuffer sampleRate config
  /\ analyzePauses audioBuffer sampleRate config None = Some (pauseManagement r)
  /\ overallScore r = roundNum (weightedSum r (normalizedWeights config))
  /\ emotionalFeedback r = gradeOf (overallScore r)
  /\ normalization r = None.
Proof.
  unfold analyzeAudio, abind, getMetricConfigItem. cbv zeta.
  destruct (analyzePauses _ _ _ None) as [pm|]; unfold aret; cbn [fst];
    intros Hr; [| discriminate].
  apply PipelineFacts.Some_inj in Hr. subst r.
  unfold weightedSum, gradeOf.
  cbn [volume speechRate acceleration responseTime pauseManagement overallScore
       emotionalFeedback normalization SpeechRate.score SpeechRate.method].
  repeat split; reflexivity.
Qed.

(** X27: a result of [analyzeAudio] has a speech-rate score of 0, no
    normalization record, and an overall score that is a whole number from
    0 to 100 or not a number; without a usable [metricConfig] override the
    overall score is at most 60, so the feedback is never "excellent". *)
Theorem analyzeAudio_overall :
  forall (audioBuffer : list R) (sampleRate : R) (e : Env) (r : AnalysisResult),
    fst (analyzeAudio audioBuffer sampleRate e) = Some r ->
    validScore (overallScore r)
    /\ SpeechRate.score (speechRate r) = Fin 0
    /\ normalization r = None
    /\ (getConfigFromLocalStorage (metricConfigItem e) = None ->
        (overallScore r = NaN
         \/ exists z, overallScore r = Fin (IZR z) /\ (0 <= z <= 60)%Z)
        /\ emotionalFeedback r <> "excellent"%string).
Proof.
  intros audioBuffer sampleRate e r Hr.
  destruct (analyzeAudio_result _ _ _ _ Hr)
    as [Hv [Hs [_ [Ha [Ht [Hp [Ho [Hg Hn]]]]]]]].
  cbv zeta in *.
  set (config := orElse (getConfigFromLocalStorage (metricConfigItem e))
                        DEFAULT_CONFIG) in *.
  assert (V : validScore (Volume.score (volume r)))
    by (rewrite Hv; apply volume_score_valid).
  assert (S : validScore (SpeechRate.score (speechRate r))).
  { rewrite Hs. right. exists 0%Z. split; [reflexivity | lia]. }
  assert (A : validScore (Acceleration.score (acceleration r)))
    by (rewrite Ha; apply acceleration_score_valid).
  assert (T : validScore (ResponseTime.score (responseTime r)))
    by (rewrite Ht; apply responseTime_score_valid).
  assert (P : validScore (Pauses.score (pauseManagement r)))
    by (apply (pauses_score_valid _ _ _ _ _ Hp)).
  pose proof (normalizedWeights_range config (local_weights_nonneg _)) as Hw.
  cbv zeta in Hw. destruct Hw as [W1 [W2 [W3 [W4 [W5 Wsum]]]]].
  split; [| split; [exact Hs | split; [exact Hn |]]].
  - rewrite Ho.
    destruct (atMost_round _ _ 100%Z
                (weightedSum_atMost r _ V S A T P W1 W2 W3 W4 W5)) as [H | H].
    + lra.
    + now left.
    + now right.
  - intros Hlocal.
    assert (Hcfg : config = DEFAULT_CONFIG) by (unfold config; now rewrite Hlocal).
    assert (Hsum : atMost 60 (weightedSum r (normalizedWeights config))).
    { rewrite Hcfg, default_weights. unfold weightedSum.
      cbn [Weights.volume Weights.speechRate Weights.acceleration
           Weights.responseTime Weights.pauseManagement].
      rewrite Hs.
      replace 60 with (100 * (40 / 100) + 0 + 100 * (5 / 100) + 100 * (5 / 100)
                       + 100 * (10 / 100)) by lra.
      repeat apply atMost_add; try (apply atMost_mul; [assumption | lra]).
      right. cbn [mul]. eexists. split; [reflexivity | lra]. }
    assert (Hcap : overallScore r = NaN
                   \/ exists z, overallScore r = Fin (IZR z) /\ (0 <= z <= 60)%Z).
    { rewrite Ho. apply (atMost_round _ 60); [exact Hsum | lra]. }
    split; [exact Hcap |].
    rewrite Hg. unfold gradeOf.
    destruct Hcap as [-> | [z [-> [_ Hz]]]].
    + cbn [ge le]. discriminate.
    + cbn [ge le]. apply IZR_le in Hz. rewrite Rleb_false by lra.
      destruct (Rleb 40 (IZR z)); discriminate.
Qed.

Lemma firstAbove_none (noiseFloor : R) (samples : list R) (i : nat) :
  Forall (fun s => Rabs s <= noiseFloor) samples ->
  firstAbove noiseFloor samples i = O.
Proof.
  intros Hall. revert i. induction Hall as [|s rest Hs _ IH]; intros i; simpl.
  - reflexivity.
  - rewrite Rltb_false by exact Hs. apply IH.
Qed.

Lemma calculateAdaptiveNoiseFloor_floor (audioBuffer : list R) (sampleRate : R) :
  0.005 <= calculateAdaptiveNoiseFloor audioBuffer sampleRate.
Proof.
  unfold calculateAdaptiveNoiseFloor.
  destruct (slice audioBuffer 0 _); [lra | apply Rmax_l].
Qed.

(** X29: at a sample rate other than 0, [analyzeResponseTime] reports a
    response time of 0 ms when no sample exceeds the adaptive noise floor
    (in particular when all samples are within 0.005 of zero), as it does
    when the first sample exceeds it; the score is then 100 whenever the
    [ideal] threshold is not negative. *)
Theorem analyzeResponseTime_quiet :
  forall (audioBuffer : list R) (sampleRate : R) (config : list MetricConfig),
    let t := thresholdsOr config "responseTime" responseTimeFallback in
    let result := analyzeResponseTime audioBuffer sampleRate config in
    sampleRate <> 0 ->
    (Forall (fun s => Rabs s <= 0.005) audioBuffer
     \/ Forall (fun s => Rabs s <= calculateAdaptiveNoiseFloor audioBuffer sampleRate)
               audioBuffer
     \/ exists s rest,
         audioBuffer = s :: rest
         /\ calculateAdaptiveNoiseFloor audioBuffer sampleRate < Rabs s) ->
    ResponseTime.responseTimeMs result = Fin 0
    /\ (0 <= Thresholds.ideal t -> ResponseTime.score result = Fin 100).
Proof.
  intros audioBuffer sampleRate config t result Hrate Hcase. subst result.
  assert (Hfirst : firstAbove (calculateAdaptiveNoiseFloor audioBuffer sampleRate)
                              audioBuffer O = O).
  { destruct Hcase as [Hquiet | [Hquiet | [s [rest [Hbuf Hloud]]]]].
    - apply firstAbove_none.
      pose proof (calculateAdaptiveNoiseFloor_floor audioBuffer sampleRate) as Hfloor.
      revert Hquiet. apply Forall_impl. intros s Hs. lra.
    - now apply firstAbove_none.
    - rewrite Hbuf at 2. simpl. now rewrite Rltb_true. }
  unfold analyzeResponseTime. rewrite Hfirst.
  cbn [ResponseTime.responseTimeMs ResponseTime.score].
  assert (Hms : roundNum ((Fin (INR 0) / Fin sampleRate) * Fin 1000)%num = Fin 0).
  { cbn [div INR]. rewrite Reqb_false by exact Hrate. cbn [mul roundNum].
    replace (0 / sampleRate * 1000) with (IZR 0) by (simpl; field; exact Hrate).
    now rewrite round_IZR. }
  rewrite Hms. split; [reflexivity |].
  intros Hideal. cbn [le]. fold t. rewrite Rleb_true by exact Hideal.
  rewrite clampScore_Fin, clamp_id by lra. now rewrite round_IZR.
Qed.

Lemma analyzeAudioAsync_aggregate
      (audioBuffer : list R) (sampleRate : R) (audio : option Audio.t)
      (c : Collaborators) (e : Env) (r : AnalysisResult) :
  fst (analyzeAudioAsync audioBuffer sampleRate audio c e) = Some r ->
  let config := fst (fst (resolved c e)) in
  (hasSpeech audio = false -> r = noSpeechResult (snd (fst (resolved c e))))
  /\ (hasSpeech audio = true ->
      overallScore r = roundNum (weightedSum r (normalizedWeights config))
      /\ emotionalFeedback r = gradeOf (overallScore r)
      /\ feedback r
         = buildFeedback (volume r) (speechRate r) (acceleration r)
                         (responseTime r) (pauseManagement r) (overallScore r)
      /\ metrics r
         = {| Metrics.volume := Volume.score (volume r);
              Metrics.speechRate := SpeechRate.score (speechRate r);
              Metrics.pauses := Pauses.score (pauseManagement r);
              Metrics.latency := ResponseTime.score (responseTime r);
              Metrics.endIntensity := Acceleration.score (acceleration r) |}).
Proof.
  intros Hr. cbv zeta. split; intros Hspeech.
  - rewrite PipelineFacts.analyzeAudioAsync_no_speech in Hr by exact Hspeech.
    destruct (resolved c e) as [[config method] e2]. cbn [fst snd] in *.
    now apply PipelineFacts.Some_inj in Hr.
  - revert Hr.
    unfold hasSpeech, vadOf, resolved, analyzeAudioAsync, abind in *.
    destruct (getConfigAsync (scoringConfig c) e) as [config e1].
    destruct (getSpeechRateMethod config e1) as [method e2].
    rewrite Hspeech. cbn [negb fst].
    match goal with
    | |- context [let (_, _) := ?step e2 in _] =>
        destruct (step e2) as [[[processed normalization] deviceOffset] e3]
    end.
    destruct (analyzePauses processed sampleRate config _) as [pm|];
      unfold aret; cbn [fst]; intros Hr; [| discriminate].
    apply PipelineFacts.Some_inj in Hr. subst r.
    unfold weightedSum, gradeOf.
    cbn [volume speechRate acceleration responseTime pauseManagement overallScore
         emotionalFeedback feedback metrics].
    repeat split; reflexivity.
Qed.

(** X28: when the resolved configuration has no negative weight, a result
    of [analyzeAudioAsync] has an overall score and five metric scores that
    are whole numbers from 0 to 100 or not a number; in every result the
    emotional feedback is the grade of the overall score, the feedback list
    is not empty, [metrics] repeats the five scores and [pauses] is
    [pauseManagement]. *)
Theorem analyzeAudioAsync_overall :
  forall (audioBuffer : list R) (sampleRate : R) (audio : option Audio.t)
         (c : Collaborators) (e : Env) (r : AnalysisResult),
    fst (analyzeAudioAsync audioBuffer sampleRate audio c e) = Some r ->
    Forall (fun m => 0 <= weight m) (fst (fst (resolved c e))) ->
    validScore (overallScore r)
    /\ emotionalFeedback r = gradeOf (overallScore r)
    /\ feedback r <> []
    /\ validScore (Volume.score (volume r))
    /\ validScore (SpeechRate.score (speechRate r))
    /\ validScore (Acceleration.score (acceleration r))
    /\ validScore (ResponseTime.score (responseTime r))
    /\ validScore (Pauses.score (pauseManagement r))
    /\ metrics r
       = {| Metrics.volume := Volume.score (volume r);
            Metrics.speechRate := SpeechRate.score (speechRate r);
            Metrics.pauses := Pauses.score (pauseManagement r);
            Metrics.latency := ResponseTime.score (responseTime r);
            Metrics.endIntensity := Acceleration.score (acceleration r) |}
    /\ pauses r = pauseManagement r.
Proof.
  intros audioBuffer sampleRate audio c e r Hr Hweights.
  destruct (analyzeAudioAsync_aggregate _ _ _ _ _ _ Hr) as [Hsilent Hspoken].
  assert (Hzero : validScore (Fin 0)).
  { right. exists 0%Z. split; [reflexivity | lia]. }
  destruct (hasSpeech audio) eqn:Hspeech.
  - destruct (Hspoken eq_refl) as [Ho [Hg [Hf Hm]]].
    pose proof (PipelineFacts.analyzeAudioAsync_routes _ _ _ _ _ _ Hspeech Hr)
      as Hroutes.
    destruct (resolved c e) as [[config method] e2].
    destruct (prepared audioBuffer sampleRate audio c e)
      as [[processed normalization] deviceOffset].
    cbn [fst] in *.
    destruct Hroutes as [Hv [Hs [Ha [Ht [Hp Hpp]]]]].
    assert (V : validScore (Volume.score (volume r)))
      by (rewrite Hv; apply volume_score_valid).
    assert (S : validScore (SpeechRate.score (speechRate r)))
      by (rewrite Hs; apply speechRate_score_valid).
    assert (A : validScore (Acceleration.score (acceleration r)))
      by (rewrite Ha; apply acceleration_score_valid).
    assert (T : validScore (ResponseTime.score (responseTime r)))
      by (rewrite Ht; apply responseTime_score_valid).
    assert (P : validScore (Pauses.score (pauseManagement r)))
      by (apply (pauses_score_valid _ _ _ _ _ Hp)).
    pose proof (normalizedWeights_range config Hweights) as Hw.
    cbv zeta in Hw. destruct Hw as [W1 [W2 [W3 [W4 [W5 Wsum]]]]].
    split; [| split; [exact Hg | split; [| repeat split; assumption]]].
    + rewrite Ho.
      destruct (atMost_round _ _ 100%Z
                  (weightedSum_atMost r _ V S A T P W1 W2 W3 W4 W5)) as [H | H].
      * lra.
      * now left.
      * now right.
    + rewrite Hf, advice_list. cbv zeta.
      match goal with
      | |- match ?l with [] => _ | _ :: _ => _ end <> [] =>
          destruct l; discriminate
      end.
  - rewrite (Hsilent eq_refl).
    cbn [noSpeechResult overallScore emotionalFeedback feedback volume speechRate
         acceleration responseTime pauseManagement pauses metrics
         Volume.score SpeechRate.score Acceleration.score ResponseTime.score
         Pauses.score].
    split; [exact Hzero |]. split.
    + unfold gradeOf. cbn [ge le]. rewrite !Rleb_false by lra. reflexivity.
    + split; [discriminate |]. repeat split; exact Hzero.
Qed.


End ScoreExtra.

(** ** Examples *)

Module ExtraExamples.
Import JsNum JsNumFacts Lufs LufsFacts Analysis Terms Cases
       LufsSpec StoreFacts StoreSpec RecalibrationSpec ConfigFacts ConfigSpec
       StoreExamples PipelineFacts PipelineExamples.

Lemma burst_survivors : survivingBlocks burst 10 = [Fin 1].
Proof.
  assert (Hg1 : absoluteGate < 1) by (apply Rpower_10_neg_lt_1; lra).
  assert (Hc1 : Rpower 10 (-10 / 10) < 1) by (apply Rpower_10_neg_lt_1; lra).
  assert (Hc0 := Rpower_10_pos (-10 / 10)).
  unfold survivingBlocks, burst. rewrite loud_block_blocks.
  unfold gatedOf. cbn [filter ge le]. rewrite Rleb_true by lra.
  unfold finalBlocksOf, relativeGateOf, avgOf, sumNum.
  cbn [fold_left add length INR div]. rewrite Reqb_false by lra.
  cbn [mul filter ge le]. rewrite Rleb_true by (simpl; nra). reflexivity.
Qed.

Lemma calculateLUFS_range_witness :
  exists l, calculateLUFS burst 10 = Fin l /\ -70.691 <= l <= -0.691.
Proof.
  destruct (LufsExtra.calculateLUFS_range burst 10) as [H | [l [H [Hlo Hhi]]]].
  - unfold burst in H. rewrite loud_block_loudness in H. discriminate.
  - exists l. split; [exact H |]. split; [exact Hlo |].
    apply Hhi. unfold burst. repeat constructor; unfold inRange; lra.
Defined.

Lemma loudness_of_survivors_witness :
  exists ys,
    ys <> []
    /\ survivingBlocks burst 10 = map Fin ys
    /\ Forall (fun y => absoluteGate <= y) ys
    /\ calculateLUFS burst 10
       = Fin (-0.691 + 10 * (ln (sumR ys / INR (length ys)) / ln 10)).
Proof.
  apply (LufsExtra.loudness_of_survivors burst 10).
  - discriminate.
  - rewrite burst_survivors. discriminate.
Defined.


Lemma usb_not_mic : "usb"%string <> "mic"%string.
Proof. discriminate. Qed.


Lemma store_unique_devices_witness :
  NoDup (deviceIds (snd (trackRecording "mic" quiet (worldWith [])))).
Proof.
  assert (Hunique : NoDup (deviceIds (worldWith [])))
    by (repeat constructor; simpl; tauto).
  apply (proj1 (proj2 (proj2 (proj2
           (StoreExtra.store_unique_devices (worldWith []) Hunique))))).
Defined.

Lemma getCalibrationProfile_frame_witness :
  lookup "usb" (profilesOf (snd (getCalibrationProfile "mic" (worldWith []))))
  = lookup "usb" (profilesOf (worldWith [])).
Proof.
  pose proof (StoreExtra.getCalibrationProfile_frame "mic" (worldWith [])) as H.
  cbv zeta in H.
  change (lookup "mic" (profilesOf (worldWith []))) with (Some (micWith [])) in H.
  destruct H as [_ [_ [Hothers _]]]. apply Hothers. exact usb_not_mic.
Defined.

Lemma trackRecording_frame_witness :
  lookup "usb" (profilesOf (snd (trackRecording "mic" quiet (worldWith []))))
  = lookup "usb" (profilesOf (worldWith [])).
Proof.
  pose proof (StoreExtra.trackRecording_frame "mic" quiet (worldWith [])) as H.
  cbv zeta in H.
  change (lookup "mic" (profilesOf (worldWith []))) with (Some (micWith [])) in H.
  destruct H as [_ [Hothers _]]. apply Hothers. exact usb_not_mic.
Defined.

Lemma deleteCalibrationProfile_laws_witness :
  profilesOf (snd (deleteCalibrationProfile "usb" (worldWith [])))
  = profilesOf (worldWith [])
  /\ profilesOf (snd (deleteCalibrationProfile
                        "mic" (snd (saveCalibrationProfile mic (worldWith [])))))
     = profilesOf (snd (deleteCalibrationProfile "mic" (worldWith []))).
Proof.
  split.
  - apply (proj1 (proj2 (StoreExtra.deleteCalibrationProfile_laws
                           "usb" (worldWith [])))).
    reflexivity.
  - apply (proj1 (proj2 (proj2 (StoreExtra.deleteCalibrationProfile_laws
                                  "mic" (worldWith []))))).
    reflexivity.
Defined.


Lemma recalibration_check_touches_store_witness :
  lookup "mic" (profilesOf (snd (checkRecalibrationNeeded "mic" (worldWith []))))
  = Some (withLastUsed (micWith []) 0).
Proof.
  apply (proj2 (proj2 (proj2 (proj2 (proj2
           (RecalibrationExtra.recalibration_check_touches_store
              "mic" (worldWith []))))))).
  reflexivity.
Defined.

Lemma calibrateAndNormalize_without_profile_witness :
  snd (calibrateAndNormalize tap 16000 None (-23) (worldWith [])) = worldWith [].
Proof.
  apply (proj1 (CalibrationExtra.calibrateAndNormalize_without_profile
                  tap 16000 (-23) None (worldWith []) (or_introl eq_refl))).
Defined.



Lemma createCalibrationProfile_gain_witness :
  gainAdjustment
    (fst (createCalibrationProfile "mic"%string "Microphone"%string (-60) (-23) (-23)
                                   (worldWith [])))
  = 1.
Proof.
  apply (proj1 (proj2 (proj2 (proj2 (proj2
           (CalibrationExtra.createCalibrationProfile_gain
              "mic"%string "Microphone"%string (-60) (-23) (-23) (worldWith []))))))).
  reflexivity.
Defined.

Lemma halfVolume_accepted : localAccepted halfVolume = true.
Proof. unfold localAccepted. simpl. apply Rltb_true. lra. Qed.

Lemma getConfigFromLocalStorage_accepted_witness :
  thresholds (localMapped halfVolume)
  = {| Thresholds.min := -35; Thresholds.ideal := -15; Thresholds.max := 0 |}.
Proof.
  apply (proj1 (proj2 (ConfigExtra.getConfigFromLocalStorage_accepted Local.Absent)
                      halfVolume
                      {| id := "volume"; weight := 40;
                         thresholds := {| Thresholds.min := -35;
                                          Thresholds.ideal := -15;
                                          Thresholds.max := 0 |};
                         method := None |}
                      halfVolume_accepted (or_introl eq_refl) eq_refl eq_refl)).
Defined.

Lemma fetchConfigFromDB_shape_witness :
  fetchConfigFromDB (Some [strayRow]) = DEFAULT_CONFIG.
Proof.
  apply (proj2 (proj2 (proj2 (ConfigExtra.fetchConfigFromDB_shape
                                (Some [strayRow])))) [strayRow] eq_refl).
  intros row [<- | []]. reflexivity.
Defined.

Lemma getConfigAsync_cache_witness :
  cachedConfig (snd (getConfigAsync None studio))
  = Some (fst (getConfigAsync None studio)).
Proof.
  apply (proj1 (proj2 (ConfigExtra.getConfigAsync_cache None None studio) eq_refl)).
Defined.

Lemma tap_frame : (0 < floor (16000 * 0.05))%Z.
Proof. rewrite frame_16000. lia. Qed.

Lemma metric_scores_valid_witness :
  exists r,
    analyzePauses tap 16000 DEFAULT_CONFIG None = Some r
    /\ validScore (Pauses.score r).
Proof.
  destruct (analyzePauses_returns tap 16000 DEFAULT_CONFIG tap_frame) as [pm Hpm].
  exists pm. split; [exact Hpm |].
  apply (proj2 (proj2 (proj2 (proj2
           (ScoreExtra.metric_scores_valid
              tap 16000 0 DEFAULT_CONFIG (Fin 1) "energy-peaks"%string false None
              offline None)))) pm Hpm).
Defined.

Lemma default_volume_ordered :
  let t := thresholdsOr DEFAULT_CONFIG "volume" volumeFallback in
  Thresholds.min t < Thresholds.ideal t < Thresholds.max t.
Proof. simpl. lra. Qed.

Lemma analyzeVolume_ordered_witness :
  Volume.averageDb (analyzeVolume [] DEFAULT_CONFIG 0) = NegInf
  /\ Volume.score (analyzeVolume [] DEFAULT_CONFIG 0) = Fin 0.
Proof.
  apply (proj1 (ScoreExtra.analyzeVolume_ordered
                  [] DEFAULT_CONFIG 0 default_volume_ordered)).
  reflexivity.
Defined.

Lemma default_rate_ordered :
  let t := thresholdsOr DEFAULT_CONFIG "speechRate" speechRateFallback in
  Thresholds.min t < Thresholds.ideal t.
Proof. simpl. lra. Qed.

Lemma scoreSpeechRate_shape_witness :
  exists s1 s2,
    scoreSpeechRate (Fin 100) DEFAULT_CONFIG = Fin s1
    /\ scoreSpeechRate (Fin 200) DEFAULT_CONFIG = Fin s2
    /\ s1 <= s2.
Proof.
  destruct (ScoreExtra.scoreSpeechRate_shape DEFAULT_CONFIG 100 200
                                             default_rate_ordered)
    as [s1 [s2 [H1 [H2 [_ [Hmono _]]]]]].
  exists s1, s2. split; [exact H1 |]. split; [exact H2 |]. apply Hmono. lra.
Defined.

Lemma analysis_returns_witness : stuck tap 10.
Proof.
  apply (proj2 (proj2 (proj2 (ScoreExtra.analysis_returns
                                tap 10 None offline studio)))).
  - lra.
  - discriminate.
Defined.

Lemma tap_analysed : exists r, fst (analyzeAudio tap 16000 studio) = Some r.
Proof.
  destruct (analyzePauses_returns tap 16000 DEFAULT_CONFIG tap_frame) as [pm Hpm].
  unfold analyzeAudio, abind, getMetricConfigItem.
  change (orElse (getConfigFromLocalStorage (metricConfigItem studio)) DEFAULT_CONFIG)
    with DEFAULT_CONFIG.
  rewrite Hpm. unfold aret. cbn [fst]. eauto.
Qed.

Lemma analyzeAudio_overall_witness :
  exists r,
    fst (analyzeAudio tap 16000 studio) = Some r
    /\ validScore (overallScore r)
    /\ emotionalFeedback r <> "excellent"%string.
Proof.
  destruct tap_analysed as [r Hr]. exists r. split; [exact Hr |].
  destruct (ScoreExtra.analyzeAudio_overall tap 16000 studio r Hr)
    as [Hvalid [_ [_ Hdefault]]].
  split; [exact Hvalid |]. apply Hdefault. reflexivity.
Defined.

Lemma studio_weights :
  Forall (fun m => 0 <= weight m) (fst (fst (resolved offline studio))).
Proof.
  destruct studio_resolved as [e2 [Hres _]]. rewrite Hres. cbn [fst].
  unfold DEFAULT_CONFIG. repeat constructor; simpl; lra.
Qed.

Lemma analyzeAudioAsync_overall_witness :
  validScore (overallScore tapResult)
  /\ emotionalFeedback tapResult = gradeOf (overallScore tapResult).
Proof.
  destruct (ScoreExtra.analyzeAudioAsync_overall
              tap 16000 (Some withMic) offline studio tapResult
              tapResult_returned studio_weights) as [Hvalid [Hgrade _]].
  split; assumption.
Defined.

Lemma analyzeResponseTime_quiet_witness :
  ResponseTime.responseTimeMs (analyzeResponseTime hush 16000 DEFAULT_CONFIG) = Fin 0
  /\ ResponseTime.score (analyzeResponseTime hush 16000 DEFAULT_CONFIG) = Fin 100.
Proof.
  assert (Hrate : 16000 <> 0) by lra.
  assert (Hquiet : Forall (fun s => Rabs s <= 0.005) hush).
  { unfold hush. repeat constructor; rewrite Rabs_R0; lra. }
  destruct (ScoreExtra.analyzeResponseTime_quiet
              hush 16000 DEFAULT_CONFIG Hrate (or_introl Hquiet)) as [Hms Hscore].
  split; [exact Hms |]. apply Hscore. simpl. lra.
Defined.


End ExtraExamples.
